(** * Sensor multiplexing core of the context hub firmware

    A shallow embedding of [firmware/src/sensors.c]: the sensor registry,
    the client request table with its rate / latency aggregation, and the
    per-sensor power state machine, followed by the properties of the
    specification that were checked against it.

    Conventions.
    - [uint32_t] and [uint64_t] values are modelled as [N]; the only
      arithmetic of the file, the handle counter, has its wrap-around
      written out.
    - A [struct Sensor *] is the index of the slot in [mSensors]; a pointer
      into a slab is the index of the cell.
    - Functions that call a driver or the OS run in the monad [M]: they read
      the answer of the outside world from an oracle and log the call.
      [None] stands for undefined behaviour of the C program (a call through
      a NULL operations table, a read past an unterminated rate array). *)

From Stdlib Require Import NArith List Bool Lia Sorted.
From stdpp Require Import base option list.
Import ListNotations.

Local Open Scope N_scope.

(** ** Constants of sensors.c *)

Definition MAX_INTERNAL_EVENTS : nat := 32.
Definition MAX_CLI_SENS_MATRIX_SZ : nat := 64.

Definition SENSOR_RATE_OFF : N := 0x00000000.
Definition SENSOR_RATE_POWERING_ON : N := 0xFFFFFFF0.
Definition SENSOR_RATE_POWERING_OFF : N := 0xFFFFFFF1.
Definition SENSOR_RATE_FW_UPLOADING : N := 0xFFFFFFF2.
Definition SENSOR_RATE_IMPOSSIBLE : N := 0xFFFFFFF3.
Definition SENSOR_LATENCY_INVALID : N := 0xFFFFFFFFFFFFFFFF.

(** ** Data *)

(** [struct SensorInfo] is declared in sensors.h; the fields used by
    sensors.c are the type tag and the rate array.  [supportedRates] is the
    content of the C array, terminator included. *)
Record SensorInfo := mkSensorInfo {
  sensorType : N;
  supportedRates : list N
}.

(** Modelled from the spec: the tagged reference of plat/inc/taggedPtr.h,
    "tagged union {DriverOps reference, AppletTaskId}".  A driver reference
    is the address of its operations table, 0 being NULL. *)
Inductive TaggedPtr :=
| TaggedPtrPtr (ops : N)
| TaggedPtrUint (tid : N).

Definition taggedPtrMakeFromPtr (ops : N) : TaggedPtr := TaggedPtrPtr ops.
Definition taggedPtrMakeFromUint (tid : N) : TaggedPtr := TaggedPtrUint tid.

Record Sensor := mkSensor {
  si : option SensorInfo;      (* NULL until the slot is first registered *)
  handle : N;                  (* here 0 means invalid *)
  currentLatency : N;          (* here 0 means no batching *)
  currentRate : N;             (* here 0 means off *)
  callInfo : TaggedPtr         (* pointer to ops struct or app tid *)
}.

Definition set_handle (h : N) (s : Sensor) : Sensor :=
  mkSensor (si s) h (currentLatency s) (currentRate s) (callInfo s).
Definition set_currentRate (r : N) (s : Sensor) : Sensor :=
  mkSensor (si s) (handle s) (currentLatency s) r (callInfo s).
Definition set_currentLatency (l : N) (s : Sensor) : Sensor :=
  mkSensor (si s) (handle s) l (currentRate s) (callInfo s).

(** The two views of [union SensorsInternalEvent]. *)
Inductive SensorsInternalEvent :=
| InternalEvt (evt_handle value1 value2 : N)
| ExternalEvt (ext_latency ext_rate : N).

Record SensorsClientRequest := mkReq {
  req_handle : N;
  clientId : N;
  latency : N;
  rate : N
}.

Definition set_rate_latency (r l : N) (q : SensorsClientRequest) : SensorsClientRequest :=
  mkReq (req_handle q) (clientId q) l r.

(** ** The slab allocator and the atomic bitset *)

(** Modelled from the spec: the slab allocator of slab.h, "alloc() ->
    ptr|null, free(ptr), getNth(i) -> ptr|null (iteration across fixed
    capacity, null for empty cells)".  A cell is [None] when it is free.
    The bytes left in a freed cell are never read back: every user of
    [slabAllocatorAlloc] in sensors.c stores all the fields it later
    reads. *)
Abbreviation Slab T := (list (option T)).

Definition slabAllocatorNew {T} (numItems : nat) : Slab T := replicate numItems None.

Definition slabAllocatorGetNth {T} (slab : Slab T) (i : nat) : option T :=
  match slab !! i with
  | Some (Some x) => Some x
  | _ => None
  end.

Fixpoint firstFree {T} (slab : Slab T) : option nat :=
  match slab with
  | [] => None
  | None :: _ => Some O
  | Some _ :: rest => S <$> firstFree rest
  end.

Definition slabAllocatorAlloc {T} (slab : Slab T) : option nat := firstFree slab.

Definition slabAllocatorFree {T} (slab : Slab T) (i : nat) : Slab T := <[i := None]> slab.

Definition slabStore {T} (slab : Slab T) (i : nat) (x : T) : Slab T := <[i := Some x]> slab.

(** Modelled from the spec: the atomic bitset of atomicBitset.h,
    "findClearAndSet -> index|-1, clearBit(index), init". *)
Fixpoint atomicBitsetFindClearAndSet (bits : list bool) : option (nat * list bool) :=
  match bits with
  | [] => None
  | false :: rest => Some (O, true :: rest)
  | true :: rest =>
      match atomicBitsetFindClearAndSet rest with
      | Some (i, rest') => Some (S i, true :: rest')
      | None => None
      end
  end.

Definition atomicBitsetClearBit (bits : list bool) (i : nat) : list bool := <[i := false]> bits.

Definition atomicBitsetInit (numBits : nat) : list bool := replicate numBits false.

(** ** The globals of sensors.c *)

Record Machine := mkMachine {
  mSensors : list Sensor;
  mSensorsUsed : list bool;
  mInternalEvents : Slab SensorsInternalEvent;
  mCliSensMatrix : Slab SensorsClientRequest;
  mNextSensorHandle : N
}.

Definition set_mSensors (v : list Sensor) (m : Machine) : Machine :=
  mkMachine v (mSensorsUsed m) (mInternalEvents m) (mCliSensMatrix m) (mNextSensorHandle m).
Definition set_mSensorsUsed (v : list bool) (m : Machine) : Machine :=
  mkMachine (mSensors m) v (mInternalEvents m) (mCliSensMatrix m) (mNextSensorHandle m).
Definition set_mInternalEvents (v : Slab SensorsInternalEvent) (m : Machine) : Machine :=
  mkMachine (mSensors m) (mSensorsUsed m) v (mCliSensMatrix m) (mNextSensorHandle m).
Definition set_mCliSensMatrix (v : Slab SensorsClientRequest) (m : Machine) : Machine :=
  mkMachine (mSensors m) (mSensorsUsed m) (mInternalEvents m) v (mNextSensorHandle m).
Definition set_mNextSensorHandle (v : N) (m : Machine) : Machine :=
  mkMachine (mSensors m) (mSensorsUsed m) (mInternalEvents m) (mCliSensMatrix m) v.

(** [s->currentRate = r; s->currentLatency = l;] *)
Definition storeRateLatency (s : nat) (r l : N) (m : Machine) : Machine :=
  match mSensors m !! s with
  | Some x => set_mSensors (<[s := set_currentLatency l (set_currentRate r x)]> (mSensors m)) m
  | None => m
  end.

(** ** Calls that leave sensors.c *)

Inductive AppEvt :=
| EVT_APP_SENSOR_POWER
| EVT_APP_SENSOR_FW_UPLD
| EVT_APP_SENSOR_SET_RATE
| EVT_APP_SENSOR_FLUSH
| EVT_APP_SENSOR_TRIGGER.

Inductive EvtData :=
| EvtDataNull
| EvtDataBool (on : bool)
| EvtDataExternalEvt (evt : nat).

Inductive InternalEvtNum :=
| SENSOR_INTERNAL_EVT_POWER_STATE_CHG
| SENSOR_INTERNAL_EVT_FW_STATE_CHG
| SENSOR_INTERNAL_EVT_RATE_CHG.

Inductive ExtCall :=
| OpsSensorPower (ops : N) (on : bool)
| OpsSensorFirmwareUpload (ops : N)
| OpsSensorSetRate (ops : N) (rate latency : N)
| OpsSensorFlush (ops : N)
| OpsSensorTriggerOndemand (ops : N)
| OsEnqueuePrivateEvt (evtType : AppEvt) (evtData : EvtData) (withFreeF : bool) (toTid : N)
| OsDefer (callback : InternalEvtNum) (evt : nat).

(** The answer of the outside world to a call. *)
Definition Oracle : Type := ExtCall -> bool.

Definition M (A : Type) : Type := Oracle -> Machine -> option (A * Machine * list ExtCall).

Definition ret {A} (a : A) : M A := fun _ m => Some (a, m, []).

Definition bind {A B} (c : M A) (k : A -> M B) : M B :=
  fun o m =>
    match c o m with
    | None => None
    | Some (a, m1, t1) =>
        match k a o m1 with
        | None => None
        | Some (b, m2, t2) => Some (b, m2, t1 ++ t2)
        end
    end.

Definition undefined {A} : M A := fun _ _ => None.
Definition getM : M Machine := fun _ m => Some (m, m, []).
Definition modifyM (f : Machine -> Machine) : M unit := fun _ m => Some (tt, f m, []).
Definition extcall (c : ExtCall) : M bool := fun o m => Some (o c, m, [c]).
Definition liftO {A} (x : option A) : M A :=
  match x with Some a => ret a | None => undefined end.

Declare Scope sensors_scope.
Notation "'do' x <- c ; k" := (bind c (fun x => k))
  (at level 10, x name, c at level 100, k at level 200) : sensors_scope.
Notation "c ;; k" := (bind c (fun _ => k))
  (at level 100, k at level 200, right associativity) : sensors_scope.
Local Open Scope sensors_scope.

Definition readSensor (s : nat) : M Sensor :=
  do m <- getM; liftO (mSensors m !! s).

(** ** The code of sensors.c *)

(** sensors.h is not part of the file: the capacity of the slot table and
    the two pseudo-rates are parameters of the development. *)
Class SensorsH := mkSensorsH {
  MAX_REGISTERED_SENSORS : nat;
  SENSOR_RATE_ONDEMAND : N;
  SENSOR_RATE_ONCHANGE : N
}.

Section Sensors.

Context {hdr : SensorsH}.

(** The statics at boot are zero; [sensorsInit] clears the bitset and
    creates the two slabs.  The machine below is the one after a successful
    [sensorsInit]. *)
Definition zeroSensor : Sensor := mkSensor None 0 0 0 (TaggedPtrPtr 0).

Definition sensorsInit : Machine :=
  mkMachine (replicate MAX_REGISTERED_SENSORS zeroSensor)
            (atomicBitsetInit MAX_REGISTERED_SENSORS)
            (slabAllocatorNew MAX_INTERNAL_EVENTS)
            (slabAllocatorNew MAX_CLI_SENS_MATRIX_SZ)
            0.

Fixpoint findHandleFrom (sensors : list Sensor) (h : N) (i : nat) : option nat :=
  match sensors with
  | [] => None
  | x :: rest => if handle x =? h then Some i else findHandleFrom rest h (S i)
  end.

Definition sensorFindByHandle (m : Machine) (h : N) : option nat :=
  findHandleFrom (mSensors m) h O.

(** *** Aggregation *)

Definition sensorCalcHwLatencyStep (cli : Slab SensorsClientRequest) (h : N)
    (smallestLatency : N) (i : nat) : N :=
  match slabAllocatorGetNth cli i with
  | None => smallestLatency
  | Some req =>
      if negb (req_handle req =? h) then smallestLatency
      else if latency req <? smallestLatency then latency req
      else smallestLatency
  end.

Definition sensorCalcHwLatency (m : Machine) (s : nat) : option N :=
  match mSensors m !! s with
  | None => None
  | Some x =>
      Some (fold_left (sensorCalcHwLatencyStep (mCliSensMatrix m) (handle x))
                      (seq 0 MAX_CLI_SENS_MATRIX_SZ) SENSOR_LATENCY_INVALID)
  end.

(** The aggregates [sensorCalcHwRate] collects in its first loop. *)
Record RateScan := mkRateScan {
  haveUsers : bool;
  haveOnChange : bool;
  highestReq : N
}.

(** Lines 270-281: the request is counted. *)
Definition countRequest (a : RateScan) (r : N) : RateScan :=
  if r =? SENSOR_RATE_ONDEMAND then
    mkRateScan true (haveOnChange a) (highestReq a)
  else if r =? SENSOR_RATE_ONCHANGE then
    mkRateScan true true (highestReq a)
  else if highestReq a <? r then
    mkRateScan true (haveOnChange a) r
  else
    mkRateScan true (haveOnChange a) (highestReq a).

(** One turn of the first loop; the state is the aggregates and what is
    left of [removedRate]. *)
Definition sensorCalcHwRateStep (cli : Slab SensorsClientRequest) (h : N)
    (st : RateScan * N) (i : nat) : RateScan * N :=
  match slabAllocatorGetNth cli i with
  | None => st
  | Some req =>
      if negb (req_handle req =? h) then st
      else if rate req =? snd st then (fst st, SENSOR_RATE_OFF)
      else (countRequest (fst st) (rate req), snd st)
  end.

Definition sensorCalcHwRateInit (extraReqedRate : N) : RateScan :=
  mkRateScan
    (negb (extraReqedRate =? 0))
    (extraReqedRate =? SENSOR_RATE_ONCHANGE)
    (if negb (extraReqedRate =? 0) then
       if (extraReqedRate =? SENSOR_RATE_ONDEMAND) || (extraReqedRate =? SENSOR_RATE_ONCHANGE)
       then 0 else extraReqedRate
     else 0).

Definition sensorCalcHwRateScan (cli : Slab SensorsClientRequest) (h : N)
    (extraReqedRate removedRate : N) : RateScan :=
  fst (fold_left (sensorCalcHwRateStep cli h) (seq 0 MAX_CLI_SENS_MATRIX_SZ)
                 (sensorCalcHwRateInit extraReqedRate, removedRate)).

(** [for (i = 0; rates[i]; i++) if (rates[i] >= highestReq) return rates[i];]
    Running off the array without meeting the terminator is undefined. *)
Fixpoint scanSupportedRates (rates : list N) (highestReq : N) : option N :=
  match rates with
  | [] => None
  | r :: rest =>
      if r =? 0 then Some SENSOR_RATE_IMPOSSIBLE
      else if highestReq <=? r then Some r
      else scanSupportedRates rest highestReq
  end.

Definition sensorCalcHwRateResult (info : option SensorInfo) (a : RateScan) : option N :=
  if highestReq a =? 0 then
    if negb (haveUsers a) then Some SENSOR_RATE_OFF
    else if haveOnChange a then Some SENSOR_RATE_ONCHANGE
    else Some SENSOR_RATE_ONDEMAND
  else
    match info with
    | None => None
    | Some i => scanSupportedRates (supportedRates i) (highestReq a)
    end.

Definition sensorCalcHwRate (m : Machine) (s : nat) (extraReqedRate removedRate : N) : option N :=
  match mSensors m !! s with
  | None => None
  | Some x =>
      sensorCalcHwRateResult (si x)
        (sensorCalcHwRateScan (mCliSensMatrix m) (handle x) extraReqedRate removedRate)
  end.

(** *** Dispatch through the binding *)

(** A direct call through the operations table of a driver. *)
Definition callOps (ops : N) (c : ExtCall) : M bool :=
  if ops =? 0 then undefined else extcall c.

Definition sensorCallFuncPower (s : nat) (on : bool) : M bool :=
  do x <- readSensor s;
  match callInfo x with
  | TaggedPtrPtr ops => callOps ops (OpsSensorPower ops on)
  | TaggedPtrUint tid => extcall (OsEnqueuePrivateEvt EVT_APP_SENSOR_POWER (EvtDataBool on) false tid)
  end.

Definition sensorCallFuncFwUpld (s : nat) : M bool :=
  do x <- readSensor s;
  match callInfo x with
  | TaggedPtrPtr ops => callOps ops (OpsSensorFirmwareUpload ops)
  | TaggedPtrUint tid => extcall (OsEnqueuePrivateEvt EVT_APP_SENSOR_FW_UPLD EvtDataNull false tid)
  end.

Definition sensorCallFuncSetRateEvtFreeF (event : nat) : M unit :=
  modifyM (fun m => set_mInternalEvents (slabAllocatorFree (mInternalEvents m) event) m).

Definition sensorCallFuncSetRate (s : nat) (rate latency : N) : M bool :=
  do x <- readSensor s;
  match callInfo x with
  | TaggedPtrPtr ops => callOps ops (OpsSensorSetRate ops rate latency)
  | TaggedPtrUint tid =>
      do m <- getM;
      match slabAllocatorAlloc (mInternalEvents m) with
      | None => ret false
      | Some evt =>
          modifyM (set_mInternalEvents (slabStore (mInternalEvents m) evt (ExternalEvt latency rate)));;
          do ok <- extcall (OsEnqueuePrivateEvt EVT_APP_SENSOR_SET_RATE (EvtDataExternalEvt evt) true tid);
          if ok then ret true
          else (sensorCallFuncSetRateEvtFreeF evt;; ret false)
      end
  end.

Definition sensorCallFuncFlush (s : nat) : M bool :=
  do x <- readSensor s;
  match callInfo x with
  | TaggedPtrPtr ops => callOps ops (OpsSensorFlush ops)
  | TaggedPtrUint tid => extcall (OsEnqueuePrivateEvt EVT_APP_SENSOR_FLUSH EvtDataNull false tid)
  end.

Definition sensorCallFuncTrigger (s : nat) : M bool :=
  do x <- readSensor s;
  match callInfo x with
  | TaggedPtrPtr ops => callOps ops (OpsSensorTriggerOndemand ops)
  | TaggedPtrUint tid => extcall (OsEnqueuePrivateEvt EVT_APP_SENSOR_TRIGGER EvtDataNull false tid)
  end.

(** *** The state machine *)

Definition sensorReconfig (s : nat) (newHwRate newHwLatency : N) : M unit :=
  do x <- readSensor s;
  if (currentRate x =? newHwRate) && (currentLatency x =? newHwLatency) then
    ret tt
  else if currentRate x =? SENSOR_RATE_OFF then
    do ok <- sensorCallFuncPower s true;
    if ok then modifyM (storeRateLatency s SENSOR_RATE_POWERING_ON SENSOR_LATENCY_INVALID)
    else ret tt
  else if currentRate x =? SENSOR_RATE_POWERING_OFF then
    modifyM (storeRateLatency s SENSOR_RATE_POWERING_ON SENSOR_LATENCY_INVALID)
  else if (currentRate x =? SENSOR_RATE_POWERING_ON) || (currentRate x =? SENSOR_RATE_FW_UPLOADING) then
    ret tt
  else if (SENSOR_RATE_OFF <? newHwRate) || (newHwLatency <? SENSOR_LATENCY_INVALID) then
    sensorCallFuncSetRate s newHwRate newHwLatency;; ret tt
  else
    do ok <- sensorCallFuncPower s false;
    if ok then modifyM (storeRateLatency s SENSOR_RATE_POWERING_OFF SENSOR_LATENCY_INVALID)
    else ret tt.

(** [sensorReconfig(s, sensorCalcHwRate(s, 0, 0), sensorCalcHwLatency(s))] *)
Definition sensorReconfigFresh (s : nat) : M unit :=
  do m <- getM;
  do r <- liftO (sensorCalcHwRate m s 0 0);
  do l <- liftO (sensorCalcHwLatency m s);
  sensorReconfig s r l.

(** The handlers get the cell of [mInternalEvents] that
    [sensorSignalInternalEvt] filled; reading it through the other member of
    the union is not modelled. *)
Definition readInternalEvt (evtP : nat) : M (N * N * N) :=
  do m <- getM;
  match slabAllocatorGetNth (mInternalEvents m) evtP with
  | Some (InternalEvt h v1 v2) => ret (h, v1, v2)
  | _ => undefined
  end.

Definition freeInternalEvt (evtP : nat) : M unit :=
  modifyM (fun m => set_mInternalEvents (slabAllocatorFree (mInternalEvents m) evtP) m).

Definition fwStateChanged (h value1 value2 : N) : M unit :=
  do m <- getM;
  match sensorFindByHandle m h with
  | None => ret tt
  | Some s =>
      do x <- readSensor s;
      if value1 =? 0 then
        modifyM (storeRateLatency s SENSOR_RATE_POWERING_OFF SENSOR_LATENCY_INVALID);;
        sensorCallFuncPower s false;; ret tt
      else if currentRate x =? SENSOR_RATE_FW_UPLOADING then
        modifyM (storeRateLatency s value1 value2);;
        sensorReconfigFresh s
      else if currentRate x =? SENSOR_RATE_POWERING_OFF then
        sensorCallFuncPower s false;; ret tt
      else ret tt
  end.

Definition sensorInternalFwStateChanged (evtP : nat) : M unit :=
  do e <- readInternalEvt evtP;
  fwStateChanged (fst (fst e)) (snd (fst e)) (snd e);;
  freeInternalEvt evtP.

Definition powerStateChanged (h value1 : N) : M unit :=
  do m <- getM;
  match sensorFindByHandle m h with
  | None => ret tt
  | Some s =>
      do x <- readSensor s;
      if (currentRate x =? SENSOR_RATE_POWERING_ON) && negb (value1 =? 0) then
        modifyM (storeRateLatency s SENSOR_RATE_FW_UPLOADING SENSOR_LATENCY_INVALID);;
        sensorCallFuncFwUpld s;; ret tt
      else if (currentRate x =? SENSOR_RATE_POWERING_OFF) && (value1 =? 0) then
        modifyM (storeRateLatency s SENSOR_RATE_OFF SENSOR_LATENCY_INVALID)
      else if (currentRate x =? SENSOR_RATE_POWERING_ON) && (value1 =? 0) then
        sensorCallFuncPower s true;; ret tt
      else if (currentRate x =? SENSOR_RATE_POWERING_OFF) && negb (value1 =? 0) then
        sensorCallFuncPower s false;; ret tt
      else ret tt
  end.

Definition sensorInternalPowerStateChanged (evtP : nat) : M unit :=
  do e <- readInternalEvt evtP;
  powerStateChanged (fst (fst e)) (snd (fst e));;
  freeInternalEvt evtP.

Definition rateChanged (h value1 value2 : N) : M unit :=
  do m <- getM;
  match sensorFindByHandle m h with
  | None => ret tt
  | Some s => modifyM (storeRateLatency s value1 value2)
  end.

Definition sensorInternalRateChanged (evtP : nat) : M unit :=
  do e <- readInternalEvt evtP;
  rateChanged (fst (fst e)) (snd (fst e)) (snd e);;
  freeInternalEvt evtP.

Definition internalEventCallbacks (intEvtNum : InternalEvtNum) : nat -> M unit :=
  match intEvtNum with
  | SENSOR_INTERNAL_EVT_POWER_STATE_CHG => sensorInternalPowerStateChanged
  | SENSOR_INTERNAL_EVT_FW_STATE_CHG => sensorInternalFwStateChanged
  | SENSOR_INTERNAL_EVT_RATE_CHG => sensorInternalRateChanged
  end.

Definition sensorSignalInternalEvt (h : N) (intEvtNum : InternalEvtNum) (value1 value2 : N) : M bool :=
  do m <- getM;
  match slabAllocatorAlloc (mInternalEvents m) with
  | None => ret false
  | Some evt =>
      modifyM (set_mInternalEvents (slabStore (mInternalEvents m) evt (InternalEvt h value1 value2)));;
      do ok <- extcall (OsDefer intEvtNum evt);
      if ok then ret true
      else (freeInternalEvt evt;; ret false)
  end.

(** *** The registry *)

(** Modelled from the spec: [atomicAdd] of atomic.h, "a monotonically
    incremented 32-bit counter"; it returns the value before the addition.
    The do-while loop of [sensorRegisterEx] is run with fuel; [grabHandle_total]
    shows that the fuel given by [sensorRegisterEx] is never used up. *)
Fixpoint grabHandle (fuel : nat) (sensors : list Sensor) (next : N) : option (N * N) :=
  match fuel with
  | O => None
  | S fuel' =>
      let h := next in
      let next' := (next + 1) mod 2 ^ 32 in
      if (h =? 0) || bool_decide (is_Some (findHandleFrom sensors h O))
      then grabHandle fuel' sensors next'
      else Some (h, next')
  end.

Definition sensorRegisterEx (info : SensorInfo) (ci : TaggedPtr) : M N :=
  do m <- getM;
  match atomicBitsetFindClearAndSet (mSensorsUsed m) with
  | None => ret 0
  | Some (idx, bits) =>
      modifyM (set_mSensorsUsed bits);;
      do hn <- liftO (grabHandle (S (S (length (mSensors m)))) (mSensors m) (mNextSensorHandle m));
      modifyM (set_mNextSensorHandle (snd hn));;
      readSensor idx;;
      modifyM (fun m1 => set_mSensors
        (<[idx := mkSensor (Some info) (fst hn) SENSOR_LATENCY_INVALID SENSOR_RATE_OFF ci]> (mSensors m1)) m1);;
      ret (fst hn)
  end.

Definition sensorRegister (info : SensorInfo) (ops : N) : M N :=
  sensorRegisterEx info (taggedPtrMakeFromPtr ops).

Definition sensorRegisterAsApp (info : SensorInfo) (tid : N) : M N :=
  sensorRegisterEx info (taggedPtrMakeFromUint tid).

Definition sensorUnregister (h : N) : M bool :=
  do m <- getM;
  match sensorFindByHandle m h with
  | None => ret false
  | Some s =>
      do x <- readSensor s;
      modifyM (fun m1 => set_mSensors (<[s := set_handle 0 x]> (mSensors m1)) m1);;
      modifyM (fun m1 => set_mSensorsUsed (atomicBitsetClearBit (mSensorsUsed m1) s) m1);;
      ret true
  end.

(** [sensorFind]: the [idx]-th occupied slot of the given type. *)
Fixpoint sensorFindFrom (sensors : list Sensor) (ty : N) (idx : N) : option (option (SensorInfo * N)) :=
  match sensors with
  | [] => Some None
  | x :: rest =>
      if handle x =? 0 then sensorFindFrom rest ty idx
      else
        match si x with
        | None => None
        | Some info =>
            if sensorType info =? ty then
              if idx =? 0 then Some (Some (info, handle x))
              else sensorFindFrom rest ty (idx - 1)
            else sensorFindFrom rest ty idx
        end
  end.

Definition sensorFind (m : Machine) (ty idx : N) : option (option (SensorInfo * N)) :=
  sensorFindFrom (mSensors m) ty idx.

(** *** The request table *)

Definition isRequestor (cli : Slab SensorsClientRequest) (sensorHandle client : N) (i : nat) : bool :=
  match slabAllocatorGetNth cli i with
  | Some req => (req_handle req =? sensorHandle) && (clientId req =? client)
  | None => false
  end.

(** The first cell, in scan order, that holds the request of the client for
    the sensor: the loop shared by the four functions below. *)
Definition findRequestor (cli : Slab SensorsClientRequest) (sensorHandle client : N) : option nat :=
  List.find (isRequestor cli sensorHandle client) (seq 0 MAX_CLI_SENS_MATRIX_SZ).

Definition sensorAddRequestor (sensorHandle client rate latency : N) : M bool :=
  do m <- getM;
  match slabAllocatorAlloc (mCliSensMatrix m) with
  | None => ret false
  | Some i =>
      modifyM (set_mCliSensMatrix (slabStore (mCliSensMatrix m) i (mkReq sensorHandle client latency rate)));;
      ret true
  end.

Definition sensorGetCurRequestorRate (m : Machine) (sensorHandle client : N) : option (N * N) :=
  match findRequestor (mCliSensMatrix m) sensorHandle client with
  | None => None
  | Some i =>
      match slabAllocatorGetNth (mCliSensMatrix m) i with
      | Some req => Some (rate req, latency req)
      | None => None
      end
  end.

Definition sensorAmendRequestor (sensorHandle client newRate newLatency : N) : M bool :=
  do m <- getM;
  match findRequestor (mCliSensMatrix m) sensorHandle client with
  | None => ret false
  | Some i =>
      match slabAllocatorGetNth (mCliSensMatrix m) i with
      | Some req =>
          modifyM (set_mCliSensMatrix (slabStore (mCliSensMatrix m) i (set_rate_latency newRate newLatency req)));;
          ret true
      | None => ret false
      end
  end.

Definition sensorDeleteRequestor (sensorHandle client : N) : M bool :=
  do m <- getM;
  match findRequestor (mCliSensMatrix m) sensorHandle client with
  | None => ret false
  | Some i =>
      match slabAllocatorGetNth (mCliSensMatrix m) i with
      | Some req =>
          modifyM (set_mCliSensMatrix
            (slabStore (mCliSensMatrix m) i (set_rate_latency SENSOR_RATE_OFF SENSOR_LATENCY_INVALID req)));;
          modifyM (fun m1 => set_mCliSensMatrix (slabAllocatorFree (mCliSensMatrix m1) i) m1);;
          ret true
      | None => ret false
      end
  end.

(** *** The public API *)

Definition sensorRequest (client sensorHandle rate latency : N) : M bool :=
  do m <- getM;
  match sensorFindByHandle m sensorHandle with
  | None => ret false
  | Some s =>
      do newSensorRate <- liftO (sensorCalcHwRate m s rate 0);
      if newSensorRate =? SENSOR_RATE_IMPOSSIBLE then ret false
      else
        do added <- sensorAddRequestor sensorHandle client rate latency;
        if negb added then ret false
        else
          do m1 <- getM;
          do l <- liftO (sensorCalcHwLatency m1 s);
          sensorReconfig s newSensorRate l;;
          ret true
  end.

Definition sensorRequestRateChange (client sensorHandle newRate newLatency : N) : M bool :=
  do m <- getM;
  match sensorFindByHandle m sensorHandle with
  | None => ret false
  | Some s =>
      match sensorGetCurRequestorRate m sensorHandle client with
      | None => ret false
      | Some (oldRate, oldLatency) =>
          do newSensorRate <- liftO (sensorCalcHwRate m s newRate oldRate);
          if newSensorRate =? SENSOR_RATE_IMPOSSIBLE then ret false
          else
            do amended <- sensorAmendRequestor sensorHandle client newRate newLatency;
            if negb amended then ret false
            else
              do m1 <- getM;
              do l <- liftO (sensorCalcHwLatency m1 s);
              sensorReconfig s newSensorRate l;;
              ret true
      end
  end.

Definition sensorRelease (client sensorHandle : N) : M bool :=
  do m <- getM;
  match sensorFindByHandle m sensorHandle with
  | None => ret false
  | Some s =>
      do deleted <- sensorDeleteRequestor sensorHandle client;
      if negb deleted then ret false
      else (sensorReconfigFresh s;; ret true)
  end.

Definition sensorTriggerOndemand (client sensorHandle : N) : M bool :=
  do m <- getM;
  match sensorFindByHandle m sensorHandle with
  | None => ret false
  | Some s =>
      match findRequestor (mCliSensMatrix m) sensorHandle client with
      | Some _ => sensorCallFuncTrigger s
      | None => ret false
      end
  end.

Definition sensorFlush (sensorHandle : N) : M bool :=
  do m <- getM;
  match sensorFindByHandle m sensorHandle with
  | None => ret false
  | Some s => sensorCallFuncFlush s
  end.

Definition sensorGetCurRate (m : Machine) (sensorHandle : N) : N :=
  match sensorFindByHandle m sensorHandle with
  | Some s => match mSensors m !! s with Some x => currentRate x | None => SENSOR_RATE_OFF end
  | None => SENSOR_RATE_OFF
  end.

Definition sensorGetCurLatency (m : Machine) (sensorHandle : N) : N :=
  match sensorFindByHandle m sensorHandle with
  | Some s => match mSensors m !! s with Some x => currentLatency x | None => SENSOR_LATENCY_INVALID end
  | None => SENSOR_LATENCY_INVALID
  end.

(** *** Runs of the subsystem *)

(** The calls of the public API that change the machine. *)
Inductive ApiCall :=
| CallRegister (info : SensorInfo) (ops : N)
| CallRegisterAsApp (info : SensorInfo) (tid : N)
| CallUnregister (h : N)
| CallSignalInternalEvt (h : N) (intEvtNum : InternalEvtNum) (value1 value2 : N)
| CallRequest (client sensorHandle rate latency : N)
| CallRequestRateChange (client sensorHandle newRate newLatency : N)
| CallRelease (client sensorHandle : N)
| CallTriggerOndemand (client sensorHandle : N)
| CallFlush (sensorHandle : N).

Definition runApi (c : ApiCall) : M unit :=
  match c with
  | CallRegister info ops => sensorRegister info ops;; ret tt
  | CallRegisterAsApp info tid => sensorRegisterAsApp info tid;; ret tt
  | CallUnregister h => sensorUnregister h;; ret tt
  | CallSignalInternalEvt h n v1 v2 => sensorSignalInternalEvt h n v1 v2;; ret tt
  | CallRequest c h r l => sensorRequest c h r l;; ret tt
  | CallRequestRateChange c h r l => sensorRequestRateChange c h r l;; ret tt
  | CallRelease c h => sensorRelease c h;; ret tt
  | CallTriggerOndemand c h => sensorTriggerOndemand c h;; ret tt
  | CallFlush h => sensorFlush h;; ret tt
  end.

(** What the OS holds for the subsystem: the callbacks accepted by [osDefer]
    and not run yet, and the set-rate payloads handed to an applet whose
    release callback has not run yet. *)
Record World := mkWorld {
  machine : Machine;
  deferred : list (InternalEvtNum * nat);
  inFlight : list nat
}.

Definition absorb (o : Oracle) (p : list (InternalEvtNum * nat) * list nat) (c : ExtCall)
    : list (InternalEvtNum * nat) * list nat :=
  match c with
  | OsDefer cb evt => if o c then (fst p ++ [(cb, evt)], snd p) else p
  | OsEnqueuePrivateEvt _ (EvtDataExternalEvt evt) true _ =>
      if o c then (fst p, snd p ++ [evt]) else p
  | _ => p
  end.

Definition settle (o : Oracle) (m : Machine) (tr : list ExtCall)
    (d : list (InternalEvtNum * nat)) (f : list nat) : World :=
  let p := fold_left (absorb o) tr (d, f) in mkWorld m (fst p) (snd p).

(** The payload the handler [cb] will read from the cell [evt]. *)
Definition payloadOf (m : Machine) (evt : nat) : option (N * N * N) :=
  match slabAllocatorGetNth (mInternalEvents m) evt with
  | Some (InternalEvt h v1 v2) => Some (h, v1, v2)
  | _ => None
  end.

(** One step of a run: a call of the API, the delivery of a deferred
    callback, or the release of a delivered set-rate payload.  [guard]
    restricts the payloads the drivers may report. *)
Inductive step (guard : Machine -> InternalEvtNum -> nat -> Prop) : World -> World -> Prop :=
| step_api w c o m' tr :
    runApi c o (machine w) = Some (tt, m', tr) ->
    step guard w (settle o m' tr (deferred w) (inFlight w))
| step_deferred w pre cb evt post o m' tr :
    deferred w = pre ++ (cb, evt) :: post ->
    guard (machine w) cb evt ->
    internalEventCallbacks cb evt o (machine w) = Some (tt, m', tr) ->
    step guard w (settle o m' tr (pre ++ post) (inFlight w))
| step_freeF w pre evt post o m' tr :
    inFlight w = pre ++ evt :: post ->
    sensorCallFuncSetRateEvtFreeF evt o (machine w) = Some (tt, m', tr) ->
    step guard w (settle o m' tr (deferred w) (pre ++ post)).

Inductive reachable (guard : Machine -> InternalEvtNum -> nat -> Prop) : World -> Prop :=
| reachable_init : reachable guard (mkWorld sensorsInit [] [])
| reachable_step w w' : reachable guard w -> step guard w w' -> reachable guard w'.

Definition anyPayload : Machine -> InternalEvtNum -> nat -> Prop := fun _ _ _ => True.

End Sensors.

(** ** Vocabulary of the specification *)

Section Vocabulary.

Context {hdr : SensorsH}.

(** The call a binding turns a request to the driver into; a NULL
    operations table gives none. *)
Definition bindingCall (x : Sensor) (viaOps : N -> ExtCall) (viaApp : N -> ExtCall) : option ExtCall :=
  match callInfo x with
  | TaggedPtrPtr ops => if ops =? 0 then None else Some (viaOps ops)
  | TaggedPtrUint tid => Some (viaApp tid)
  end.

Definition powerCall (x : Sensor) (on : bool) : option ExtCall :=
  bindingCall x (fun ops => OpsSensorPower ops on)
    (fun tid => OsEnqueuePrivateEvt EVT_APP_SENSOR_POWER (EvtDataBool on) false tid).

(** Everything but the pool of internal events. *)
Definition sameButEvents (m m' : Machine) : Prop :=
  mSensors m' = mSensors m /\ mCliSensMatrix m' = mCliSensMatrix m
  /\ mSensorsUsed m' = mSensorsUsed m /\ mNextSensorHandle m' = mNextSensorHandle m.

(** What [sensorReconfig] can have done to the machine: nothing, one of its
    two stores, or a set-rate payload taken from the pool of events. *)
Definition reconfigStores (s : nat) (m m' : Machine) : Prop :=
  m' = m
  \/ m' = storeRateLatency s SENSOR_RATE_POWERING_ON SENSOR_LATENCY_INVALID m
  \/ m' = storeRateLatency s SENSOR_RATE_POWERING_OFF SENSOR_LATENCY_INVALID m
  \/ sameButEvents m m'.

(** The live requests for the sensor with handle [h], in the order the
    scans of the pool meet them. *)
Definition requestAt (cli : Slab SensorsClientRequest) (h : N) (i : nat) : option SensorsClientRequest :=
  match slabAllocatorGetNth cli i with
  | Some req => if req_handle req =? h then Some req else None
  | None => None
  end.

Definition liveRequests (cli : Slab SensorsClientRequest) (h : N) : list SensorsClientRequest :=
  omap (requestAt cli h) (seq 0 MAX_CLI_SENS_MATRIX_SZ).

Definition liveRates (cli : Slab SensorsClientRequest) (h : N) : list N :=
  rate <$> liveRequests cli h.

(** The rates the scan counts: one instance of [removed] is dropped, the
    first one met, and from then on (from the start when [removed] is OFF)
    the requests whose rate is OFF. *)
Fixpoint countedRates (removed : N) (rates : list N) : list N :=
  match rates with
  | [] => []
  | r :: rest =>
      if r =? removed then countedRates SENSOR_RATE_OFF rest
      else r :: countedRates removed rest
  end.

(** What takes part in the aggregation of [sensorCalcHwRate]. *)
Definition contributions (cli : Slab SensorsClientRequest) (h extraRate removed : N) : list N :=
  (if extraRate =? 0 then [] else [extraRate]) ++ countedRates removed (liveRates cli h).

(** A concrete numeric rate: neither OFF nor a pseudo-rate. *)
Definition isConcrete (r : N) : bool :=
  negb (r =? 0) && negb (r =? SENSOR_RATE_ONDEMAND) && negb (r =? SENSOR_RATE_ONCHANGE).

Definition largest (rates : list N) : N := fold_right N.max 0 rates.

(** The supported rates: the entries of the array before its terminator. *)
Fixpoint beforeTerminator (rates : list N) : list N :=
  match rates with
  | [] => []
  | r :: rest => if r =? 0 then [] else r :: beforeTerminator rest
  end.

(** The first supported rate that is at least [wanted], IMPOSSIBLE when
    there is none. *)
Definition firstSupported (rates : list N) (wanted : N) : N :=
  default SENSOR_RATE_IMPOSSIBLE (List.find (fun r => wanted <=? r) (beforeTerminator rates)).

(** The pseudo-rates of sensors.h are distinct from each other, from OFF
    and from the reject signal of the aggregation. *)
Definition pseudoRatesDistinct : Prop :=
  SENSOR_RATE_ONDEMAND <> SENSOR_RATE_ONCHANGE
  /\ SENSOR_RATE_ONDEMAND <> SENSOR_RATE_OFF /\ SENSOR_RATE_ONCHANGE <> SENSOR_RATE_OFF
  /\ SENSOR_RATE_ONDEMAND <> SENSOR_RATE_IMPOSSIBLE /\ SENSOR_RATE_ONCHANGE <> SENSOR_RATE_IMPOSSIBLE.

(** The rate array is ascending up to its terminator. *)
Definition ascending (rates : list N) : Prop :=
  StronglySorted N.le (beforeTerminator rates).

(** The first loop of [sensorCalcHwRate] seen from the rates it meets. *)
Definition rateStep (st : RateScan * N) (r : N) : RateScan * N :=
  if r =? snd st then (fst st, SENSOR_RATE_OFF) else (countRequest (fst st) r, snd st).

Definition noUsers : RateScan := mkRateScan false false 0.

(** What identifies a sensor: everything in its slot but the observed
    rate and latency. *)
Definition identity (x : Sensor) : option SensorInfo * N * TaggedPtr :=
  (si x, handle x, callInfo x).

(** The request table and the identities of the sensors are the same. *)
Definition sameRegistry (m m' : Machine) : Prop :=
  mCliSensMatrix m' = mCliSensMatrix m
  /\ identity <$> mSensors m' = identity <$> mSensors m.

(** A slot as [sensorRegister] or [sensorRegisterAsApp] fills it for a
    well-formed sensor: a non-zero handle, a descriptor whose rate array is
    terminated, and a binding that is not a NULL operations table. *)
Definition registered (x : Sensor) : Prop :=
  handle x <> 0
  /\ callInfo x <> TaggedPtrPtr 0
  /\ exists info, si x = Some info /\ 0 ∈ supportedRates info.

(** The request table has the capacity [sensorsInit] gave it. *)
Definition tableSized (m : Machine) : Prop :=
  length (mCliSensMatrix m) = MAX_CLI_SENS_MATRIX_SZ.

(** The values the specification lets [currentRate] take for a sensor with
    the descriptor [info]. *)
Definition allowedRate (info : option SensorInfo) (r : N) : Prop :=
  r = SENSOR_RATE_OFF \/ r = SENSOR_RATE_POWERING_ON \/ r = SENSOR_RATE_FW_UPLOADING
  \/ r = SENSOR_RATE_POWERING_OFF \/ r = SENSOR_RATE_ONDEMAND \/ r = SENSOR_RATE_ONCHANGE
  \/ exists i, info = Some i /\ r ∈ supportedRates i.

(** Every live sensor has an allowed [currentRate]. *)
Definition ratesAllowed (m : Machine) : Prop :=
  forall s x, mSensors m !! s = Some x -> handle x <> 0 -> allowedRate (si x) (currentRate x).

(** The drivers report allowed rates: the rate carried by a firmware or
    rate-change completion is allowed for the live sensor it is addressed
    to. *)
Definition reportedRatesAllowed (m : Machine) (cb : InternalEvtNum) (evt : nat) : Prop :=
  match cb with
  | SENSOR_INTERNAL_EVT_POWER_STATE_CHG => True
  | _ =>
      forall h v1 v2 s x,
        payloadOf m evt = Some (h, v1, v2) ->
        sensorFindByHandle m h = Some s ->
        mSensors m !! s = Some x ->
        handle x <> 0 ->
        allowedRate (si x) v1
  end.

(** A computation keeps a property of the machine. *)
Definition preserves {A} (P : Machine -> Prop) (c : M A) : Prop :=
  forall o m a m' tr, c o m = Some (a, m', tr) -> P m -> P m'.

(** The registry: who is registered where, the bitset of used slots, the
    handle counter, and the capacities of the two pools. *)
Definition registryOf (m : Machine)
    : list (option SensorInfo * N * TaggedPtr) * list bool * N * nat * nat :=
  (identity <$> mSensors m, mSensorsUsed m, mNextSensorHandle m,
   length (mInternalEvents m), length (mCliSensMatrix m)).

(** A computation leaves the registry as it found it. *)
Definition keepsRegistry {A} (c : M A) : Prop :=
  forall o m a m' tr, c o m = Some (a, m', tr) -> registryOf m' = registryOf m.

(** No two slots carry the same non-zero handle. *)
Definition handlesUnique (m : Machine) : Prop :=
  forall i j x y,
    mSensors m !! i = Some x -> mSensors m !! j = Some y ->
    handle x = handle y -> handle x <> 0 -> i = j.

(** A slot is marked used exactly when its handle is not zero. *)
Definition slotsMarked (m : Machine) : Prop :=
  forall i x, mSensors m !! i = Some x -> mSensorsUsed m !! i = Some (negb (handle x =? 0)).

(** The shape [sensorsInit] gives the machine and every call keeps. *)
Definition wellFormed (m : Machine) : Prop :=
  length (mSensors m) = MAX_REGISTERED_SENSORS
  /\ length (mSensorsUsed m) = MAX_REGISTERED_SENSORS
  /\ length (mInternalEvents m) = MAX_INTERNAL_EVENTS
  /\ length (mCliSensMatrix m) = MAX_CLI_SENS_MATRIX_SZ
  /\ mNextSensorHandle m < 2 ^ 32
  /\ slotsMarked m
  /\ handlesUnique m.

(** The calls that register or unregister a sensor. *)
Definition isRegistration (c : ApiCall) : bool :=
  match c with
  | CallRegister _ _ | CallRegisterAsApp _ _ | CallUnregister _ => true
  | _ => false
  end.

Definition triggerCall (x : Sensor) : option ExtCall :=
  bindingCall x (fun ops => OpsSensorTriggerOndemand ops)
    (fun tid => OsEnqueuePrivateEvt EVT_APP_SENSOR_TRIGGER EvtDataNull false tid).

Definition flushCall (x : Sensor) : option ExtCall :=
  bindingCall x (fun ops => OpsSensorFlush ops)
    (fun tid => OsEnqueuePrivateEvt EVT_APP_SENSOR_FLUSH EvtDataNull false tid).

Definition fwUpldCall (x : Sensor) : option ExtCall :=
  bindingCall x (fun ops => OpsSensorFirmwareUpload ops)
    (fun tid => OsEnqueuePrivateEvt EVT_APP_SENSOR_FW_UPLD EvtDataNull false tid).

(** A cell of the request table is free or holds a request for the
    sensor with handle [h]. *)
Definition cellFor (h : N) (cell : option SensorsClientRequest) : Prop :=
  match cell with
  | Some q => req_handle q = h
  | None => True
  end.

(** From [m] to [m'] the identities of the sensors are kept and the
    request table is the same, or differs in one cell that held and holds
    nothing but a request for the sensor with handle [h]. *)
Definition requestsEditedFor (h : N) (m m' : Machine) : Prop :=
  identity <$> mSensors m' = identity <$> mSensors m
  /\ (mCliSensMatrix m' = mCliSensMatrix m
      \/ exists i new,
           (i < length (mCliSensMatrix m))%nat
           /\ mCliSensMatrix m' = <[i := new]> (mCliSensMatrix m)
           /\ cellFor h (slabAllocatorGetNth (mCliSensMatrix m) i)
           /\ cellFor h new).

(** A rate of a sensor that is up: none of the four values of the power
    state machine. *)
Definition runningRate (r : N) : Prop :=
  r <> SENSOR_RATE_OFF /\ r <> SENSOR_RATE_POWERING_OFF
  /\ r <> SENSOR_RATE_POWERING_ON /\ r <> SENSOR_RATE_FW_UPLOADING.

(** The registered sensors of a type, in slot order, each with its
    descriptor and handle. *)
Definition ofType (ty : N) (x : Sensor) : option (SensorInfo * N) :=
  if handle x =? 0 then None
  else match si x with
       | Some info => if sensorType info =? ty then Some (info, handle x) else None
       | None => None
       end.

Definition sensorsOfType (sensors : list Sensor) (ty : N) : list (SensorInfo * N) :=
  omap (ofType ty) sensors.

(** Every occupied slot has a descriptor. *)
Definition described (sensors : list Sensor) : Prop :=
  forall x, x ∈ sensors -> handle x <> 0 -> is_Some (si x).

(** What a call has done to the rate and the latency of a slot when it
    stored no running rate: nothing, or one of the state values [allowed]
    into [currentRate] together with INVALID into [currentLatency]. *)
Definition keptOrStored (allowed : list N) (x x' : Sensor) : Prop :=
  (currentRate x' = currentRate x /\ currentLatency x' = currentLatency x)
  \/ (currentRate x' ∈ allowed /\ currentLatency x' = SENSOR_LATENCY_INVALID).

Definition slotsKeptOrStored (allowed : list N) (m m' : Machine) : Prop :=
  Forall2 (keptOrStored allowed) (mSensors m) (mSensors m').

(** Every defined run of a computation takes the machine to one related to
    it by [R]. *)
Definition follows (R : Machine -> Machine -> Prop) {A} (c : M A) : Prop :=
  forall o m a m' tr, c o m = Some (a, m', tr) -> R m m'.

End Vocabulary.

(** ** Sample data *)

(** A table of four slots and the pseudo-rates of the platform headers. *)
Definition demoH : SensorsH := mkSensorsH 4 0xFFFFFF00 0xFFFFFF01.

Definition demoInfo : SensorInfo := mkSensorInfo 1 [5; 10; 25; 50; 100; 0].

(** An outside world in which every call succeeds, and one in which none does. *)
Definition yes : Oracle := fun _ => true.
Definition no : Oracle := fun _ => false.

(** The machine a computation leaves (the machine itself when the
    computation is undefined). *)
Definition machineAfter {A} (c : M A) (o : Oracle) (m : Machine) : Machine :=
  match c o m with
  | Some (_, m1, _) => m1
  | None => m
  end.

Definition demoInit : Machine := sensorsInit (hdr := demoH).

(** One driver sensor registered: it gets the handle 1 and the slot 0. *)
Definition demoRegistered : Machine :=
  Eval vm_compute in machineAfter (sensorRegister demoInfo 0x1000) yes demoInit.

Definition demoSensor : Sensor :=
  mkSensor (Some demoInfo) 1 SENSOR_LATENCY_INVALID SENSOR_RATE_OFF (TaggedPtrPtr 0x1000).

(** Client 7 has asked for the rate 25: the sensor is POWERING-ON. *)
Definition demoRequested : Machine :=
  Eval vm_compute in
    machineAfter (sensorRequest (hdr := demoH) 7 1 25 SENSOR_LATENCY_INVALID) yes demoRegistered.

(** Client 8 has asked for the rate 25 as well. *)
Definition demoShared : Machine :=
  Eval vm_compute in
    machineAfter (sensorRequest (hdr := demoH) 8 1 25 SENSOR_LATENCY_INVALID) yes demoRequested.

(** The sensor has been unregistered while it was powering on. *)
Definition demoResidue : Machine :=
  Eval vm_compute in machineAfter (sensorUnregister 1) yes demoRequested.

(** A rate-change completion that reports the rate 7, which the sensor
    does not support, has been signalled for the registered sensor and
    delivered. *)
Definition demoSignalled : Machine :=
  Eval vm_compute in
    machineAfter (sensorSignalInternalEvt 1 SENSOR_INTERNAL_EVT_RATE_CHG 7 0) yes demoRegistered.

Definition demoStomped : Machine :=
  Eval vm_compute in machineAfter (sensorInternalRateChanged 0) yes demoSignalled.

(** A second sensor, of another type and served by the app with task id 9,
    registered beside the first: it gets the handle 2 and the slot 1. *)
Definition demoInfoB : SensorInfo := mkSensorInfo 2 [10; 20; 0].

Definition demoTwo : Machine :=
  Eval vm_compute in machineAfter (sensorRegisterAsApp demoInfoB 9) yes demoRequested.

(** Client 8 has asked the first of the two sensors for the rate 25. *)
Definition demoTwoShared : Machine :=
  Eval vm_compute in
    machineAfter (sensorRequest (hdr := demoH) 8 1 25 SENSOR_LATENCY_INVALID) yes demoTwo.

(** Of the two clients at the rate 25, client 7 has changed to the rate 50
    and the latency 100. *)
Definition demoChanged : Machine :=
  Eval vm_compute in
    machineAfter (sensorRequestRateChange (hdr := demoH) 7 1 50 100) yes demoShared.

(** Of the two clients, client 7 has released its request. *)
Definition demoReleased : Machine :=
  Eval vm_compute in machineAfter (sensorRelease (hdr := demoH) 7 1) yes demoShared.

(** The sensor that client 7 asked for is brought up: the driver signals
    that the power is on, then that the firmware runs at the rate 25 with
    the latency 1000, and both callbacks are delivered. *)
Definition demoPowerSignalled : Machine :=
  Eval vm_compute in
    machineAfter (sensorSignalInternalEvt 1 SENSOR_INTERNAL_EVT_POWER_STATE_CHG 1 0) yes
      demoRequested.

Definition demoUploading : Machine :=
  Eval vm_compute in machineAfter (sensorInternalPowerStateChanged 0) yes demoPowerSignalled.

Definition demoFwSignalled : Machine :=
  Eval vm_compute in
    machineAfter (sensorSignalInternalEvt 1 SENSOR_INTERNAL_EVT_FW_STATE_CHG 25 1000) yes
      demoUploading.

Definition demoRunning : Machine :=
  Eval vm_compute in
    machineAfter (sensorInternalFwStateChanged (hdr := demoH) 0) yes demoFwSignalled.

Definition demoRunningSensor : Sensor :=
  mkSensor (Some demoInfo) 1 1000 25 (TaggedPtrPtr 0x1000).

Definition demoSensorB : Sensor :=
  mkSensor (Some demoInfoB) 2 SENSOR_LATENCY_INVALID SENSOR_RATE_OFF (TaggedPtrUint 9).

(** Two clients of the first sensor, client 8 at the rate OFF and client 7
    at the rate 25, entered in the two orders: client 8 first, and client 7
    first. *)
Definition demoZeroOnly : Machine :=
  Eval vm_compute in
    machineAfter (sensorRequest (hdr := demoH) 8 1 0 SENSOR_LATENCY_INVALID) yes demoRegistered.

Definition demoZeroFirst : Machine :=
  Eval vm_compute in
    machineAfter (sensorRequest (hdr := demoH) 7 1 25 SENSOR_LATENCY_INVALID) yes demoZeroOnly.

Definition demoZeroLast : Machine :=
  Eval vm_compute in
    machineAfter (sensorRequest (hdr := demoH) 8 1 0 SENSOR_LATENCY_INVALID) yes demoRequested.

(** The same two tables with the sensor brought up to the rate 25 and the
    latency 1000 by its two completions. *)
Definition demoZeroFirstP : Machine :=
  Eval vm_compute in
    machineAfter (sensorSignalInternalEvt 1 SENSOR_INTERNAL_EVT_POWER_STATE_CHG 1 0) yes
      demoZeroFirst.

Definition demoZeroFirstU : Machine :=
  Eval vm_compute in machineAfter (sensorInternalPowerStateChanged 0) yes demoZeroFirstP.

Definition demoZeroFirstF : Machine :=
  Eval vm_compute in
    machineAfter (sensorSignalInternalEvt 1 SENSOR_INTERNAL_EVT_FW_STATE_CHG 25 1000) yes
      demoZeroFirstU.

Definition demoRunFirst : Machine :=
  Eval vm_compute in
    machineAfter (sensorInternalFwStateChanged (hdr := demoH) 0) yes demoZeroFirstF.

Definition demoRunLast : Machine :=
  Eval vm_compute in
    machineAfter (sensorRequest (hdr := demoH) 8 1 0 SENSOR_LATENCY_INVALID) yes demoRunning.

(** Client 7 has changed its rate from 25 to OFF in each of the two. *)
Definition demoRunFirstChanged : Machine :=
  Eval vm_compute in
    machineAfter (sensorRequestRateChange (hdr := demoH) 7 1 0 SENSOR_LATENCY_INVALID) yes
      demoRunFirst.

Definition demoRunLastChanged : Machine :=
  Eval vm_compute in
    machineAfter (sensorRequestRateChange (hdr := demoH) 7 1 0 SENSOR_LATENCY_INVALID) yes
      demoRunLast.

(** ** Properties *)

Section Properties.

Context {hdr : SensorsH}.

#[local] Opaque MAX_CLI_SENS_MATRIX_SZ.

(** *** The monad *)

Lemma bind_Some {A B} (c : M A) (k : A -> M B) o m b m2 tr :
  bind c k o m = Some (b, m2, tr) <->
  exists a m1 t1 t2, c o m = Some (a, m1, t1) /\ k a o m1 = Some (b, m2, t2) /\ tr = t1 ++ t2.
Proof.
  unfold bind. split.
  - destruct (c o m) as [[[a m1] t1]|]; [|discriminate].
    destruct (k a o m1) as [[[b' m2'] t2]|] eqn:Hk; [|discriminate].
    intros [= -> -> <-]. by exists a, m1, t1, t2.
  - intros (a & m1 & t1 & t2 & -> & -> & ->). reflexivity.
Qed.

Lemma bind_silent {A B} (c : M A) (k : A -> M B) o m a m1 :
  c o m = Some (a, m1, []) -> bind c k o m = k a o m1.
Proof.
  intros E. unfold bind. rewrite E.
  by destruct (k a o m1) as [[[b m2] t2]|].
Qed.

Lemma bind_ret {A B} (a : A) (k : A -> M B) o m : bind (ret a) k o m = k a o m.
Proof. by apply bind_silent. Qed.

Lemma bind_getM {B} (k : Machine -> M B) o m : bind getM k o m = k m o m.
Proof. by apply bind_silent. Qed.

Lemma bind_modifyM {B} f (k : unit -> M B) o m : bind (modifyM f) k o m = k tt o (f m).
Proof. by apply bind_silent. Qed.

Lemma bind_liftO {A B} (x : option A) (k : A -> M B) o m :
  bind (liftO x) k o m = match x with Some a => k a o m | None => None end.
Proof. destruct x; [by apply bind_silent | reflexivity]. Qed.

Lemma bind_readSensor {B} s (k : Sensor -> M B) o m :
  bind (readSensor s) k o m = match mSensors m !! s with Some x => k x o m | None => None end.
Proof.
  destruct (mSensors m !! s) as [x|] eqn:Hx.
  - apply bind_silent. unfold readSensor. rewrite bind_getM. by rewrite Hx.
  - unfold readSensor. unfold bind, getM, liftO. by rewrite Hx.
Qed.

Lemma bind_extcall {B} c (k : bool -> M B) o m :
  bind (extcall c) k o m =
  match k (o c) o m with Some (b, m2, t2) => Some (b, m2, c :: t2) | None => None end.
Proof. reflexivity. Qed.

Lemma bind_undefined {A B} (k : A -> M B) o m : bind undefined k o m = None.
Proof. reflexivity. Qed.

Lemma bind_assoc {A B C} (c : M A) (k : A -> M B) (k' : B -> M C) o m :
  bind (bind c k) k' o m = bind c (fun a => bind (k a) k') o m.
Proof.
  unfold bind. destruct (c o m) as [[[a m1] t1]|]; [|reflexivity].
  destruct (k a o m1) as [[[b m2] t2]|]; [|reflexivity].
  destruct (k' b o m2) as [[[c' m3] t3]|]; [|reflexivity].
  by rewrite app_assoc.
Qed.

Lemma bind_unit {A} (c : M A) o m :
  bind c (fun _ => ret tt) o m =
  match c o m with Some (_, m1, t1) => Some (tt, m1, t1) | None => None end.
Proof.
  unfold bind, ret. destruct (c o m) as [[[a m1] t1]|]; [|reflexivity].
  by rewrite app_nil_r.
Qed.

(** *** The binding *)

Lemma sensorCallFuncPower_eq s x on o m :
  mSensors m !! s = Some x ->
  sensorCallFuncPower s on o m =
  match powerCall x on with Some c => Some (o c, m, [c]) | None => None end.
Proof.
  intros Hx. unfold sensorCallFuncPower, powerCall, bindingCall, callOps.
  rewrite bind_readSensor, Hx.
  destruct (callInfo x) as [ops|tid]; [destruct (ops =? 0)|]; reflexivity.
Qed.

Lemma sensorCallFuncPower_run s on o m ok m1 tr :
  sensorCallFuncPower s on o m = Some (ok, m1, tr) ->
  m1 = m /\ exists c, tr = [c] /\ ok = o c.
Proof.
  destruct (mSensors m !! s) as [x|] eqn:Hx.
  - rewrite (sensorCallFuncPower_eq s x on o m Hx).
    destruct (powerCall x on); [|discriminate]. intros [= <- <- <-]. eauto.
  - unfold sensorCallFuncPower. rewrite bind_readSensor, Hx. discriminate.
Qed.

Lemma sensorCallFuncSetRate_run s r l o m ok m1 tr :
  sensorCallFuncSetRate s r l o m = Some (ok, m1, tr) -> sameButEvents m m1.
Proof.
  unfold sensorCallFuncSetRate, sensorCallFuncSetRateEvtFreeF, sameButEvents, callOps.
  rewrite bind_readSensor.
  destruct (mSensors m !! s) as [x|]; [|discriminate].
  destruct (callInfo x) as [ops|tid].
  - destruct (ops =? 0); [discriminate|]. by intros [= <- <- <-].
  - rewrite bind_getM.
    destruct (slabAllocatorAlloc (mInternalEvents m)) as [evt|].
    + rewrite bind_modifyM, bind_extcall.
      destruct (o _); [by intros [= <- <- <-]|].
      rewrite bind_modifyM. by intros [= <- <- <-].
    + by intros [= <- <- <-].
Qed.

Lemma storeRateLatency_sensors s r l m x :
  mSensors m !! s = Some x ->
  mSensors (storeRateLatency s r l m) = <[s := set_currentLatency l (set_currentRate r x)]> (mSensors m).
Proof. intros E. unfold storeRateLatency. by rewrite E. Qed.

(** *** The state machine *)

Lemma sensorReconfig_stores s r l o m u m' tr :
  sensorReconfig s r l o m = Some (u, m', tr) -> reconfigStores s m m'.
Proof.
  unfold sensorReconfig, reconfigStores. rewrite bind_readSensor.
  destruct (mSensors m !! s) as [x|]; [|discriminate]. intros E.
  repeat match type of E with
  | (if ?b then _ else _) _ _ = _ => destruct b
  end.
  - injection E as <- <- <-. by left.
  - apply bind_Some in E as (ok & m1 & t1 & t2 & Hp & E & ->).
    apply sensorCallFuncPower_run in Hp as [-> _].
    destruct ok; injection E as <- <- <-; auto.
  - injection E as <- <- <-. auto.
  - injection E as <- <- <-. by left.
  - apply bind_Some in E as (ok & m1 & t1 & t2 & Hp & E & ->).
    apply sensorCallFuncSetRate_run in Hp. injection E as <- <- <-. auto.
  - apply bind_Some in E as (ok & m1 & t1 & t2 & Hp & E & ->).
    apply sensorCallFuncPower_run in Hp as [-> _].
    destruct ok; injection E as <- <- <-; auto.
Qed.

(** *** The registry *)

Lemma findHandleFrom_Some sensors h i j :
  findHandleFrom sensors h i = Some j ->
  (i <= j)%nat /\ exists x, sensors !! (j - i)%nat = Some x /\ handle x = h.
Proof.
  revert i. induction sensors as [|y rest IH]; intros i; simpl; [discriminate|].
  destruct (N.eqb_spec (handle y) h) as [E|E].
  - intros [= <-]. split; [lia|]. exists y. by rewrite Nat.sub_diag.
  - intros Hj. apply IH in Hj as (Hle & x & Hx & Hh). split; [lia|].
    exists x. split; [|done].
    replace (j - i)%nat with (S (j - S i)) by lia. done.
Qed.

Lemma findHandleFrom_None sensors h i :
  findHandleFrom sensors h i = None <-> forall x, x ∈ sensors -> handle x <> h.
Proof.
  revert i. induction sensors as [|y rest IH]; intros i; simpl.
  - split; [|done]. intros _ x Hx. by apply elem_of_nil in Hx.
  - destruct (N.eqb_spec (handle y) h) as [E|E].
    + split; [discriminate|]. intros Hall. destruct (Hall y); [left|done].
    + rewrite IH. split.
      * intros Hall x Hx. apply elem_of_cons in Hx as [->|Hx]; auto.
      * intros Hall x Hx. apply Hall. by right.
Qed.

Lemma sensorFindByHandle_Some m h s :
  sensorFindByHandle m h = Some s -> exists x, mSensors m !! s = Some x /\ handle x = h.
Proof.
  intros E. apply findHandleFrom_Some in E as (_ & x & Hx & Hh).
  rewrite Nat.sub_0_r in Hx. eauto.
Qed.

(** The getters on a handle no slot carries. *)
Lemma sensorGetCur_absent m h :
  (forall x, x ∈ mSensors m -> handle x <> h) ->
  sensorGetCurRate m h = SENSOR_RATE_OFF /\ sensorGetCurLatency m h = SENSOR_LATENCY_INVALID.
Proof.
  intros Hall. unfold sensorGetCurRate, sensorGetCurLatency, sensorFindByHandle.
  apply (findHandleFrom_None _ _ O) in Hall. by rewrite Hall.
Qed.

(** *** Refused requests *)

Lemma sensorAddRequestor_false h c r l o m m' tr :
  sensorAddRequestor h c r l o m = Some (false, m', tr) -> m' = m /\ tr = [].
Proof.
  unfold sensorAddRequestor. rewrite bind_getM.
  destruct (slabAllocatorAlloc (mCliSensMatrix m)).
  - rewrite bind_modifyM. discriminate.
  - by intros [= <- <-].
Qed.

(** C10.  A [sensorRequest] that returns false has changed nothing, neither
    the request table nor any sensor slot, and has called no driver. *)
Theorem sensorRequest_false_unchanged client sensorHandle rate latency o m m' tr :
  sensorRequest client sensorHandle rate latency o m = Some (false, m', tr) ->
  m' = m /\ tr = [].
Proof.
  unfold sensorRequest. rewrite bind_getM.
  destruct (sensorFindByHandle m sensorHandle) as [s|]; [|by intros [= <- <-]].
  rewrite bind_liftO.
  destruct (sensorCalcHwRate m s rate 0) as [newSensorRate|]; [|discriminate].
  destruct (newSensorRate =? SENSOR_RATE_IMPOSSIBLE); [by intros [= <- <-]|].
  intros E. apply bind_Some in E as (added & m1 & t1 & t2 & Ha & E & ->).
  destruct added; simpl in E.
  - exfalso. rewrite bind_getM, bind_liftO in E.
    destruct (sensorCalcHwLatency m1 s); [|discriminate].
    apply bind_Some in E as (? & ? & ? & ? & _ & E & _). discriminate E.
  - apply sensorAddRequestor_false in Ha as [-> ->]. by injection E as <- <-.
Qed.

(** C4.  When the precheck of the aggregation answers IMPOSSIBLE, with the
    new rate as extra rate and, for a rate change, the rate the client holds
    as removed rate, [sensorRequest] and [sensorRequestRateChange] return
    false, leave the machine (and so the request table) as it was and call
    no driver. *)
Theorem infeasible_request_rejected client sensorHandle rate latency o m s :
  sensorFindByHandle m sensorHandle = Some s ->
  (sensorCalcHwRate m s rate 0 = Some SENSOR_RATE_IMPOSSIBLE ->
   sensorRequest client sensorHandle rate latency o m = Some (false, m, []))
  /\ (forall oldRate oldLatency,
      sensorGetCurRequestorRate m sensorHandle client = Some (oldRate, oldLatency) ->
      sensorCalcHwRate m s rate oldRate = Some SENSOR_RATE_IMPOSSIBLE ->
      sensorRequestRateChange client sensorHandle rate latency o m = Some (false, m, [])).
Proof.
  intros Hs. split.
  - intros Hr. unfold sensorRequest. by rewrite bind_getM, Hs, bind_liftO, Hr.
  - intros oldRate oldLatency Hold Hr. unfold sensorRequestRateChange.
    by rewrite bind_getM, Hs, Hold, bind_liftO, Hr.
Qed.

(** *** Aggregation *)

Lemma sensorCalcHwRateStep_rates cli h idxs st :
  fold_left (sensorCalcHwRateStep cli h) idxs st =
  fold_left rateStep (rate <$> omap (requestAt cli h) idxs) st.
Proof.
  revert st. induction idxs as [|i idxs IH]; intros st; [reflexivity|].
  cbn [fold_left]. rewrite IH. cbn [omap list_omap].
  unfold sensorCalcHwRateStep, requestAt at 2.
  destruct (slabAllocatorGetNth cli i) as [req|]; [|reflexivity].
  destruct (req_handle req =? h); reflexivity.
Qed.

Lemma rateStep_counted rates a removed :
  fst (fold_left rateStep rates (a, removed)) =
  fold_left countRequest (countedRates removed rates) a.
Proof.
  revert a removed. induction rates as [|r rates IH]; intros a removed; [reflexivity|].
  cbn [fold_left countedRates]. unfold rateStep at 2. cbn [fst snd].
  destruct (r =? removed); rewrite IH; reflexivity.
Qed.

Lemma sensorCalcHwRateScan_counted cli h extra removed :
  sensorCalcHwRateScan cli h extra removed =
  fold_left countRequest (countedRates removed (liveRates cli h)) (sensorCalcHwRateInit extra).
Proof.
  unfold sensorCalcHwRateScan, liveRates, liveRequests.
  rewrite sensorCalcHwRateStep_rates. apply rateStep_counted.
Qed.

Lemma sensorCalcHwRateInit_counted extra :
  SENSOR_RATE_ONCHANGE <> 0 -> SENSOR_RATE_ONDEMAND <> SENSOR_RATE_ONCHANGE ->
  sensorCalcHwRateInit extra =
  fold_left countRequest (if extra =? 0 then [] else [extra]) noUsers.
Proof.
  intros H0 Hne. unfold sensorCalcHwRateInit, noUsers, countRequest.
  destruct (N.eqb_spec extra 0) as [->|E0]; cbn [negb fold_left haveOnChange highestReq].
  - destruct (N.eqb_spec 0 SENSOR_RATE_ONCHANGE); [congruence | reflexivity].
  - destruct (N.eqb_spec extra SENSOR_RATE_ONDEMAND) as [E1|E1];
    destruct (N.eqb_spec extra SENSOR_RATE_ONCHANGE) as [E2|E2]; cbn [orb];
      try congruence; try reflexivity.
    destruct (N.ltb_spec 0 extra); [reflexivity | lia].
Qed.

Lemma scan_contributions cli h extra removed :
  SENSOR_RATE_ONCHANGE <> 0 -> SENSOR_RATE_ONDEMAND <> SENSOR_RATE_ONCHANGE ->
  sensorCalcHwRateScan cli h extra removed =
  fold_left countRequest (contributions cli h extra removed) noUsers.
Proof.
  intros H0 Hne. unfold contributions.
  by rewrite fold_left_app, <- sensorCalcHwRateInit_counted, sensorCalcHwRateScan_counted.
Qed.

Lemma countRequest_haveUsers cs a :
  haveUsers (fold_left countRequest cs a) = haveUsers a || negb (bool_decide (cs = [])).
Proof.
  revert a. induction cs as [|c cs IH]; intros a; cbn [fold_left].
  - by rewrite orb_false_r.
  - rewrite IH. rewrite (bool_decide_eq_false_2 (c :: cs = [])) by done.
    rewrite orb_true_r. unfold countRequest.
    by repeat match goal with |- context [if ?b then _ else _] => destruct b end.
Qed.

Lemma countRequest_haveOnChange cs a :
  SENSOR_RATE_ONDEMAND <> SENSOR_RATE_ONCHANGE ->
  haveOnChange (fold_left countRequest cs a) =
  haveOnChange a || bool_decide (SENSOR_RATE_ONCHANGE ∈ cs).
Proof.
  intros Hne. revert a. induction cs as [|c cs IH]; intros a; cbn [fold_left].
  - rewrite bool_decide_eq_false_2; [by rewrite orb_false_r|]. by intros ?%elem_of_nil.
  - rewrite IH. unfold countRequest.
    destruct (N.eqb_spec c SENSOR_RATE_ONDEMAND) as [E1|E1]; cbn [haveOnChange].
    + f_equal. apply bool_decide_ext. rewrite elem_of_cons. intuition congruence.
    + destruct (N.eqb_spec c SENSOR_RATE_ONCHANGE) as [E2|E2]; cbn [haveOnChange].
      * cbn [orb]. symmetry. rewrite bool_decide_eq_true_2; [apply orb_true_r|].
        subst c. left.
      * destruct (highestReq a <? c); cbn [haveOnChange]; f_equal;
          apply bool_decide_ext; rewrite elem_of_cons; intuition congruence.
Qed.

Lemma largest_cons c l : largest (c :: l) = N.max c (largest l).
Proof. reflexivity. Qed.

Lemma isConcrete_spec c :
  isConcrete c = true <->
  c <> 0 /\ c <> SENSOR_RATE_ONDEMAND /\ c <> SENSOR_RATE_ONCHANGE.
Proof.
  unfold isConcrete.
  destruct (N.eqb_spec c 0), (N.eqb_spec c SENSOR_RATE_ONDEMAND),
    (N.eqb_spec c SENSOR_RATE_ONCHANGE); cbn; intuition congruence.
Qed.

Lemma countRequest_highestReq cs a :
  highestReq (fold_left countRequest cs a) =
  N.max (highestReq a) (largest (filter (fun c => isConcrete c = true) cs)).
Proof.
  revert a. induction cs as [|c cs IH]; intros a; cbn [fold_left].
  - cbn. lia.
  - rewrite IH, filter_cons.
    destruct (decide (isConcrete c = true)) as [Hc|Hc].
    + apply isConcrete_spec in Hc as (H0 & H1 & H2). unfold countRequest.
      destruct (N.eqb_spec c SENSOR_RATE_ONDEMAND); [done|].
      destruct (N.eqb_spec c SENSOR_RATE_ONCHANGE); [done|].
      rewrite largest_cons.
      destruct (N.ltb_spec (highestReq a) c); cbn [highestReq]; lia.
    + f_equal. unfold countRequest.
      destruct (N.eqb_spec c SENSOR_RATE_ONDEMAND); [done|].
      destruct (N.eqb_spec c SENSOR_RATE_ONCHANGE); [done|].
      destruct (N.ltb_spec (highestReq a) c) as [Hlt|]; [|done].
      destruct Hc. apply isConcrete_spec. repeat split; try done. lia.
Qed.

Lemma largest_concrete_zero cs :
  largest (filter (fun c => isConcrete c = true) cs) = 0 <->
  filter (fun c => isConcrete c = true) cs = [].
Proof.
  split; [|by intros ->].
  induction cs as [|c cs IH]; [done|]. rewrite filter_cons.
  destruct (decide (isConcrete c = true)) as [Hc|Hc]; [|exact IH].
  cbn [largest fold_right]. intros E. exfalso.
  unfold isConcrete in Hc. destruct (N.eqb_spec c 0); [discriminate|]. lia.
Qed.

Lemma scanSupportedRates_first rates wanted :
  0 ∈ rates -> scanSupportedRates rates wanted = Some (firstSupported rates wanted).
Proof.
  unfold firstSupported. induction rates as [|r rates IH]; intros Hin.
  - by apply elem_of_nil in Hin.
  - cbn [scanSupportedRates beforeTerminator].
    destruct (N.eqb_spec r 0) as [E|E]; [reflexivity|]. cbn [List.find].
    destruct (wanted <=? r); [reflexivity|].
    apply IH. apply elem_of_cons in Hin as [Hin|Hin]; [congruence|done].
Qed.

Lemma firstSupported_least rates wanted r :
  ascending rates -> r ∈ beforeTerminator rates -> wanted <= r ->
  wanted <= firstSupported rates wanted <= r.
Proof.
  unfold ascending, firstSupported.
  induction (beforeTerminator rates) as [|y ys IH]; intros Hs Hin Hle.
  - by apply elem_of_nil in Hin.
  - apply StronglySorted_inv in Hs as [Hs Hall]. cbn [List.find].
    destruct (N.leb_spec wanted y) as [E|E].
    + unfold default; cbn [from_option id]. split; [done|]. apply elem_of_cons in Hin as [->|Hin]; [lia|].
      rewrite Forall_forall in Hall. by apply Hall.
    + apply elem_of_cons in Hin as [->|Hin]; [lia|]. by apply IH.
Qed.

(** The answer of [sensorCalcHwRate] in terms of what its scan counts, for
    a slot whose rate array is ascending and zero-terminated, in any state
    of the request table.  The contributions are the extra rate (when not
    OFF) and the rates of the requests for the sensor that the scan counts:
    in cell order, all but the first one at the removed rate and but those
    at the rate OFF met after it (from the start when the removed rate is
    OFF).  The answer is OFF when there is no contribution; ON-CHANGE when
    there are contributions, none of them a concrete rate, one of them
    ON-CHANGE; ON-DEMAND when there are contributions, none concrete, none
    ON-CHANGE; and with a concrete contribution the first supported rate
    that is at least the largest concrete one, which is also the least such
    rate, or IMPOSSIBLE when no supported rate is. *)
Theorem sensorCalcHwRate_cases m s x info extraRate removedRate :
  mSensors m !! s = Some x ->
  si x = Some info ->
  pseudoRatesDistinct ->
  ascending (supportedRates info) ->
  0 ∈ supportedRates info ->
  let cs := contributions (mCliSensMatrix m) (handle x) extraRate removedRate in
  let concrete := filter (fun c => isConcrete c = true) cs in
  (cs = [] -> sensorCalcHwRate m s extraRate removedRate = Some SENSOR_RATE_OFF)
  /\ (cs <> [] -> concrete = [] -> SENSOR_RATE_ONCHANGE ∈ cs ->
      sensorCalcHwRate m s extraRate removedRate = Some SENSOR_RATE_ONCHANGE)
  /\ (cs <> [] -> concrete = [] -> SENSOR_RATE_ONCHANGE ∉ cs ->
      sensorCalcHwRate m s extraRate removedRate = Some SENSOR_RATE_ONDEMAND)
  /\ (concrete <> [] ->
      sensorCalcHwRate m s extraRate removedRate =
        Some (firstSupported (supportedRates info) (largest concrete))
      /\ ((forall r, r ∈ beforeTerminator (supportedRates info) -> r < largest concrete) ->
          firstSupported (supportedRates info) (largest concrete) = SENSOR_RATE_IMPOSSIBLE)
      /\ (forall r, r ∈ beforeTerminator (supportedRates info) -> largest concrete <= r ->
          largest concrete <= firstSupported (supportedRates info) (largest concrete) <= r)).
Proof.
  intros Hx Hsi (Hne & _ & H0 & _) Hasc Hterm cs concrete.
  unfold sensorCalcHwRate, sensorCalcHwRateResult. rewrite Hx, Hsi.
  rewrite (scan_contributions _ _ _ _ H0 Hne). fold cs.
  rewrite countRequest_highestReq, countRequest_haveUsers, countRequest_haveOnChange by done.
  fold concrete. cbn [noUsers highestReq haveUsers haveOnChange orb].
  rewrite N.max_0_l.
  split; [|split; [|split]].
  - intros E. subst concrete. rewrite E. reflexivity.
  - intros E1 E2 E3. rewrite E2.
    rewrite (bool_decide_eq_false_2 (cs = [])) by done.
    by rewrite bool_decide_eq_true_2.
  - intros E1 E2 E3. rewrite E2.
    rewrite (bool_decide_eq_false_2 (cs = [])) by done.
    by rewrite bool_decide_eq_false_2.
  - intros Hc. split; [|split].
    + destruct (N.eqb_spec (largest concrete) 0) as [E|E].
      * by apply largest_concrete_zero in E.
      * by apply scanSupportedRates_first.
    + intros Hall. unfold firstSupported.
      destruct (List.find _ _) as [r|] eqn:Hf; [|reflexivity].
      apply find_some in Hf as [Hin Hle]. apply list_elem_of_In, Hall in Hin.
      apply N.leb_le in Hle. lia.
    + intros r Hin Hle. by apply firstSupported_least.
Qed.

Lemma countedRates_off rates :
  countedRates SENSOR_RATE_OFF rates = filter (fun c => c <> SENSOR_RATE_OFF) rates.
Proof.
  induction rates as [|r rates IH]; [reflexivity|].
  cbn [countedRates]. rewrite filter_cons.
  destruct (N.eqb_spec r SENSOR_RATE_OFF) as [E|E].
  - by rewrite decide_False by (intros ?; done).
  - by rewrite decide_True, IH by done.
Qed.


Lemma largest_ge rates r : r ∈ rates -> r <= largest rates.
Proof.
  induction rates as [|c rates IH]; intros Hin.
  - by apply elem_of_nil in Hin.
  - cbn [largest fold_right]. fold (largest rates).
    apply elem_of_cons in Hin as [->|Hin]; [lia|]. apply IH in Hin. lia.
Qed.



(** *** What the state machine leaves alone *)

Lemma sameRegistry_refl m : sameRegistry m m.
Proof. by split. Qed.

Lemma sameRegistry_trans m1 m2 m3 :
  sameRegistry m1 m2 -> sameRegistry m2 m3 -> sameRegistry m1 m3.
Proof. intros [A B] [C D]. split; congruence. Qed.

Lemma storeRateLatency_sameRegistry s r l m : sameRegistry m (storeRateLatency s r l m).
Proof.
  unfold storeRateLatency. destruct (mSensors m !! s) as [x|] eqn:Hx; [|apply sameRegistry_refl].
  split; [reflexivity|]. cbn [mSensors set_mSensors].
  rewrite list_fmap_insert. apply list_insert_id. by rewrite list_lookup_fmap, Hx.
Qed.

Lemma sameButEvents_sameRegistry m m' : sameButEvents m m' -> sameRegistry m m'.
Proof. intros (A & B & _). split; congruence. Qed.

Lemma reconfigStores_sameRegistry s m m' : reconfigStores s m m' -> sameRegistry m m'.
Proof.
  intros [->|[->|[->|E]]];
    auto using sameRegistry_refl, storeRateLatency_sameRegistry, sameButEvents_sameRegistry.
Qed.

Lemma sameRegistry_lookup m m' s x :
  sameRegistry m m' -> mSensors m !! s = Some x ->
  exists x', mSensors m' !! s = Some x' /\ identity x' = identity x.
Proof.
  intros [_ E] Hx.
  assert (Hi : (identity <$> mSensors m') !! s = Some (identity x))
    by (by rewrite E, list_lookup_fmap, Hx).
  rewrite list_lookup_fmap in Hi.
  destruct (mSensors m' !! s) as [x'|]; [|discriminate]. apply (inj Some) in Hi. eauto.
Qed.

Lemma findHandleFrom_identity l l' h i :
  identity <$> l' = identity <$> l -> findHandleFrom l' h i = findHandleFrom l h i.
Proof.
  revert l' i. induction l as [|x l IH]; intros [|x' l'] i E; try discriminate; [reflexivity|].
  injection E as E1 E2 E3 El. cbn [findHandleFrom].
  rewrite E2. by rewrite (IH l' (S i) El).
Qed.

Lemma sameRegistry_find m m' h :
  sameRegistry m m' -> sensorFindByHandle m' h = sensorFindByHandle m h.
Proof. intros [_ E]. by apply findHandleFrom_identity. Qed.

Lemma sameRegistry_calcHwRate m m' s extra removed :
  sameRegistry m m' -> sensorCalcHwRate m' s extra removed = sensorCalcHwRate m s extra removed.
Proof.
  intros R. unfold sensorCalcHwRate.
  destruct (mSensors m !! s) as [x|] eqn:Hx.
  - destruct (sameRegistry_lookup _ _ _ _ R Hx) as (x' & -> & Hi).
    destruct R as [-> _]. unfold identity in Hi. by injection Hi as -> -> _.
  - destruct R as [_ E].
    assert ((identity <$> mSensors m') !! s = None) as Hn
      by (by rewrite E, list_lookup_fmap, Hx).
    rewrite list_lookup_fmap in Hn. by destruct (mSensors m' !! s).
Qed.

Lemma sameRegistry_calcHwLatency m m' s :
  sameRegistry m m' -> sensorCalcHwLatency m' s = sensorCalcHwLatency m s.
Proof.
  intros R. unfold sensorCalcHwLatency.
  destruct (mSensors m !! s) as [x|] eqn:Hx.
  - destruct (sameRegistry_lookup _ _ _ _ R Hx) as (x' & -> & Hi).
    destruct R as [-> _]. unfold identity in Hi. by injection Hi as _ -> _.
  - destruct R as [_ E].
    assert ((identity <$> mSensors m') !! s = None) as Hn
      by (by rewrite E, list_lookup_fmap, Hx).
    rewrite list_lookup_fmap in Hn. by destruct (mSensors m' !! s).
Qed.

Lemma registered_identity x x' : identity x' = identity x -> registered x -> registered x'.
Proof.
  unfold identity, registered. intros [= E1 E2 E3]. by rewrite E1, E2, E3.
Qed.

(** *** No undefined behaviour on a registered sensor *)

Lemma sensorCallFuncPower_total s x on o m :
  mSensors m !! s = Some x -> callInfo x <> TaggedPtrPtr 0 ->
  exists c, sensorCallFuncPower s on o m = Some (o c, m, [c]).
Proof.
  intros Hx Hc. rewrite (sensorCallFuncPower_eq s x on o m Hx).
  unfold powerCall, bindingCall. destruct (callInfo x) as [ops|tid]; [|eauto].
  destruct (N.eqb_spec ops 0) as [->|E]; [done | eauto].
Qed.

Lemma sensorCallFuncSetRate_total s x r l o m :
  mSensors m !! s = Some x -> callInfo x <> TaggedPtrPtr 0 ->
  exists ok m1 tr, sensorCallFuncSetRate s r l o m = Some (ok, m1, tr).
Proof.
  intros Hx Hc. unfold sensorCallFuncSetRate, sensorCallFuncSetRateEvtFreeF, callOps.
  rewrite bind_readSensor, Hx. destruct (callInfo x) as [ops|tid].
  - destruct (N.eqb_spec ops 0) as [->|E]; [done|]. unfold extcall. eauto.
  - rewrite bind_getM. destruct (slabAllocatorAlloc (mInternalEvents m)); [|unfold ret; eauto].
    rewrite bind_modifyM, bind_extcall. destruct (o _); [unfold ret; eauto|].
    rewrite bind_modifyM. unfold ret. eauto.
Qed.

Lemma sensorReconfig_total s x r l o m :
  mSensors m !! s = Some x -> callInfo x <> TaggedPtrPtr 0 ->
  exists m' tr, sensorReconfig s r l o m = Some (tt, m', tr).
Proof.
  intros Hx Hc.
  destruct (sensorCallFuncPower_total s x true o m Hx Hc) as (c1 & E1).
  destruct (sensorCallFuncPower_total s x false o m Hx Hc) as (c2 & E2).
  destruct (sensorCallFuncSetRate_total s x r l o m Hx Hc) as (ok & m1 & t1 & E3).
  unfold sensorReconfig. rewrite bind_readSensor, Hx.
  repeat match goal with
  | |- context [if ?b then _ else _] => destruct b
  end; unfold bind, ret, modifyM; rewrite ?E1, ?E2, ?E3;
    repeat match goal with
    | |- context [if ?b then _ else _] => destruct b
    end; eauto.
Qed.

Lemma sensorCalcHwRate_total m s x extra removed :
  mSensors m !! s = Some x -> registered x ->
  exists v, sensorCalcHwRate m s extra removed = Some v.
Proof.
  intros Hx (_ & _ & info & Hsi & Hterm).
  unfold sensorCalcHwRate, sensorCalcHwRateResult. rewrite Hx, Hsi.
  repeat match goal with
  | |- context [if ?b then _ else _] => destruct b
  end; eauto.
  rewrite scanSupportedRates_first by done. eauto.
Qed.

Lemma sensorCalcHwLatency_total m s x :
  mSensors m !! s = Some x -> exists v, sensorCalcHwLatency m s = Some v.
Proof. intros Hx. unfold sensorCalcHwLatency. rewrite Hx. eauto. Qed.

Lemma sensorReconfigFresh_total s x o m :
  mSensors m !! s = Some x -> registered x ->
  exists m' tr, sensorReconfigFresh s o m = Some (tt, m', tr) /\ sameRegistry m m'.
Proof.
  intros Hx Hreg.
  destruct (sensorCalcHwRate_total m s x 0 0 Hx Hreg) as (r & Hr).
  destruct (sensorCalcHwLatency_total m s x Hx) as (l & Hl).
  destruct Hreg as (_ & Hc & _).
  destruct (sensorReconfig_total s x r l o m Hx Hc) as (m' & tr & E).
  exists m', tr. unfold sensorReconfigFresh.
  rewrite bind_getM, bind_liftO, Hr, bind_liftO, Hl. split; [done|].
  eapply reconfigStores_sameRegistry, sensorReconfig_stores, E.
Qed.

(** *** The request table *)

Lemma firstFree_Some {T} (slab : Slab T) i : firstFree slab = Some i -> slab !! i = Some None.
Proof.
  revert i. induction slab as [|[x|] slab IH]; intros i; cbn [firstFree]; [done| |].
  - destruct (firstFree slab) as [j|]; [|done]. intros [= <-]. by apply IH.
  - by intros [= <-].
Qed.

Lemma firstFree_None {T} (slab : Slab T) i : firstFree slab = None -> slab !! i <> Some None.
Proof.
  revert i. induction slab as [|[x|] slab IH]; intros i; cbn [firstFree]; [done| |done].
  destruct (firstFree slab) as [j|]; [done|]. intros _.
  destruct i as [|i]; [done|]. by apply IH.
Qed.

Lemma find_seq_Some (p : nat -> bool) a n i :
  List.find p (seq a n) = Some i <->
  (a <= i < a + n)%nat /\ p i = true /\ forall j, (a <= j < i)%nat -> p j = false.
Proof.
  revert a. induction n as [|n IH]; intros a; cbn [seq List.find].
  - split; [done|]. intros [? _]. lia.
  - destruct (p a) eqn:Hp.
    + split.
      * intros [= <-]. repeat split; [lia..|done|]. intros j ?. lia.
      * intros (Hi & Hpi & Hlt). f_equal.
        destruct (decide (a = i)) as [|Hne]; [done|].
        rewrite Hlt in Hp by lia. done.
    + rewrite IH. split.
      * intros (Hi & Hpi & Hlt). repeat split; [lia..|done|].
        intros j Hj. destruct (decide (j = a)) as [->|]; [done|]. apply Hlt. lia.
      * intros (Hi & Hpi & Hlt).
        assert (a <> i) by (intros ->; congruence).
        repeat split; [lia..|done|]. intros j Hj. apply Hlt. lia.
Qed.

Lemma find_seq_None (p : nat -> bool) a n :
  List.find p (seq a n) = None <-> forall j, (a <= j < a + n)%nat -> p j = false.
Proof.
  split.
  - intros Hn j Hj. apply (find_none _ _ Hn). apply in_seq. lia.
  - intros Hall. destruct (List.find p (seq a n)) as [i|] eqn:Hf; [|done].
    apply find_seq_Some in Hf as (Hi & Hp & _). rewrite Hall in Hp by lia. done.
Qed.

Lemma slabAllocatorGetNth_store {T} (slab : Slab T) i j x :
  (i < length slab)%nat ->
  slabAllocatorGetNth (slabStore slab i x) j =
  if decide (i = j) then Some x else slabAllocatorGetNth slab j.
Proof.
  intros Hi. unfold slabAllocatorGetNth, slabStore.
  destruct (decide (i = j)) as [->|Hne].
  - by rewrite list_lookup_insert_eq.
  - by rewrite list_lookup_insert_ne.
Qed.

Lemma slabAllocatorGetNth_free {T} (slab : Slab T) i j :
  slabAllocatorGetNth (slabAllocatorFree slab i) j =
  if decide (i = j) then None else slabAllocatorGetNth slab j.
Proof.
  unfold slabAllocatorGetNth, slabAllocatorFree.
  destruct (decide (i = j)) as [->|Hne].
  - destruct (decide (j < length slab)%nat).
    + by rewrite list_lookup_insert_eq.
    + rewrite list_insert_ge by lia. by rewrite lookup_ge_None_2 by lia.
  - by rewrite list_lookup_insert_ne.
Qed.

Lemma findRequestor_Some cli h c i :
  findRequestor cli h c = Some i ->
  (i < MAX_CLI_SENS_MATRIX_SZ)%nat
  /\ exists q, slabAllocatorGetNth cli i = Some q /\ req_handle q = h /\ clientId q = c.
Proof.
  intros E. apply find_seq_Some in E as (Hi & Hp & _). split; [lia|].
  unfold isRequestor in Hp. destruct (slabAllocatorGetNth cli i) as [q|]; [|done].
  apply andb_true_iff in Hp as [?%N.eqb_eq ?%N.eqb_eq]. eauto.
Qed.

(** What [sensorDeleteRequestor] and [sensorAmendRequestor] do to the table
    when the client holds a request. *)
Lemma sensorDeleteRequestor_run h c o m i :
  findRequestor (mCliSensMatrix m) h c = Some i ->
  sensorDeleteRequestor h c o m =
  Some (true, set_mCliSensMatrix (slabAllocatorFree (mCliSensMatrix m) i) m, []).
Proof.
  intros E. unfold sensorDeleteRequestor. rewrite bind_getM, E.
  apply findRequestor_Some in E as (_ & q & -> & _).
  rewrite !bind_modifyM. unfold ret, slabAllocatorFree, slabStore, set_mCliSensMatrix.
  cbn [mCliSensMatrix mSensors mSensorsUsed mInternalEvents mNextSensorHandle].
  by rewrite list_insert_insert_eq.
Qed.

Lemma sensorAmendRequestor_run h c r l o m i :
  findRequestor (mCliSensMatrix m) h c = Some i ->
  sensorAmendRequestor h c r l o m =
  Some (true, set_mCliSensMatrix (slabStore (mCliSensMatrix m) i (mkReq h c l r)) m, []).
Proof.
  intros E. unfold sensorAmendRequestor. rewrite bind_getM, E.
  apply findRequestor_Some in E as (_ & q & -> & <- & <-).
  by rewrite bind_modifyM.
Qed.

Lemma sensorAddRequestor_run h c r l o m i :
  firstFree (mCliSensMatrix m) = Some i ->
  sensorAddRequestor h c r l o m =
  Some (true, set_mCliSensMatrix (slabStore (mCliSensMatrix m) i (mkReq h c l r)) m, []).
Proof.
  intros E. unfold sensorAddRequestor, slabAllocatorAlloc. by rewrite bind_getM, E, bind_modifyM.
Qed.

(** *** The client calls, step by step *)

Lemma sensorRequest_run c h r l o m s nr :
  sensorFindByHandle m h = Some s ->
  sensorCalcHwRate m s r 0 = Some nr ->
  sensorRequest c h r l o m =
  if nr =? SENSOR_RATE_IMPOSSIBLE then Some (false, m, [])
  else
    match firstFree (mCliSensMatrix m) with
    | None => Some (false, m, [])
    | Some i =>
        let ma := set_mCliSensMatrix (slabStore (mCliSensMatrix m) i (mkReq h c l r)) m in
        match sensorCalcHwLatency ma s with
        | None => None
        | Some lat =>
            match sensorReconfig s nr lat o ma with
            | Some (_, m1, tr) => Some (true, m1, tr)
            | None => None
            end
        end
    end.
Proof.
  intros Hs Hr. unfold sensorRequest. rewrite bind_getM, Hs, bind_liftO, Hr.
  destruct (nr =? SENSOR_RATE_IMPOSSIBLE); [reflexivity|].
  destruct (firstFree (mCliSensMatrix m)) as [i|] eqn:Hi.
  - unfold bind at 1. rewrite (sensorAddRequestor_run _ _ _ _ _ _ _ Hi). cbn [negb].
    rewrite bind_getM, bind_liftO. cbn zeta.
    destruct (sensorCalcHwLatency _ s) as [lat|]; [|reflexivity].
    unfold bind, ret. destruct (sensorReconfig _ _ _ _ _) as [[[u m1] tr]|]; [|reflexivity].
    by rewrite app_nil_r.
  - unfold sensorAddRequestor, slabAllocatorAlloc. rewrite bind_assoc, bind_getM, Hi.
    by rewrite bind_ret.
Qed.

Lemma sensorRelease_run c h o m s i :
  sensorFindByHandle m h = Some s ->
  findRequestor (mCliSensMatrix m) h c = Some i ->
  sensorRelease c h o m =
  match sensorReconfigFresh s o (set_mCliSensMatrix (slabAllocatorFree (mCliSensMatrix m) i) m) with
  | Some (_, m2, tr) => Some (true, m2, tr)
  | None => None
  end.
Proof.
  intros Hs Hi. unfold sensorRelease. rewrite bind_getM, Hs.
  unfold bind at 1. rewrite (sensorDeleteRequestor_run _ _ _ _ _ Hi). cbn [negb].
  unfold bind, ret. destruct (sensorReconfigFresh _ _ _) as [[[u m2] tr]|]; [|reflexivity].
  by rewrite app_nil_r.
Qed.

Lemma sensorRequest_true c h r l o m m1 tr s :
  sensorFindByHandle m h = Some s ->
  sensorRequest c h r l o m = Some (true, m1, tr) ->
  exists i,
    firstFree (mCliSensMatrix m) = Some i
    /\ sameRegistry (set_mCliSensMatrix (slabStore (mCliSensMatrix m) i (mkReq h c l r)) m) m1.
Proof.
  intros Hs E.
  destruct (sensorCalcHwRate m s r 0) as [nr|] eqn:Hr.
  - rewrite (sensorRequest_run _ _ _ _ _ _ _ _ Hs Hr) in E.
    destruct (nr =? SENSOR_RATE_IMPOSSIBLE); [discriminate|].
    destruct (firstFree (mCliSensMatrix m)) as [i|]; [|discriminate].
    exists i. split; [done|]. cbn zeta in E.
    destruct (sensorCalcHwLatency _ s) as [lat|]; [|discriminate].
    destruct (sensorReconfig _ _ _ _ _) as [[[u m1'] tr']|] eqn:Hrc; [|discriminate].
    injection E as <- <-. eapply reconfigStores_sameRegistry, sensorReconfig_stores, Hrc.
  - unfold sensorRequest in E. by rewrite bind_getM, Hs, bind_liftO, Hr in E.
Qed.

Lemma findRequestor_added cli h c l r i :
  length cli = MAX_CLI_SENS_MATRIX_SZ ->
  firstFree cli = Some i ->
  findRequestor cli h c = None ->
  findRequestor (slabStore cli i (mkReq h c l r)) h c = Some i.
Proof.
  intros Hlen Hi Hnone. apply firstFree_Some in Hi.
  assert (i < length cli)%nat as Hlt by (by eapply lookup_lt_Some).
  apply find_seq_Some. repeat split; [lia|lia| |].
  - unfold isRequestor. rewrite slabAllocatorGetNth_store, decide_True by done.
    cbn. by rewrite !N.eqb_refl.
  - intros j Hj. unfold isRequestor.
    rewrite slabAllocatorGetNth_store, decide_False by lia.
    apply (proj1 (find_seq_None _ _ _) Hnone). lia.
Qed.

(** C7.  For a live sensor and a client that holds no request for it, a
    successful [sensorRequest] records the request, and the [sensorRelease]
    that follows succeeds and gives back the request table as it was before
    the two calls: the client has no live request for the sensor and every
    cell, so every request of the other clients, is as before. *)
Theorem request_release_restores client sensorHandle rate latency o1 o2 m s x m1 tr1 :
  tableSized m ->
  sensorFindByHandle m sensorHandle = Some s ->
  mSensors m !! s = Some x ->
  registered x ->
  findRequestor (mCliSensMatrix m) sensorHandle client = None ->
  sensorRequest client sensorHandle rate latency o1 m = Some (true, m1, tr1) ->
  sensorGetCurRequestorRate m1 sensorHandle client = Some (rate, latency)
  /\ exists m2 tr2,
      sensorRelease client sensorHandle o2 m1 = Some (true, m2, tr2)
      /\ mCliSensMatrix m2 = mCliSensMatrix m
      /\ findRequestor (mCliSensMatrix m2) sensorHandle client = None
      /\ forall i, slabAllocatorGetNth (mCliSensMatrix m2) i = slabAllocatorGetNth (mCliSensMatrix m) i.
Proof.
  intros Hlen Hs Hx Hreg Hnone Hrq.
  destruct (sensorRequest_true _ _ _ _ _ _ _ _ _ Hs Hrq) as (i & Hi & R).
  set (ma := set_mCliSensMatrix _ m) in R.
  assert (Hcli1 : mCliSensMatrix m1 = slabStore (mCliSensMatrix m) i (mkReq sensorHandle client latency rate))
    by (by destruct R as [-> _]).
  assert (Hfind : findRequestor (mCliSensMatrix m1) sensorHandle client = Some i)
    by (rewrite Hcli1; by apply findRequestor_added).
  assert (Hlt : (i < length (mCliSensMatrix m))%nat)
    by (eapply lookup_lt_Some, firstFree_Some, Hi).
  split.
  { unfold sensorGetCurRequestorRate. rewrite Hfind, Hcli1.
    by rewrite slabAllocatorGetNth_store, decide_True by done. }
  assert (Hs1 : sensorFindByHandle m1 sensorHandle = Some s)
    by (by rewrite (sameRegistry_find _ _ _ R)).
  rewrite (sensorRelease_run _ _ _ _ _ _ Hs1 Hfind).
  set (md := set_mCliSensMatrix _ m1).
  destruct (sameRegistry_lookup ma m1 s x R Hx) as (x1 & Hx1 & Hid).
  destruct (sensorReconfigFresh_total s x1 o2 md Hx1 (registered_identity _ _ Hid Hreg))
    as (m2 & tr2 & -> & [Hcli2 _]).
  exists m2, tr2.
  assert (Hback : mCliSensMatrix m2 = mCliSensMatrix m).
  { rewrite Hcli2. subst md. cbn [mCliSensMatrix set_mCliSensMatrix].
    rewrite Hcli1. unfold slabAllocatorFree, slabStore.
    rewrite list_insert_insert_eq. apply list_insert_id. by apply firstFree_Some. }
  by rewrite Hback.
Qed.

(** *** The aggregation does not depend on where the requests sit *)

Lemma omap_ext_in {A B} (f g : A -> option B) (l : list A) :
  (forall a, a ∈ l -> f a = g a) -> omap f l = omap g l.
Proof.
  induction l as [|a l IH]; intros E; [reflexivity|]. cbn [omap list_omap].
  rewrite (E a) by left. rewrite IH; [reflexivity|]. intros b Hb. apply E. by right.
Qed.

Lemma requestAt_free cli h i j :
  i <> j -> requestAt (slabAllocatorFree cli i) h j = requestAt cli h j.
Proof.
  intros Hne. unfold requestAt. by rewrite slabAllocatorGetNth_free, decide_False.
Qed.

(** Freeing the cell of a live request of the sensor takes that request,
    and nothing else, out of its live requests. *)
Lemma liveRequests_free cli h i q :
  (i < MAX_CLI_SENS_MATRIX_SZ)%nat ->
  slabAllocatorGetNth cli i = Some q -> req_handle q = h ->
  liveRequests cli h ≡ₚ q :: liveRequests (slabAllocatorFree cli i) h.
Proof.
  intros Hi Hq Hh. unfold liveRequests.
  replace MAX_CLI_SENS_MATRIX_SZ with (i + S (MAX_CLI_SENS_MATRIX_SZ - S i))%nat by lia.
  rewrite seq_app, !omap_app. cbn [seq omap list_omap]. rewrite Nat.add_0_l.
  assert (requestAt cli h i = Some q) as ->.
  { unfold requestAt. rewrite Hq, Hh. by rewrite N.eqb_refl. }
  assert (requestAt (slabAllocatorFree cli i) h i = None) as ->.
  { unfold requestAt. by rewrite slabAllocatorGetNth_free, decide_True. }
  rewrite (omap_ext_in (requestAt (slabAllocatorFree cli i) h) (requestAt cli h) (seq 0 i)).
  2:{ intros j Hj. apply list_elem_of_In, in_seq in Hj. apply requestAt_free. lia. }
  rewrite (omap_ext_in (requestAt (slabAllocatorFree cli i) h) (requestAt cli h) (seq (S i) _)).
  2:{ intros j Hj. apply list_elem_of_In, in_seq in Hj. apply requestAt_free. lia. }
  by rewrite Permutation_middle.
Qed.

(** Storing a request of the sensor in a cell of the pool puts it among its
    live requests, in place of what the cell held. *)
Lemma liveRequests_store cli h i q :
  (i < MAX_CLI_SENS_MATRIX_SZ)%nat -> (i < length cli)%nat -> req_handle q = h ->
  liveRequests (slabStore cli i q) h ≡ₚ q :: liveRequests (slabAllocatorFree cli i) h.
Proof.
  intros Hi Hlen Hh.
  rewrite (liveRequests_free (slabStore cli i q) h i q Hi); [|by rewrite slabAllocatorGetNth_store, decide_True|done].
  unfold slabAllocatorFree, slabStore. by rewrite list_insert_insert_eq.
Qed.

Lemma slabAllocatorFree_free {T} (slab : Slab T) i :
  slab !! i = Some None -> slabAllocatorFree slab i = slab.
Proof. apply list_insert_id. Qed.

Lemma largest_perm l l' : l ≡ₚ l' -> largest l = largest l'.
Proof.
  induction 1 as [|c l l' _ IH|c d l|l1 l2 l3 _ IH1 _ IH2]; cbn [largest fold_right];
    [reflexivity| | |congruence].
  - fold (largest l) (largest l'). by rewrite IH.
  - lia.
Qed.

Lemma fold_min_perm l l' a : l ≡ₚ l' -> fold_left N.min l a = fold_left N.min l' a.
Proof.
  intros P. revert a. induction P as [|c l l' _ IH|c d l|l1 l2 l3 _ IH1 _ IH2]; intros a;
    cbn [fold_left]; [reflexivity|apply IH| |by rewrite IH1].
  f_equal. lia.
Qed.

Lemma RateScan_eq a b :
  haveUsers a = haveUsers b -> haveOnChange a = haveOnChange b -> highestReq a = highestReq b ->
  a = b.
Proof. destruct a, b; cbn; congruence. Qed.

Lemma countRequest_perm cs cs' a :
  SENSOR_RATE_ONDEMAND <> SENSOR_RATE_ONCHANGE ->
  cs ≡ₚ cs' -> fold_left countRequest cs a = fold_left countRequest cs' a.
Proof.
  intros Hne P. apply RateScan_eq.
  - rewrite !countRequest_haveUsers. do 2 f_equal. apply bool_decide_ext.
    split; intros ->; [|symmetry in P]; by apply Permutation_nil in P.
  - rewrite !countRequest_haveOnChange by done. f_equal. apply bool_decide_ext. by rewrite P.
  - rewrite !countRequest_highestReq. f_equal. apply largest_perm. by rewrite P.
Qed.

Lemma sensorCalcHwLatencyStep_latencies cli h idxs a :
  fold_left (sensorCalcHwLatencyStep cli h) idxs a =
  fold_left N.min (latency <$> omap (requestAt cli h) idxs) a.
Proof.
  revert a. induction idxs as [|i idxs IH]; intros a; [reflexivity|].
  cbn [fold_left]. rewrite IH. cbn [omap list_omap].
  unfold sensorCalcHwLatencyStep, requestAt at 2.
  destruct (slabAllocatorGetNth cli i) as [req|]; [|reflexivity].
  destruct (req_handle req =? h); [|reflexivity]. cbn [negb fmap list_fmap fold_left].
  f_equal. destruct (N.ltb_spec (latency req) a); lia.
Qed.

(** The two aggregator outputs of a sensor, from its live requests. *)
Lemma sensorCalcHwLatency_live m s x :
  mSensors m !! s = Some x ->
  sensorCalcHwLatency m s =
  Some (fold_left N.min (latency <$> liveRequests (mCliSensMatrix m) (handle x)) SENSOR_LATENCY_INVALID).
Proof.
  intros Hx. unfold sensorCalcHwLatency. rewrite Hx. f_equal.
  apply sensorCalcHwLatencyStep_latencies.
Qed.

Lemma sensorCalcHwRate_live m s x extra removed :
  mSensors m !! s = Some x ->
  sensorCalcHwRate m s extra removed =
  sensorCalcHwRateResult (si x)
    (fold_left countRequest (countedRates removed (liveRates (mCliSensMatrix m) (handle x)))
               (sensorCalcHwRateInit extra)).
Proof.
  intros Hx. unfold sensorCalcHwRate. rewrite Hx. by rewrite sensorCalcHwRateScan_counted.
Qed.

Lemma filter_concrete_on (cs : list N) :
  filter (fun c => isConcrete c = true) (filter (fun c => c <> SENSOR_RATE_OFF) cs) =
  filter (fun c => isConcrete c = true) cs.
Proof.
  induction cs as [|c cs IH]; [reflexivity|]. rewrite !(filter_cons _ c).
  destruct (decide (c <> SENSOR_RATE_OFF)) as [Hc|Hc].
  - rewrite filter_cons. by rewrite IH.
  - rewrite IH. rewrite decide_False; [done|].
    unfold isConcrete. destruct (N.eqb_spec c 0); [done|]. by destruct Hc.
Qed.

Lemma filter_on_idemp (cs : list N) :
  filter (fun c => c <> SENSOR_RATE_OFF) (filter (fun c => c <> SENSOR_RATE_OFF) cs) =
  filter (fun c => c <> SENSOR_RATE_OFF) cs.
Proof.
  induction cs as [|c cs IH]; [reflexivity|]. rewrite !(filter_cons _ c).
  destruct (decide (c <> SENSOR_RATE_OFF)) as [Hc|Hc]; [|done].
  by rewrite filter_cons, decide_True, IH.
Qed.

(** The counted rates, with the removed one put back, are the rates that
    are not OFF. *)
Lemma countedRates_putBack removed rates :
  removed ∈ rates ->
  filter (fun c => c <> SENSOR_RATE_OFF) (removed :: countedRates removed rates)
  ≡ₚ filter (fun c => c <> SENSOR_RATE_OFF) rates.
Proof.
  induction rates as [|c rates IH]; intros Hin; [by apply elem_of_nil in Hin|].
  cbn [countedRates]. destruct (N.eqb_spec c removed) as [->|Hne].
  - rewrite countedRates_off, !(filter_cons _ removed), filter_on_idemp. done.
  - apply elem_of_cons in Hin as [->|Hin]; [done|].
    rewrite (Permutation_swap c removed), (filter_cons _ c), (filter_cons _ c).
    destruct (decide (c <> SENSOR_RATE_OFF)); by rewrite IH.
Qed.

Lemma countedRates_released rates released oldRate :
  rates ≡ₚ oldRate :: released ->
  filter (fun c => c <> SENSOR_RATE_OFF) (countedRates oldRate rates)
  ≡ₚ filter (fun c => c <> SENSOR_RATE_OFF) released.
Proof.
  intros P.
  assert (Hin : oldRate ∈ rates) by (rewrite P; left).
  pose proof (countedRates_putBack oldRate rates Hin) as Q.
  rewrite P in Q at 2. rewrite !(filter_cons _ oldRate) in Q.
  destruct (decide (oldRate <> SENSOR_RATE_OFF)); [by apply (inj (cons oldRate)) in Q | done].
Qed.

(** The precheck of a rate change against the precheck of the request that
    follows a release: the same highest request and the same ON-CHANGE
    flag. *)
Lemma precheck_released rates released oldRate a :
  SENSOR_RATE_ONDEMAND <> SENSOR_RATE_ONCHANGE -> SENSOR_RATE_ONCHANGE <> SENSOR_RATE_OFF ->
  rates ≡ₚ oldRate :: released ->
  highestReq (fold_left countRequest (countedRates oldRate rates) a) =
    highestReq (fold_left countRequest (countedRates SENSOR_RATE_OFF released) a)
  /\ haveOnChange (fold_left countRequest (countedRates oldRate rates) a) =
    haveOnChange (fold_left countRequest (countedRates SENSOR_RATE_OFF released) a).
Proof.
  intros Hne H0 P. apply countedRates_released in P. rewrite countedRates_off. split.
  - rewrite !countRequest_highestReq. f_equal.
    rewrite <- (filter_concrete_on (countedRates _ _)), <- (filter_concrete_on (filter _ _)).
    rewrite filter_on_idemp. apply largest_perm. by rewrite P.
  - rewrite !countRequest_haveOnChange by done. f_equal. apply bool_decide_ext.
    rewrite <- P. rewrite list_elem_of_filter. tauto.
Qed.

Lemma sensorCalcHwRateResult_impossible info a b v w :
  pseudoRatesDistinct ->
  highestReq a = highestReq b ->
  sensorCalcHwRateResult info a = Some v ->
  sensorCalcHwRateResult info b = Some w ->
  (v =? SENSOR_RATE_IMPOSSIBLE) = (w =? SENSOR_RATE_IMPOSSIBLE).
Proof.
  intros (_ & _ & _ & H1 & H2) E. unfold sensorCalcHwRateResult. rewrite E.
  destruct (highestReq b =? 0).
  - intros Hv Hw.
    assert (forall u c, (if negb (haveUsers c) then Some SENSOR_RATE_OFF
              else if haveOnChange c then Some SENSOR_RATE_ONCHANGE
              else Some SENSOR_RATE_ONDEMAND) = Some u ->
            (u =? SENSOR_RATE_IMPOSSIBLE) = false) as Hno.
    { intros u c Hu. apply N.eqb_neq.
      destruct (haveUsers c), (haveOnChange c); injection Hu as <-; done. }
    by rewrite (Hno _ _ Hv), (Hno _ _ Hw).
  - intros Hv Hw. congruence.
Qed.

Lemma sensorRequestRateChange_run c h r l o m s i q nr :
  sensorFindByHandle m h = Some s ->
  findRequestor (mCliSensMatrix m) h c = Some i ->
  slabAllocatorGetNth (mCliSensMatrix m) i = Some q ->
  sensorCalcHwRate m s r (rate q) = Some nr ->
  sensorRequestRateChange c h r l o m =
  if nr =? SENSOR_RATE_IMPOSSIBLE then Some (false, m, [])
  else
    let ma := set_mCliSensMatrix (slabStore (mCliSensMatrix m) i (mkReq h c l r)) m in
    match sensorCalcHwLatency ma s with
    | None => None
    | Some lat =>
        match sensorReconfig s nr lat o ma with
        | Some (_, m1, tr) => Some (true, m1, tr)
        | None => None
        end
    end.
Proof.
  intros Hs Hi Hq Hr. unfold sensorRequestRateChange, sensorGetCurRequestorRate.
  rewrite bind_getM, Hs, Hi, Hq, bind_liftO, Hr.
  destruct (nr =? SENSOR_RATE_IMPOSSIBLE); [reflexivity|].
  unfold bind at 1. rewrite (sensorAmendRequestor_run _ _ _ _ _ _ _ Hi). cbn [negb].
  rewrite bind_getM, bind_liftO. cbn zeta.
  destruct (sensorCalcHwLatency _ s) as [lat|]; [|reflexivity].
  unfold bind, ret. destruct (sensorReconfig _ _ _ _ _) as [[[u m1] tr]|]; [|reflexivity].
  by rewrite app_nil_r.
Qed.

Lemma firstFree_is_Some {T} (slab : Slab T) i :
  slab !! i = Some None -> exists j, firstFree slab = Some j.
Proof.
  intros Hi. destruct (firstFree slab) as [j|] eqn:E; [eauto|].
  by apply (firstFree_None slab i) in E.
Qed.

Lemma liveRates_perm cli cli' h :
  liveRequests cli h ≡ₚ liveRequests cli' h ->
  countedRates SENSOR_RATE_OFF (liveRates cli h) ≡ₚ countedRates SENSOR_RATE_OFF (liveRates cli' h).
Proof. intros P. rewrite !countedRates_off. unfold liveRates. by rewrite P. Qed.

(** C8, as the code has it.  [sensorRequestRateChange] returns false, and
    changes nothing, when the client holds no request for the sensor.  When
    it holds one, the rate change succeeds exactly when the request of the
    sequence [sensorRelease; sensorRequest] does (the release itself always
    succeeds); when both succeed the two machines give the same
    [sensorCalcHwRate (S, 0, 0)] and the same [sensorCalcHwLatency (S)]; when
    both fail the rate change has left the machine as it was, while the
    sequence has left it as the release made it. *)
Theorem rateChange_vs_release_request client sensorHandle newRate newLatency o o1 o2 m s x :
  pseudoRatesDistinct ->
  tableSized m ->
  sensorFindByHandle m sensorHandle = Some s ->
  mSensors m !! s = Some x ->
  registered x ->
  (findRequestor (mCliSensMatrix m) sensorHandle client = None ->
   sensorRequestRateChange client sensorHandle newRate newLatency o m = Some (false, m, []))
  /\ (findRequestor (mCliSensMatrix m) sensorHandle client <> None ->
      exists ok mc trc mr trr ms trs,
        sensorRequestRateChange client sensorHandle newRate newLatency o m = Some (ok, mc, trc)
        /\ sensorRelease client sensorHandle o1 m = Some (true, mr, trr)
        /\ sensorRequest client sensorHandle newRate newLatency o2 mr = Some (ok, ms, trs)
        /\ (ok = true ->
            sensorCalcHwRate mc s 0 0 = sensorCalcHwRate ms s 0 0
            /\ sensorCalcHwLatency mc s = sensorCalcHwLatency ms s)
        /\ (ok = false -> mc = m /\ ms = mr)).
Proof.
  intros Hps Hlen Hs Hx Hreg. unfold tableSized in Hlen. split.
  { intros Hnone. unfold sensorRequestRateChange, sensorGetCurRequestorRate.
    by rewrite bind_getM, Hs, Hnone. }
  intros Hsome.
  destruct (findRequestor (mCliSensMatrix m) sensorHandle client) as [i|] eqn:Hi; [clear Hsome|done].
  destruct (findRequestor_Some _ _ _ _ Hi) as (Hi64 & q & Hq & Hqh & Hqc).
  assert (Hh : handle x = sensorHandle).
  { destruct (sensorFindByHandle_Some _ _ _ Hs) as (x0 & Hx0 & ?). congruence. }
  assert (Hilen : (i < length (mCliSensMatrix m))%nat) by (rewrite Hlen; exact Hi64).
  pose proof Hreg as (_ & Hc & _).
  set (new := mkReq sensorHandle client newLatency newRate).
  set (cli := mCliSensMatrix m) in *.
  set (rel := slabAllocatorFree cli i).
  (* the release *)
  set (md := set_mCliSensMatrix rel m).
  destruct (sensorReconfigFresh_total s x o1 md Hx Hreg) as (mr & trr & Hrel & Rr).
  assert (Hrelease : sensorRelease client sensorHandle o1 m = Some (true, mr, trr)).
  { rewrite (sensorRelease_run _ _ _ _ _ _ Hs Hi). fold cli rel md. by rewrite Hrel. }
  assert (Hclir : mCliSensMatrix mr = rel) by (by destruct Rr as [-> _]).
  assert (Hsr : sensorFindByHandle mr sensorHandle = Some s)
    by (by rewrite (sameRegistry_find _ _ _ Rr)).
  destruct (sameRegistry_lookup md mr s x Rr Hx) as (xr & Hxr & Hidr).
  pose proof (registered_identity _ _ Hidr Hreg) as Hregr.
  assert (Hcr : callInfo xr <> TaggedPtrPtr 0) by (by destruct Hregr as (_ & ? & _)).
  (* the two prechecks *)
  destruct (sensorCalcHwRate_total m s x newRate (rate q) Hx Hreg) as (nr & Hnr).
  destruct (sensorCalcHwRate_total mr s xr newRate 0 Hxr Hregr) as (nr' & Hnr').
  assert (Hsame : (nr =? SENSOR_RATE_IMPOSSIBLE) = (nr' =? SENSOR_RATE_IMPOSSIBLE)).
  { rewrite (sameRegistry_calcHwRate _ _ _ _ _ Rr) in Hnr'.
    rewrite (sensorCalcHwRate_live m s x _ _ Hx) in Hnr.
    rewrite (sensorCalcHwRate_live md s x _ _ Hx) in Hnr'.
    cbn [md mCliSensMatrix set_mCliSensMatrix] in Hnr'. fold cli in Hnr. rewrite Hh in Hnr, Hnr'.
    eapply (sensorCalcHwRateResult_impossible _ _ _ _ _ Hps); [|exact Hnr|exact Hnr'].
    destruct Hps as (Hne & _ & H0 & _).
    apply precheck_released; [done..|]. unfold liveRates.
    by rewrite (liveRequests_free cli sensorHandle i q Hi64 Hq Hqh). }
  pose proof (sensorRequestRateChange_run client sensorHandle newRate newLatency o m s i q nr
    Hs Hi Hq Hnr) as HRC.
  pose proof (sensorRequest_run client sensorHandle newRate newLatency o2 mr s nr' Hsr Hnr') as HRQ.
  rewrite <- Hsame in HRQ.
  destruct (nr =? SENSOR_RATE_IMPOSSIBLE).
  { exists false, m, [], mr, trr, mr, []. repeat split; done. }
  (* both go on: amend on one side, add on the other *)
  assert (Hfree : rel !! i = Some None).
  { unfold rel, slabAllocatorFree. by rewrite list_lookup_insert_eq. }
  rewrite Hclir in HRQ. destruct (firstFree_is_Some rel i Hfree) as (j & Hj).
  rewrite Hj in HRQ. cbn zeta in HRC, HRQ. fold cli new in HRC, HRQ.
  set (ma := set_mCliSensMatrix (slabStore cli i new) m) in *.
  set (mb := set_mCliSensMatrix (slabStore rel j new) mr) in *.
  destruct (sensorCalcHwLatency_total ma s x Hx) as (la & Hla).
  destruct (sensorCalcHwLatency_total mb s xr Hxr) as (lb & Hlb).
  destruct (sensorReconfig_total s x nr la o ma Hx Hc) as (mc & trc & Hmc).
  destruct (sensorReconfig_total s xr nr' lb o2 mb Hxr Hcr) as (ms & trs & Hms).
  rewrite Hla, Hmc in HRC. rewrite Hlb, Hms in HRQ.
  exists true, mc, trc, mr, trr, ms, trs.
  split; [done|]. split; [done|]. split; [done|]. split; [|done]. intros _. split.
  - (* the rate *)
    pose proof (reconfigStores_sameRegistry _ _ _ (sensorReconfig_stores _ _ _ _ _ _ _ _ Hmc)) as Rc.
    pose proof (reconfigStores_sameRegistry _ _ _ (sensorReconfig_stores _ _ _ _ _ _ _ _ Hms)) as Rs.
    rewrite (sameRegistry_calcHwRate _ _ _ _ _ Rc), (sameRegistry_calcHwRate _ _ _ _ _ Rs).
    rewrite (sensorCalcHwRate_live ma s x _ _ Hx), (sensorCalcHwRate_live mb s xr _ _ Hxr).
    assert (si xr = si x /\ handle xr = handle x) as [-> ->]
      by (unfold identity in Hidr; by injection Hidr as -> -> _).
    f_equal. destruct Hps as (Hne & _). apply countRequest_perm; [done|].
    apply liveRates_perm. cbn [ma mb mCliSensMatrix set_mCliSensMatrix]. rewrite Hh.
    rewrite (liveRequests_store cli sensorHandle i new) by done.
    rewrite (liveRequests_store rel sensorHandle j new); [| | |done].
    + fold rel. by rewrite (slabAllocatorFree_free rel j) by (by apply firstFree_Some).
    + apply firstFree_Some, lookup_lt_Some in Hj.
      unfold rel, slabAllocatorFree in Hj. rewrite length_insert in Hj. lia.
    + by apply firstFree_Some, lookup_lt_Some in Hj.
  - (* the latency *)
    pose proof (reconfigStores_sameRegistry _ _ _ (sensorReconfig_stores _ _ _ _ _ _ _ _ Hmc)) as Rc.
    pose proof (reconfigStores_sameRegistry _ _ _ (sensorReconfig_stores _ _ _ _ _ _ _ _ Hms)) as Rs.
    rewrite (sameRegistry_calcHwLatency _ _ _ Rc), (sameRegistry_calcHwLatency _ _ _ Rs).
    rewrite (sensorCalcHwLatency_live ma s x Hx), (sensorCalcHwLatency_live mb s xr Hxr).
    assert (handle xr = handle x) as -> by (unfold identity in Hidr; by injection Hidr as _ -> _).
    f_equal. apply fold_min_perm. cbn [ma mb mCliSensMatrix set_mCliSensMatrix]. rewrite Hh.
    rewrite (liveRequests_store cli sensorHandle i new) by done.
    rewrite (liveRequests_store rel sensorHandle j new); [| | |done].
    + fold rel. by rewrite (slabAllocatorFree_free rel j) by (by apply firstFree_Some).
    + apply firstFree_Some, lookup_lt_Some in Hj.
      unfold rel, slabAllocatorFree in Hj. rewrite length_insert in Hj. lia.
    + by apply firstFree_Some, lookup_lt_Some in Hj.
Qed.

(** *** The rates a run can leave in a slot *)

Lemma preserves_ret {A} P (a : A) : preserves P (ret a).
Proof. by intros o m a' m' tr [= _ <- _]. Qed.

Lemma preserves_getM P : preserves P getM.
Proof. by intros o m a' m' tr [= _ <- _]. Qed.

Lemma preserves_liftO {A} P (x : option A) : preserves P (liftO x).
Proof. destruct x; [apply preserves_ret | by intros o m a' m' tr]. Qed.

Lemma preserves_undefined {A} P : preserves P (@undefined A).
Proof. by intros o m a' m' tr. Qed.

Lemma preserves_extcall P c : preserves P (extcall c).
Proof. by intros o m a' m' tr [= _ <- _]. Qed.

Lemma preserves_bind {A B} P (c : M A) (k : A -> M B) :
  preserves P c -> (forall a, preserves P (k a)) -> preserves P (bind c k).
Proof.
  intros Hc Hk o m b m' tr E HP.
  apply bind_Some in E as (a & m1 & t1 & t2 & E1 & E2 & _).
  eapply (Hk a); [exact E2|]. eapply Hc; [exact E1|exact HP].
Qed.

Lemma preserves_modifyM P f : (forall m, P m -> P (f m)) -> preserves P (modifyM f).
Proof. intros Hf o m a' m' tr [= _ <- _]. apply Hf. Qed.

Lemma ratesAllowed_sensors m m' : mSensors m' = mSensors m -> ratesAllowed m -> ratesAllowed m'.
Proof. intros E HP s x. rewrite E. apply HP. Qed.

Lemma ratesAllowed_store s r l m :
  (forall x, mSensors m !! s = Some x -> handle x <> 0 -> allowedRate (si x) r) ->
  ratesAllowed m -> ratesAllowed (storeRateLatency s r l m).
Proof.
  intros Hr HP. unfold storeRateLatency.
  destruct (mSensors m !! s) as [x|] eqn:Hx; [|done].
  intros s' x'. cbn [mSensors set_mSensors].
  destruct (decide (s = s')) as [<-|Hne].
  - rewrite list_lookup_insert_eq by (by eapply lookup_lt_Some).
    intros [= <-]. cbn. by apply Hr.
  - rewrite list_lookup_insert_ne by done. apply HP.
Qed.

Lemma preserves_store_sentinel s r l :
  (forall info, allowedRate info r) ->
  preserves ratesAllowed (modifyM (storeRateLatency s r l)).
Proof. intros Hr. apply preserves_modifyM. intros m. apply ratesAllowed_store. auto. Qed.

Lemma allowed_OFF info : allowedRate info SENSOR_RATE_OFF.
Proof. by left. Qed.
Lemma allowed_POWERING_ON info : allowedRate info SENSOR_RATE_POWERING_ON.
Proof. right. by left. Qed.
Lemma allowed_FW_UPLOADING info : allowedRate info SENSOR_RATE_FW_UPLOADING.
Proof. do 2 right. by left. Qed.
Lemma allowed_POWERING_OFF info : allowedRate info SENSOR_RATE_POWERING_OFF.
Proof. do 3 right. by left. Qed.

Lemma preserves_sensors {A} (c : M A) :
  (forall o m a m' tr, c o m = Some (a, m', tr) -> mSensors m' = mSensors m) ->
  preserves ratesAllowed c.
Proof. intros Hc o m a m' tr E. eapply ratesAllowed_sensors, Hc, E. Qed.

Lemma preserves_modifyM_sensors f :
  (forall m, mSensors (f m) = mSensors m) -> preserves ratesAllowed (modifyM f).
Proof. intros Hf. apply preserves_modifyM. intros m. apply ratesAllowed_sensors, Hf. Qed.

Lemma preserves_callOps P ops c : preserves P (callOps ops c).
Proof. unfold callOps. destruct (ops =? 0); [apply preserves_undefined | apply preserves_extcall]. Qed.

Ltac pres :=
  repeat first
    [ assumption | apply preserves_callOps
    | apply preserves_ret | apply preserves_getM | apply preserves_liftO
    | apply preserves_undefined | apply preserves_extcall
    | apply preserves_bind; [|intros ?]
    | apply preserves_modifyM_sensors; intros ?; reflexivity
    | apply preserves_store_sentinel;
        solve [auto using allowed_OFF, allowed_POWERING_ON, allowed_FW_UPLOADING, allowed_POWERING_OFF]
    | match goal with |- preserves _ (match ?x with _ => _ end) => destruct x end ].

Lemma sensorCallFuncPower_keeps s on : preserves ratesAllowed (sensorCallFuncPower s on).
Proof. unfold sensorCallFuncPower, callOps. pres. Qed.

Lemma sensorCallFuncFwUpld_keeps s : preserves ratesAllowed (sensorCallFuncFwUpld s).
Proof. unfold sensorCallFuncFwUpld, callOps. pres. Qed.

Lemma sensorCallFuncFlush_keeps s : preserves ratesAllowed (sensorCallFuncFlush s).
Proof. unfold sensorCallFuncFlush, callOps. pres. Qed.

Lemma sensorCallFuncTrigger_keeps s : preserves ratesAllowed (sensorCallFuncTrigger s).
Proof. unfold sensorCallFuncTrigger, callOps. pres. Qed.

Lemma sensorCallFuncSetRate_keeps s r l : preserves ratesAllowed (sensorCallFuncSetRate s r l).
Proof.
  unfold sensorCallFuncSetRate, sensorCallFuncSetRateEvtFreeF, callOps. unfold readSensor. pres.
Qed.

Lemma sensorReconfig_keeps s r l : preserves ratesAllowed (sensorReconfig s r l).
Proof.
  pose proof (sensorCallFuncPower_keeps s true). pose proof (sensorCallFuncPower_keeps s false).
  pose proof (sensorCallFuncSetRate_keeps s r l).
  unfold sensorReconfig, readSensor. pres.
Qed.

Lemma sensorReconfigFresh_keeps s : preserves ratesAllowed (sensorReconfigFresh s).
Proof.
  unfold sensorReconfigFresh. pres; try apply sensorReconfig_keeps.
Qed.

Lemma sensorRequest_keeps c h r l : preserves ratesAllowed (sensorRequest c h r l).
Proof.
  unfold sensorRequest, sensorAddRequestor. pres; try apply sensorReconfig_keeps.
Qed.

Lemma sensorRequestRateChange_keeps c h r l :
  preserves ratesAllowed (sensorRequestRateChange c h r l).
Proof.
  unfold sensorRequestRateChange, sensorAmendRequestor. pres; try apply sensorReconfig_keeps.
Qed.

Lemma sensorRelease_keeps c h : preserves ratesAllowed (sensorRelease c h).
Proof.
  unfold sensorRelease, sensorDeleteRequestor. pres; try apply sensorReconfigFresh_keeps.
Qed.

Lemma sensorTriggerOndemand_keeps c h : preserves ratesAllowed (sensorTriggerOndemand c h).
Proof. unfold sensorTriggerOndemand. pres; try apply sensorCallFuncTrigger_keeps. Qed.

Lemma sensorFlush_keeps h : preserves ratesAllowed (sensorFlush h).
Proof. unfold sensorFlush. pres; try apply sensorCallFuncFlush_keeps. Qed.

Lemma sensorSignalInternalEvt_keeps h n v1 v2 :
  preserves ratesAllowed (sensorSignalInternalEvt h n v1 v2).
Proof. unfold sensorSignalInternalEvt, freeInternalEvt. pres. Qed.

Lemma sensorUnregister_keeps h : preserves ratesAllowed (sensorUnregister h).
Proof.
  unfold sensorUnregister, readSensor. pres.
  apply preserves_modifyM. intros m HP s' x'. cbn [mSensors set_mSensors].
  destruct (decide (n = s')) as [<-|Hne].
  - destruct (decide (n < length (mSensors m))%nat).
    + rewrite list_lookup_insert_eq by done. by intros [= <-].
    + rewrite list_insert_ge by lia. apply HP.
  - rewrite list_lookup_insert_ne by done. apply HP.
Qed.

Lemma sensorRegisterEx_keeps info ci : preserves ratesAllowed (sensorRegisterEx info ci).
Proof.
  unfold sensorRegisterEx, readSensor. pres.
  apply preserves_modifyM. intros m HP s' x'. cbn [mSensors set_mSensors].
  destruct (decide (n = s')) as [<-|Hne].
  - destruct (decide (n < length (mSensors m))%nat).
    + rewrite list_lookup_insert_eq by done. intros [= <-] _. apply allowed_OFF.
    + rewrite list_insert_ge by lia. apply HP.
  - rewrite list_lookup_insert_ne by done. apply HP.
Qed.

Lemma powerStateChanged_keeps h v1 : preserves ratesAllowed (powerStateChanged h v1).
Proof.
  pose proof sensorCallFuncPower_keeps. pose proof sensorCallFuncFwUpld_keeps.
  unfold powerStateChanged, readSensor. pres.
Qed.

Lemma rateChanged_keeps h v1 v2 o m u m' tr :
  (forall s x, sensorFindByHandle m h = Some s -> mSensors m !! s = Some x ->
     handle x <> 0 -> allowedRate (si x) v1) ->
  rateChanged h v1 v2 o m = Some (u, m', tr) -> ratesAllowed m -> ratesAllowed m'.
Proof.
  intros Hv. unfold rateChanged. rewrite bind_getM.
  destruct (sensorFindByHandle m h) as [s|] eqn:Hs; [|by intros [= _ <- _]].
  intros [= _ <- _]. apply ratesAllowed_store. intros x. by apply (Hv s).
Qed.

Lemma fwStateChanged_keeps h v1 v2 o m u m' tr :
  (forall s x, sensorFindByHandle m h = Some s -> mSensors m !! s = Some x ->
     handle x <> 0 -> allowedRate (si x) v1) ->
  fwStateChanged h v1 v2 o m = Some (u, m', tr) -> ratesAllowed m -> ratesAllowed m'.
Proof.
  intros Hv. unfold fwStateChanged. rewrite bind_getM.
  destruct (sensorFindByHandle m h) as [s|] eqn:Hs; [|by intros [= _ <- _]].
  rewrite bind_readSensor. destruct (mSensors m !! s) as [x|] eqn:Hx; [|done].
  destruct (v1 =? 0).
  { intros E. eapply (preserves_bind ratesAllowed); [| |exact E].
    - apply preserves_store_sentinel, allowed_POWERING_OFF.
    - intros ?. apply preserves_bind; [apply sensorCallFuncPower_keeps|].
      intros ?. apply preserves_ret. }
  destruct (currentRate x =? SENSOR_RATE_FW_UPLOADING).
  { rewrite bind_modifyM. intros E HP.
    eapply sensorReconfigFresh_keeps; [exact E|].
    apply ratesAllowed_store; [|done]. intros x0 Hx0. by apply (Hv s). }
  destruct (currentRate x =? SENSOR_RATE_POWERING_OFF).
  { intros E. eapply (preserves_bind ratesAllowed); [| |exact E].
    - apply sensorCallFuncPower_keeps.
    - intros ?. apply preserves_ret. }
  by intros [= _ <- _].
Qed.

Lemma readInternalEvt_payload evtP o m e m1 t1 :
  readInternalEvt evtP o m = Some (e, m1, t1) -> m1 = m /\ payloadOf m evtP = Some e.
Proof.
  unfold readInternalEvt, payloadOf. rewrite bind_getM.
  destruct (slabAllocatorGetNth (mInternalEvents m) evtP) as [[h v1 v2|]|]; try done.
  by intros [= <- <- _].
Qed.

Lemma freeInternalEvt_keeps evtP : preserves ratesAllowed (freeInternalEvt evtP).
Proof. unfold freeInternalEvt. pres. Qed.

Lemma internalEventCallbacks_keeps cb evt o m u m' tr :
  reportedRatesAllowed m cb evt ->
  internalEventCallbacks cb evt o m = Some (u, m', tr) -> ratesAllowed m -> ratesAllowed m'.
Proof.
  intros G E HP. destruct cb; cbn [internalEventCallbacks reportedRatesAllowed] in *.
  - apply bind_Some in E as ([[h v1] v2] & m1 & t1 & t2 & E1 & E2 & _).
    apply readInternalEvt_payload in E1 as [-> _].
    apply bind_Some in E2 as (u1 & m2 & t3 & t4 & E2 & E3 & _).
    eapply freeInternalEvt_keeps; [exact E3|].
    eapply powerStateChanged_keeps; [exact E2|exact HP].
  - apply bind_Some in E as ([[h v1] v2] & m1 & t1 & t2 & E1 & E2 & _).
    apply readInternalEvt_payload in E1 as [-> Hp].
    apply bind_Some in E2 as (u1 & m2 & t3 & t4 & E2 & E3 & _).
    eapply freeInternalEvt_keeps; [exact E3|].
    eapply fwStateChanged_keeps; [|exact E2|exact HP].
    intros s x. by apply (G h v1 v2).
  - apply bind_Some in E as ([[h v1] v2] & m1 & t1 & t2 & E1 & E2 & _).
    apply readInternalEvt_payload in E1 as [-> Hp].
    apply bind_Some in E2 as (u1 & m2 & t3 & t4 & E2 & E3 & _).
    eapply freeInternalEvt_keeps; [exact E3|].
    eapply rateChanged_keeps; [|exact E2|exact HP].
    intros s x. by apply (G h v1 v2).
Qed.

Lemma runApi_keeps c : preserves ratesAllowed (runApi c).
Proof.
  destruct c; cbn [runApi]; (apply preserves_bind; [|intros ?; apply preserves_ret]).
  - apply sensorRegisterEx_keeps.
  - apply sensorRegisterEx_keeps.
  - apply sensorUnregister_keeps.
  - apply sensorSignalInternalEvt_keeps.
  - apply sensorRequest_keeps.
  - apply sensorRequestRateChange_keeps.
  - apply sensorRelease_keeps.
  - apply sensorTriggerOndemand_keeps.
  - apply sensorFlush_keeps.
Qed.

Lemma ratesAllowed_init : ratesAllowed sensorsInit.
Proof.
  intros s x Hx Hh. cbn [sensorsInit mSensors] in Hx.
  apply lookup_replicate in Hx as [-> _]. done.
Qed.

(** C3, as the code has it.  In every state reached by calls of the public
    API and deliveries of the internal events, as long as the rates the
    drivers report in their firmware and rate-change completions are allowed
    for the live sensor they are addressed to, the [currentRate] of every
    live sensor is OFF, POWERING-ON, FW-UPLOADING, POWERING-OFF, ON-DEMAND,
    ON-CHANGE or a value of its [supportedRates]. *)
Theorem reachable_ratesAllowed w :
  reachable reportedRatesAllowed w -> ratesAllowed (machine w).
Proof.
  induction 1 as [|w w' _ IH Hstep].
  - apply ratesAllowed_init.
  - destruct Hstep as [w c o m' tr E|w pre cb evt post o m' tr _ G E|w pre evt post o m' tr _ E];
      cbn [settle machine].
    + eapply runApi_keeps; [exact E|exact IH].
    + eapply internalEventCallbacks_keeps; [exact G|exact E|exact IH].
    + unfold sensorCallFuncSetRateEvtFreeF in E. injection E as <- _.
      by eapply ratesAllowed_sensors; [|exact IH].
Qed.

(** *** What leaves the registry alone *)

Lemma keepsRegistry_ret {A} (a : A) : keepsRegistry (ret a).
Proof. by intros o m a' m' tr [= _ <- _]. Qed.

Lemma keepsRegistry_getM : keepsRegistry getM.
Proof. by intros o m a' m' tr [= _ <- _]. Qed.

Lemma keepsRegistry_undefined {A} : keepsRegistry (@undefined A).
Proof. by intros o m a' m' tr. Qed.

Lemma keepsRegistry_liftO {A} (x : option A) : keepsRegistry (liftO x).
Proof. destruct x; [apply keepsRegistry_ret | apply keepsRegistry_undefined]. Qed.

Lemma keepsRegistry_extcall c : keepsRegistry (extcall c).
Proof. by intros o m a' m' tr [= _ <- _]. Qed.

Lemma keepsRegistry_callOps ops c : keepsRegistry (callOps ops c).
Proof.
  unfold callOps. destruct (ops =? 0); [apply keepsRegistry_undefined | apply keepsRegistry_extcall].
Qed.

Lemma keepsRegistry_bind {A B} (c : M A) (k : A -> M B) :
  keepsRegistry c -> (forall a, keepsRegistry (k a)) -> keepsRegistry (bind c k).
Proof.
  intros Hc Hk o m b m' tr E.
  apply bind_Some in E as (a & m1 & t1 & t2 & E1 & E2 & _).
  rewrite (Hk a _ _ _ _ _ E2). exact (Hc _ _ _ _ _ E1).
Qed.

Lemma keepsRegistry_modifyM f :
  (forall m, registryOf (f m) = registryOf m) -> keepsRegistry (modifyM f).
Proof. intros Hf o m a' m' tr [= _ <- _]. apply Hf. Qed.

Lemma registryOf_storeRateLatency s r l m :
  registryOf (storeRateLatency s r l m) = registryOf m.
Proof.
  destruct (storeRateLatency_sameRegistry s r l m) as [E1 E2].
  unfold registryOf. rewrite E1, E2. unfold storeRateLatency.
  by destruct (mSensors m !! s).
Qed.

Lemma registryOf_freeEvent evt m :
  registryOf (set_mInternalEvents (slabAllocatorFree (mInternalEvents m) evt) m) = registryOf m.
Proof.
  unfold registryOf, slabAllocatorFree. cbn [mSensors mSensorsUsed mNextSensorHandle
    mInternalEvents mCliSensMatrix set_mInternalEvents]. by rewrite length_insert.
Qed.

Lemma registryOf_storeEvent evt e m :
  registryOf (set_mInternalEvents (slabStore (mInternalEvents m) evt e) m) = registryOf m.
Proof.
  unfold registryOf, slabStore. cbn [mSensors mSensorsUsed mNextSensorHandle
    mInternalEvents mCliSensMatrix set_mInternalEvents]. by rewrite length_insert.
Qed.

Lemma registryOf_storeRequest i q m :
  registryOf (set_mCliSensMatrix (slabStore (mCliSensMatrix m) i q) m) = registryOf m.
Proof.
  unfold registryOf, slabStore. cbn [mSensors mSensorsUsed mNextSensorHandle
    mInternalEvents mCliSensMatrix set_mCliSensMatrix]. by rewrite length_insert.
Qed.

Lemma registryOf_freeRequest i m :
  registryOf (set_mCliSensMatrix (slabAllocatorFree (mCliSensMatrix m) i) m) = registryOf m.
Proof.
  unfold registryOf, slabAllocatorFree. cbn [mSensors mSensorsUsed mNextSensorHandle
    mInternalEvents mCliSensMatrix set_mCliSensMatrix]. by rewrite length_insert.
Qed.

Ltac keeps :=
  repeat first
    [ assumption
    | match goal with Hk : context [keepsRegistry] |- _ => apply Hk end
    | apply keepsRegistry_callOps
    | apply keepsRegistry_ret | apply keepsRegistry_getM | apply keepsRegistry_liftO
    | apply keepsRegistry_undefined | apply keepsRegistry_extcall
    | apply keepsRegistry_bind; [|intros ?]
    | apply keepsRegistry_modifyM; intros ?;
        first [ apply registryOf_storeRateLatency | apply registryOf_freeEvent
              | apply registryOf_freeRequest ]
    | match goal with |- keepsRegistry (match ?x with _ => _ end) => destruct x end ].

Lemma sensorCallFuncPower_keepsRegistry s on : keepsRegistry (sensorCallFuncPower s on).
Proof. unfold sensorCallFuncPower, readSensor. keeps. Qed.

Lemma sensorCallFuncFwUpld_keepsRegistry s : keepsRegistry (sensorCallFuncFwUpld s).
Proof. unfold sensorCallFuncFwUpld, readSensor. keeps. Qed.

Lemma sensorCallFuncFlush_keepsRegistry s : keepsRegistry (sensorCallFuncFlush s).
Proof. unfold sensorCallFuncFlush, readSensor. keeps. Qed.

Lemma sensorCallFuncTrigger_keepsRegistry s : keepsRegistry (sensorCallFuncTrigger s).
Proof. unfold sensorCallFuncTrigger, readSensor. keeps. Qed.

Lemma sensorCallFuncSetRate_keepsRegistry s r l : keepsRegistry (sensorCallFuncSetRate s r l).
Proof.
  intros o m ok m' tr. unfold sensorCallFuncSetRate, sensorCallFuncSetRateEvtFreeF, callOps.
  rewrite bind_readSensor.
  destruct (mSensors m !! s) as [x|]; [|discriminate].
  destruct (callInfo x) as [ops|tid].
  - destruct (ops =? 0); [discriminate|]. by intros [= _ <- _].
  - rewrite bind_getM.
    destruct (slabAllocatorAlloc (mInternalEvents m)) as [evt|]; [|by intros [= _ <- _]].
    rewrite bind_modifyM, bind_extcall.
    destruct (o _).
    + intros [= _ <- _]. apply registryOf_storeEvent.
    + rewrite bind_modifyM. intros [= _ <- _].
      etrans; [apply registryOf_freeEvent | apply registryOf_storeEvent].
Qed.

Lemma sensorAddRequestor_keepsRegistry h c r l : keepsRegistry (sensorAddRequestor h c r l).
Proof.
  intros o m ok m' tr. unfold sensorAddRequestor. rewrite bind_getM.
  destruct (slabAllocatorAlloc (mCliSensMatrix m)) as [i|]; [|by intros [= _ <- _]].
  rewrite bind_modifyM. intros [= _ <- _]. apply registryOf_storeRequest.
Qed.

Lemma sensorAmendRequestor_keepsRegistry h c r l : keepsRegistry (sensorAmendRequestor h c r l).
Proof.
  intros o m ok m' tr. unfold sensorAmendRequestor. rewrite bind_getM.
  destruct (findRequestor (mCliSensMatrix m) h c) as [i|]; [|by intros [= _ <- _]].
  destruct (slabAllocatorGetNth (mCliSensMatrix m) i) as [q|]; [|by intros [= _ <- _]].
  rewrite bind_modifyM. intros [= _ <- _]. apply registryOf_storeRequest.
Qed.

Lemma sensorDeleteRequestor_keepsRegistry h c : keepsRegistry (sensorDeleteRequestor h c).
Proof.
  intros o m ok m' tr. unfold sensorDeleteRequestor. rewrite bind_getM.
  destruct (findRequestor (mCliSensMatrix m) h c) as [i|]; [|by intros [= _ <- _]].
  destruct (slabAllocatorGetNth (mCliSensMatrix m) i) as [q|]; [|by intros [= _ <- _]].
  rewrite !bind_modifyM. intros [= _ <- _].
  etrans; [apply registryOf_freeRequest | apply registryOf_storeRequest].
Qed.

Lemma sensorSignalInternalEvt_keepsRegistry h n v1 v2 :
  keepsRegistry (sensorSignalInternalEvt h n v1 v2).
Proof.
  intros o m ok m' tr. unfold sensorSignalInternalEvt, freeInternalEvt. rewrite bind_getM.
  destruct (slabAllocatorAlloc (mInternalEvents m)) as [evt|]; [|by intros [= _ <- _]].
  rewrite bind_modifyM, bind_extcall. destruct (o _).
  - intros [= _ <- _]. apply registryOf_storeEvent.
  - rewrite bind_modifyM. intros [= _ <- _].
    etrans; [apply registryOf_freeEvent | apply registryOf_storeEvent].
Qed.

Lemma sensorReconfig_keepsRegistry s r l : keepsRegistry (sensorReconfig s r l).
Proof.
  pose proof (sensorCallFuncPower_keepsRegistry s true).
  pose proof (sensorCallFuncPower_keepsRegistry s false).
  pose proof (sensorCallFuncSetRate_keepsRegistry s r l).
  unfold sensorReconfig, readSensor. keeps.
Qed.

Lemma sensorReconfigFresh_keepsRegistry s : keepsRegistry (sensorReconfigFresh s).
Proof.
  pose proof sensorReconfig_keepsRegistry. unfold sensorReconfigFresh. keeps.
Qed.

Lemma sensorRequest_keepsRegistry c h r l : keepsRegistry (sensorRequest c h r l).
Proof.
  pose proof (sensorAddRequestor_keepsRegistry h c r l).
  pose proof sensorReconfig_keepsRegistry. unfold sensorRequest. keeps.
Qed.

Lemma sensorRequestRateChange_keepsRegistry c h r l :
  keepsRegistry (sensorRequestRateChange c h r l).
Proof.
  pose proof (sensorAmendRequestor_keepsRegistry h c r l).
  pose proof sensorReconfig_keepsRegistry. unfold sensorRequestRateChange. keeps.
Qed.

Lemma sensorRelease_keepsRegistry c h : keepsRegistry (sensorRelease c h).
Proof.
  pose proof (sensorDeleteRequestor_keepsRegistry h c).
  pose proof sensorReconfigFresh_keepsRegistry. unfold sensorRelease. keeps.
Qed.

Lemma sensorTriggerOndemand_keepsRegistry c h : keepsRegistry (sensorTriggerOndemand c h).
Proof. pose proof sensorCallFuncTrigger_keepsRegistry. unfold sensorTriggerOndemand. keeps. Qed.

Lemma sensorFlush_keepsRegistry h : keepsRegistry (sensorFlush h).
Proof. pose proof sensorCallFuncFlush_keepsRegistry. unfold sensorFlush. keeps. Qed.

Lemma internalEventCallbacks_keepsRegistry cb evt : keepsRegistry (internalEventCallbacks cb evt).
Proof.
  pose proof sensorCallFuncPower_keepsRegistry. pose proof sensorCallFuncFwUpld_keepsRegistry.
  pose proof sensorReconfigFresh_keepsRegistry.
  destruct cb; cbn [internalEventCallbacks];
    unfold sensorInternalPowerStateChanged, sensorInternalFwStateChanged,
      sensorInternalRateChanged, readInternalEvt, freeInternalEvt,
      powerStateChanged, fwStateChanged, rateChanged, readSensor; keeps.
Qed.

(** *** The registry *)

Lemma atomicBitsetFindClearAndSet_Some bits idx bits' :
  atomicBitsetFindClearAndSet bits = Some (idx, bits') ->
  bits !! idx = Some false /\ bits' = <[idx := true]> bits
  /\ forall j, (j < idx)%nat -> bits !! j = Some true.
Proof.
  revert idx bits'. induction bits as [|b bits IH]; intros idx bits'; cbn [atomicBitsetFindClearAndSet];
    [discriminate|].
  destruct b.
  - destruct (atomicBitsetFindClearAndSet bits) as [[i rest]|]; [|discriminate].
    intros [= <- <-]. destruct (IH i rest eq_refl) as (E1 & -> & E3).
    repeat split; [done..|]. intros [|j] Hj; [done|]. apply E3. lia.
  - intros [= <- <-]. repeat split; [done..|]. intros j Hj. lia.
Qed.

Lemma atomicBitsetFindClearAndSet_None bits :
  atomicBitsetFindClearAndSet bits = None <-> forall b, b ∈ bits -> b = true.
Proof.
  induction bits as [|b bits IH]; cbn [atomicBitsetFindClearAndSet].
  - split; [|done]. intros _ b Hb. by apply elem_of_nil in Hb.
  - destruct b.
    + destruct (atomicBitsetFindClearAndSet bits) as [[i rest]|].
      * split; [discriminate|]. intros Hall. exfalso.
        destruct IH as [_ IH]. discriminate IH. intros b Hb. apply Hall. by right.
      * split; [|done]. intros _ b Hb. apply elem_of_cons in Hb as [->|Hb]; [done|].
        by apply IH.
    + split; [discriminate|]. intros Hall. discriminate (Hall false). left.
Qed.

Lemma mod32_lt c : c mod 2 ^ 32 < 2 ^ 32.
Proof. change (2 ^ 32) with 4294967296. zify. Z.to_euclidean_division_equations. lia. Qed.

Lemma mod32_small c : c < 2 ^ 32 -> c mod 2 ^ 32 = c.
Proof. change (2 ^ 32) with 4294967296. intros. zify. Z.to_euclidean_division_equations. lia. Qed.

Lemma mod32_step c k : ((c + 1) mod 2 ^ 32 + k) mod 2 ^ 32 = (c + (k + 1)) mod 2 ^ 32.
Proof. change (2 ^ 32) with 4294967296. zify. Z.to_euclidean_division_equations. lia. Qed.

Lemma mod32_inj c k1 k2 :
  k1 < 2 ^ 32 -> k2 < 2 ^ 32 -> (c + k1) mod 2 ^ 32 = (c + k2) mod 2 ^ 32 -> k1 = k2.
Proof.
  change (2 ^ 32) with 4294967296. intros. zify. Z.to_euclidean_division_equations. lia.
Qed.

(** A handle the loop of [sensorRegisterEx] accepts is not zero and is not
    in the table. *)
Lemma grabHandle_Some fuel sensors next h next' :
  grabHandle fuel sensors next = Some (h, next') ->
  h <> 0 /\ (forall x, x ∈ sensors -> handle x <> h) /\ next' < 2 ^ 32.
Proof.
  revert next. induction fuel as [|fuel IH]; intros next; cbn [grabHandle]; [discriminate|].
  destruct (N.eqb_spec next 0) as [E0|E0]; cbn [orb]; [apply IH|].
  destruct (findHandleFrom sensors next O) as [i|] eqn:Hf.
  - rewrite bool_decide_eq_true_2 by eauto. apply IH.
  - rewrite bool_decide_eq_false_2 by (by intros [? ?]).
    intros [= <- <-]. split; [done|]. split; [|apply mod32_lt].
    by apply (findHandleFrom_None sensors next O).
Qed.

(** The handles the loop has refused when it runs out of fuel. *)
Lemma grabHandle_None fuel sensors next :
  next < 2 ^ 32 ->
  grabHandle fuel sensors next = None ->
  forall k, (k < fuel)%nat ->
    (next + N.of_nat k) mod 2 ^ 32 ∈ 0 :: (handle <$> sensors).
Proof.
  revert next. induction fuel as [|fuel IH]; intros next Hlt; cbn [grabHandle]; [intros _ k; lia|].
  intros E k Hk.
  assert (Hbad : next ∈ 0 :: (handle <$> sensors)
                 /\ grabHandle fuel sensors ((next + 1) mod 2 ^ 32) = None).
  { destruct (N.eqb_spec next 0) as [E0|E0]; cbn [orb] in E.
    - split; [rewrite E0; left | done].
    - destruct (findHandleFrom sensors next O) as [i|] eqn:Hf.
      + rewrite bool_decide_eq_true_2 in E by eauto. split; [|done]. right.
        apply findHandleFrom_Some in Hf as (_ & x & Hx & <-).
        apply list_elem_of_fmap. exists x. split; [done|]. by eapply list_elem_of_lookup_2.
      + rewrite bool_decide_eq_false_2 in E by (by intros [? ?]). discriminate. }
  destruct Hbad as [Hnext Hrest]. destruct k as [|k].
  - rewrite N.add_0_r, mod32_small by done. exact Hnext.
  - pose proof (IH _ (mod32_lt _) Hrest k ltac:(lia)) as Hk'.
    rewrite mod32_step in Hk'. by replace (N.of_nat (S k)) with (N.of_nat k + 1) by lia.
Qed.

(** The loop of [sensorRegisterEx] ends: the fuel it is given is enough. *)
Lemma grabHandle_total sensors next :
  next < 2 ^ 32 ->
  N.of_nat (length sensors) + 2 <= 2 ^ 32 ->
  exists h next', grabHandle (S (S (length sensors))) sensors next = Some (h, next').
Proof.
  intros Hlt Hcap.
  destruct (grabHandle (S (S (length sensors))) sensors next) as [[h next']|] eqn:E; [eauto|].
  exfalso. pose proof (grabHandle_None _ _ _ Hlt E) as Hbad.
  set (fuel := S (S (length sensors))) in *.
  set (cands := (fun k => (next + N.of_nat k) mod 2 ^ 32) <$> seq 0 fuel).
  assert (Hnd : List.NoDup cands).
  { apply NoDup_ListNoDup, NoDup_fmap_2_strong; [|apply NoDup_ListNoDup, seq_NoDup].
    intros k1 k2 Hk1%list_elem_of_In%in_seq Hk2%list_elem_of_In%in_seq Heq.
    apply mod32_inj in Heq; lia. }
  assert (Hincl : incl cands (0 :: (handle <$> sensors))).
  { intros v Hv. apply list_elem_of_In. apply list_elem_of_In in Hv.
    apply list_elem_of_fmap in Hv as (k & -> & Hk%list_elem_of_In%in_seq).
    apply Hbad. lia. }
  pose proof (NoDup_incl_length Hnd Hincl) as Hlen.
  unfold cands in Hlen. rewrite length_fmap, length_seq in Hlen.
  cbn [length] in Hlen. rewrite length_fmap in Hlen. lia.
Qed.

Lemma sensorRegisterEx_full info ci o m :
  atomicBitsetFindClearAndSet (mSensorsUsed m) = None ->
  sensorRegisterEx info ci o m = Some (0, m, []).
Proof. intros E. unfold sensorRegisterEx. by rewrite bind_getM, E. Qed.

Lemma sensorRegisterEx_run info ci o m idx bits h next' :
  atomicBitsetFindClearAndSet (mSensorsUsed m) = Some (idx, bits) ->
  grabHandle (S (S (length (mSensors m)))) (mSensors m) (mNextSensorHandle m) = Some (h, next') ->
  (idx < length (mSensors m))%nat ->
  sensorRegisterEx info ci o m =
  Some (h,
        mkMachine (<[idx := mkSensor (Some info) h SENSOR_LATENCY_INVALID SENSOR_RATE_OFF ci]> (mSensors m))
                  bits (mInternalEvents m) (mCliSensMatrix m) next',
        []).
Proof.
  intros Eb Eg Hidx. unfold sensorRegisterEx.
  rewrite bind_getM, Eb, bind_modifyM, bind_liftO. cbn [mSensors set_mSensorsUsed].
  rewrite Eg, bind_modifyM, bind_readSensor.
  cbn [mSensors set_mSensorsUsed set_mNextSensorHandle fst snd].
  destruct (lookup_lt_is_Some_2 (mSensors m) idx Hidx) as [x0 ->].
  rewrite bind_modifyM. reflexivity.
Qed.

Lemma sensorUnregister_run h o m s x :
  sensorFindByHandle m h = Some s -> mSensors m !! s = Some x ->
  sensorUnregister h o m =
  Some (true,
        mkMachine (<[s := set_handle 0 x]> (mSensors m)) (atomicBitsetClearBit (mSensorsUsed m) s)
                  (mInternalEvents m) (mCliSensMatrix m) (mNextSensorHandle m),
        []).
Proof.
  intros Hs Hx. unfold sensorUnregister.
  by rewrite bind_getM, Hs, bind_readSensor, Hx, !bind_modifyM.
Qed.

Lemma sensorUnregister_unknown h o m :
  sensorFindByHandle m h = None -> sensorUnregister h o m = Some (false, m, []).
Proof. intros Hs. unfold sensorUnregister. by rewrite bind_getM, Hs. Qed.

(** With unique handles the lookup of a non-zero handle finds the one slot
    that carries it. *)
Lemma findHandleFrom_first sensors h i j :
  findHandleFrom sensors h i = Some j ->
  forall k y, sensors !! k = Some y -> handle y = h -> (j - i <= k)%nat.
Proof.
  revert i. induction sensors as [|x rest IH]; intros i; cbn [findHandleFrom]; [discriminate|].
  destruct (N.eqb_spec (handle x) h) as [E|E].
  - intros [= <-] k y _ _. lia.
  - intros Hj [|k] y Hy Hh.
    + injection Hy as ->. done.
    + pose proof (findHandleFrom_Some _ _ _ _ Hj) as [Hle _].
      pose proof (IH _ Hj k y Hy Hh). lia.
Qed.

Lemma sensorFindByHandle_slot m h s x :
  mSensors m !! s = Some x -> handle x = h ->
  (forall k y, mSensors m !! k = Some y -> handle y = h -> k = s) ->
  sensorFindByHandle m h = Some s.
Proof.
  intros Hx Hh Huniq. unfold sensorFindByHandle.
  destruct (findHandleFrom (mSensors m) h O) as [j|] eqn:Hf.
  - apply findHandleFrom_Some in Hf as (_ & y & Hy & Hhy). rewrite Nat.sub_0_r in Hy.
    f_equal. by apply (Huniq j y).
  - exfalso. pose proof (proj1 (findHandleFrom_None _ _ _) Hf) as Hall.
    apply (Hall x); [by eapply list_elem_of_lookup_2|done].
Qed.

Lemma wellFormed_registry m m' :
  registryOf m' = registryOf m -> wellFormed m -> wellFormed m'.
Proof.
  unfold registryOf. intros [= Eid Eused Enext Eev Ecli] (L1 & L2 & L3 & L4 & Hn & Hmark & Huniq).
  assert (Hlook : forall i x', mSensors m' !! i = Some x' ->
            exists x, mSensors m !! i = Some x /\ handle x = handle x').
  { intros i x' Hx'.
    assert ((identity <$> mSensors m) !! i = Some (identity x')) as Hi
      by (by rewrite <- Eid, list_lookup_fmap, Hx').
    rewrite list_lookup_fmap in Hi. destruct (mSensors m !! i) as [x|]; [|discriminate].
    apply (inj Some) in Hi. exists x. split; [done|]. unfold identity in Hi. congruence. }
  repeat split.
  - rewrite <- L1. rewrite <- (length_fmap identity (mSensors m')), Eid. apply length_fmap.
  - by rewrite Eused.
  - by rewrite Eev.
  - by rewrite Ecli.
  - by rewrite Enext.
  - intros i x' Hx'. destruct (Hlook i x' Hx') as (x & Hx & <-). rewrite Eused. by apply Hmark.
  - intros i j x' y' Hx' Hy' Heq Hnz.
    destruct (Hlook i x' Hx') as (x & Hx & Ex). destruct (Hlook j y' Hy') as (y & Hy & Ey).
    apply (Huniq i j x y Hx Hy); congruence.
Qed.

Lemma wellFormed_init : wellFormed sensorsInit.
Proof.
  unfold wellFormed, sensorsInit, atomicBitsetInit, slabAllocatorNew.
  cbn [mSensors mSensorsUsed mInternalEvents mCliSensMatrix mNextSensorHandle].
  rewrite !length_replicate. repeat split; try done.
  - intros i x Hx. apply lookup_replicate in Hx as [-> Hi].
    cbn [mSensorsUsed]. by rewrite lookup_replicate_2.
  - intros i j x y Hx Hy _ Hnz. apply lookup_replicate in Hx as [-> _]. done.
Qed.

Lemma wellFormed_register info ci o m h m' tr :
  wellFormed m -> sensorRegisterEx info ci o m = Some (h, m', tr) -> wellFormed m'.
Proof.
  intros WF E. pose proof WF as (L1 & L2 & L3 & L4 & Hn & Hmark & Huniq).
  destruct (atomicBitsetFindClearAndSet (mSensorsUsed m)) as [[idx bits]|] eqn:Eb.
  2:{ rewrite (sensorRegisterEx_full _ _ _ _ Eb) in E. by injection E as _ <- _. }
  pose proof (atomicBitsetFindClearAndSet_Some _ _ _ Eb) as (Hclear & -> & _).
  assert (Hidx : (idx < length (mSensors m))%nat).
  { apply lookup_lt_Some in Hclear. lia. }
  destruct (grabHandle (S (S (length (mSensors m)))) (mSensors m) (mNextSensorHandle m))
    as [[h0 next']|] eqn:Eg.
  2:{ unfold sensorRegisterEx in E.
      rewrite bind_getM, Eb, bind_modifyM, bind_liftO in E.
      cbn [mSensors set_mSensorsUsed mNextSensorHandle] in E. by rewrite Eg in E. }
  rewrite (sensorRegisterEx_run _ _ _ _ _ _ _ _ Eb Eg Hidx) in E. injection E as <- <- _.
  apply grabHandle_Some in Eg as (Hnz & Hfresh & Hnext').
  unfold wellFormed. cbn [mSensors mSensorsUsed mInternalEvents mCliSensMatrix mNextSensorHandle].
  rewrite !length_insert. repeat split; try done.
  - intros i x; cbn [mSensors mSensorsUsed]. destruct (decide (idx = i)) as [<-|Hne].
    + rewrite !list_lookup_insert_eq by lia. intros [= <-]. cbn.
      by destruct (N.eqb_spec h0 0).
    + rewrite !list_lookup_insert_ne by done. apply Hmark.
  - intros i j x y; cbn [mSensors mSensorsUsed].
    destruct (decide (idx = i)) as [<-|Hi]; destruct (decide (idx = j)) as [<-|Hj]; try done.
    + rewrite list_lookup_insert_eq, list_lookup_insert_ne by (done || lia).
      intros [= <-] Hy Heq _. cbn in Heq. exfalso.
      apply (Hfresh y); [by eapply list_elem_of_lookup_2|done].
    + rewrite list_lookup_insert_ne, list_lookup_insert_eq by (done || lia).
      intros Hx [= <-] Heq _. cbn in Heq. exfalso.
      apply (Hfresh x); [by eapply list_elem_of_lookup_2|done].
    + rewrite !list_lookup_insert_ne by done. apply Huniq.
Qed.

Lemma wellFormed_unregister h o m ok m' tr :
  wellFormed m -> sensorUnregister h o m = Some (ok, m', tr) -> wellFormed m'.
Proof.
  intros WF E. pose proof WF as (L1 & L2 & L3 & L4 & Hn & Hmark & Huniq).
  destruct (sensorFindByHandle m h) as [s|] eqn:Hs.
  2:{ rewrite (sensorUnregister_unknown _ _ _ Hs) in E. by injection E as _ <- _. }
  destruct (sensorFindByHandle_Some _ _ _ Hs) as (x & Hx & Hh).
  rewrite (sensorUnregister_run _ _ _ _ _ Hs Hx) in E. injection E as _ <- _.
  assert (Hlt : (s < length (mSensors m))%nat) by (by eapply lookup_lt_Some).
  unfold wellFormed, atomicBitsetClearBit.
  cbn [mSensors mSensorsUsed mInternalEvents mCliSensMatrix mNextSensorHandle].
  rewrite !length_insert. repeat split; try done.
  - intros i y; cbn [mSensors mSensorsUsed]. destruct (decide (s = i)) as [<-|Hne].
    + rewrite !list_lookup_insert_eq by lia. by intros [= <-].
    + rewrite !list_lookup_insert_ne by done. apply Hmark.
  - intros i j y z; cbn [mSensors mSensorsUsed].
    destruct (decide (s = i)) as [<-|Hi].
    { rewrite list_lookup_insert_eq by lia. by intros [= <-] _ _ Hnz. }
    destruct (decide (s = j)) as [<-|Hj].
    { rewrite list_lookup_insert_ne, list_lookup_insert_eq by (done || lia).
      intros _ [= <-] Heq Hnz. cbn in Heq. congruence. }
    rewrite !list_lookup_insert_ne by done. apply Huniq.
Qed.

Lemma runApi_wellFormed c o m m' tr :
  wellFormed m -> runApi c o m = Some (tt, m', tr) -> wellFormed m'.
Proof.
  intros WF E.
  assert (Hk : forall A (f : M A), keepsRegistry f ->
            bind f (fun _ => ret tt) o m = Some (tt, m', tr) -> wellFormed m').
  { intros A f Hf Ef. apply bind_Some in Ef as (a & m1 & t1 & t2 & E1 & [= <- _] & _).
    eapply wellFormed_registry; [exact (Hf _ _ _ _ _ E1)|exact WF]. }
  destruct c; cbn [runApi] in E.
  - apply bind_Some in E as (a & m1 & t1 & t2 & E1 & [= <- _] & _).
    eapply wellFormed_register; [exact WF|exact E1].
  - apply bind_Some in E as (a & m1 & t1 & t2 & E1 & [= <- _] & _).
    eapply wellFormed_register; [exact WF|exact E1].
  - apply bind_Some in E as (a & m1 & t1 & t2 & E1 & [= <- _] & _).
    eapply wellFormed_unregister; [exact WF|exact E1].
  - eapply Hk; [apply sensorSignalInternalEvt_keepsRegistry|exact E].
  - eapply Hk; [apply sensorRequest_keepsRegistry|exact E].
  - eapply Hk; [apply sensorRequestRateChange_keepsRegistry|exact E].
  - eapply Hk; [apply sensorRelease_keepsRegistry|exact E].
  - eapply Hk; [apply sensorTriggerOndemand_keepsRegistry|exact E].
  - eapply Hk; [apply sensorFlush_keepsRegistry|exact E].
Qed.

Lemma step_wellFormed guard w w' :
  step guard w w' -> wellFormed (machine w) -> wellFormed (machine w').
Proof.
  intros [w0 c o m' tr E|w0 pre cb evt post o m' tr _ _ E|w0 pre evt post o m' tr _ E] WF;
    cbn [settle machine].
  - eapply runApi_wellFormed; [exact WF|exact E].
  - eapply wellFormed_registry; [|exact WF].
    exact (internalEventCallbacks_keepsRegistry _ _ _ _ _ _ _ E).
  - unfold sensorCallFuncSetRateEvtFreeF in E. injection E as <- _.
    eapply wellFormed_registry; [apply registryOf_freeEvent|exact WF].
Qed.

(** In every state a run reaches, whatever the drivers report, the slot
    table, the bitset and the two pools have the capacities [sensorsInit]
    gave them, the handle counter is a 32-bit value, a slot is marked used
    exactly when its handle is not zero, and no two slots carry the same
    non-zero handle. *)
Theorem reachable_wellFormed guard w : reachable guard w -> wellFormed (machine w).
Proof.
  induction 1 as [|w w' _ IH Hstep].
  - apply wellFormed_init.
  - eapply step_wellFormed; [exact Hstep|exact IH].
Qed.

(** [sensorRegisterEx] on a well-formed machine whose slot table is smaller
    than the handle space: the handle loop ends and nothing outside is
    called.  It returns 0, having changed nothing, exactly when every slot
    holds a live sensor.  Otherwise the handle returned is not zero and was
    carried by no slot; an empty slot now holds the descriptor and the
    binding with the rate OFF and the latency INVALID; the pools are as
    before; and the lookup by that handle and the two getters find the new
    sensor. *)
Theorem sensorRegisterEx_outcome info ci o m :
  wellFormed m ->
  N.of_nat MAX_REGISTERED_SENSORS + 2 <= 2 ^ 32 ->
  exists h m',
    sensorRegisterEx info ci o m = Some (h, m', [])
    /\ ((h = 0 /\ m' = m /\ forall x, x ∈ mSensors m -> handle x <> 0)
        \/ (h <> 0
            /\ (forall x, x ∈ mSensors m -> handle x <> h)
            /\ exists idx x0,
                mSensors m !! idx = Some x0 /\ handle x0 = 0
                /\ mSensors m' =
                     <[idx := mkSensor (Some info) h SENSOR_LATENCY_INVALID SENSOR_RATE_OFF ci]>
                       (mSensors m)
                /\ mCliSensMatrix m' = mCliSensMatrix m
                /\ mInternalEvents m' = mInternalEvents m
                /\ sensorFindByHandle m' h = Some idx
                /\ sensorGetCurRate m' h = SENSOR_RATE_OFF
                /\ sensorGetCurLatency m' h = SENSOR_LATENCY_INVALID)).
Proof.
  intros (L1 & L2 & L3 & L4 & Hn & Hmark & Huniq) Hcap.
  destruct (atomicBitsetFindClearAndSet (mSensorsUsed m)) as [[idx bits]|] eqn:Eb.
  - pose proof (atomicBitsetFindClearAndSet_Some _ _ _ Eb) as (Hclear & -> & _).
    assert (Hidx : (idx < length (mSensors m))%nat).
    { apply lookup_lt_Some in Hclear. lia. }
    destruct (grabHandle_total (mSensors m) (mNextSensorHandle m) Hn ltac:(by rewrite L1))
      as (h & next' & Eg).
    rewrite (sensorRegisterEx_run _ _ _ _ _ _ _ _ Eb Eg Hidx).
    apply grabHandle_Some in Eg as (Hnz & Hfresh & _).
    eexists _, _. split; [reflexivity|]. right. split; [done|]. split; [done|].
    destruct (lookup_lt_is_Some_2 (mSensors m) idx Hidx) as [x0 Hx0].
    exists idx, x0. split; [done|].
    assert (H0 : handle x0 = 0).
    { pose proof (Hmark idx x0 Hx0) as Hb. rewrite Hclear in Hb. injection Hb as Hb.
      destruct (N.eqb_spec (handle x0) 0); [done|discriminate]. }
    split; [done|]. split; [reflexivity|]. split; [reflexivity|]. split; [reflexivity|].
    set (fresh := mkSensor (Some info) h SENSOR_LATENCY_INVALID SENSOR_RATE_OFF ci).
    set (m' := mkMachine _ _ _ _ _).
    assert (Hnew : mSensors m' !! idx = Some fresh).
    { unfold m'. cbn [mSensors]. by rewrite list_lookup_insert_eq. }
    assert (Hfind : sensorFindByHandle m' h = Some idx).
    { apply (sensorFindByHandle_slot m' h idx fresh Hnew eq_refl).
      intros k y Hy Hh. destruct (decide (idx = k)) as [|Hne]; [done|]. exfalso.
      unfold m' in Hy. cbn [mSensors] in Hy. rewrite list_lookup_insert_ne in Hy by done.
      apply (Hfresh y); [by eapply list_elem_of_lookup_2|done]. }
    split; [done|]. unfold sensorGetCurRate, sensorGetCurLatency. by rewrite Hfind, Hnew.
  - rewrite (sensorRegisterEx_full _ _ _ _ Eb). eexists _, _. split; [reflexivity|].
    left. split; [done|]. split; [done|].
    intros x Hx E0. apply list_elem_of_lookup_1 in Hx as [i Hi].
    pose proof (Hmark i x Hi) as Hb. rewrite E0 in Hb. cbn in Hb.
    pose proof (proj1 (atomicBitsetFindClearAndSet_None _) Eb false) as Hall.
    discriminate Hall. by eapply list_elem_of_lookup_2.
Qed.

(** [sensorUnregister] of a non-zero handle on a well-formed machine: an
    unknown handle gives false and changes nothing; a known one gives true,
    after which the handle resolves no more, the getters answer OFF and
    INVALID for it, its slot is marked free, the other slots are as they
    were, and the request table is untouched, the requests made for the
    sensor included. *)
Theorem sensorUnregister_outcome h o m :
  wellFormed m ->
  h <> 0 ->
  (sensorFindByHandle m h = None -> sensorUnregister h o m = Some (false, m, []))
  /\ (forall s, sensorFindByHandle m h = Some s ->
      exists m',
        sensorUnregister h o m = Some (true, m', [])
        /\ sensorFindByHandle m' h = None
        /\ sensorGetCurRate m' h = SENSOR_RATE_OFF
        /\ sensorGetCurLatency m' h = SENSOR_LATENCY_INVALID
        /\ mSensorsUsed m' !! s = Some false
        /\ mCliSensMatrix m' = mCliSensMatrix m
        /\ forall j, j <> s -> mSensors m' !! j = mSensors m !! j).
Proof.
  intros (L1 & L2 & L3 & L4 & Hn & Hmark & Huniq) Hnz. split.
  { apply sensorUnregister_unknown. }
  intros s Hs. destruct (sensorFindByHandle_Some _ _ _ Hs) as (x & Hx & Hh).
  rewrite (sensorUnregister_run _ _ _ _ _ Hs Hx).
  assert (Hlt : (s < length (mSensors m))%nat) by (by eapply lookup_lt_Some).
  eexists. split; [reflexivity|].
  set (m' := mkMachine _ _ _ _ _).
  assert (Hgone : sensorFindByHandle m' h = None).
  { apply findHandleFrom_None. intros y Hy Hhy.
    apply list_elem_of_lookup_1 in Hy as [j Hj]. unfold m' in Hj. cbn [mSensors] in Hj.
    destruct (decide (s = j)) as [<-|Hne].
    - rewrite list_lookup_insert_eq in Hj by done. injection Hj as <-. cbn in Hhy. congruence.
    - rewrite list_lookup_insert_ne in Hj by done.
      apply Hne. apply (Huniq s j x y Hx Hj); congruence. }
  split; [done|]. unfold sensorGetCurRate, sensorGetCurLatency. rewrite Hgone.
  split; [done|]. split; [done|]. split.
  { unfold m', atomicBitsetClearBit. cbn [mSensorsUsed]. apply list_lookup_insert_eq. lia. }
  split; [reflexivity|].
  intros j Hj. unfold m'. cbn [mSensors]. by apply list_lookup_insert_ne.
Qed.

(** Only registration and unregistration change the registry: every other
    call of the API, every delivery of an internal event and every release
    of a set-rate payload leaves the handle, the descriptor and the binding
    of each slot, the bitset of used slots, the handle counter and the
    capacities of the two pools as they were. *)
Theorem registry_changed_only_by_registration :
  (forall c o m m' tr,
     isRegistration c = false -> runApi c o m = Some (tt, m', tr) ->
     registryOf m' = registryOf m)
  /\ (forall cb evt o m m' tr,
       internalEventCallbacks cb evt o m = Some (tt, m', tr) -> registryOf m' = registryOf m)
  /\ (forall evt o m m' tr,
       sensorCallFuncSetRateEvtFreeF evt o m = Some (tt, m', tr) -> registryOf m' = registryOf m).
Proof.
  split; [|split].
  - intros c o m m' tr Hc E.
    assert (Hk : forall A (f : M A), keepsRegistry f ->
              bind f (fun _ => ret tt) o m = Some (tt, m', tr) ->
              registryOf m' = registryOf m).
    { intros A f Hf Ef. apply bind_Some in Ef as (a & m1 & t1 & t2 & E1 & [= <- _] & _).
      exact (Hf _ _ _ _ _ E1). }
    destruct c; cbn [runApi isRegistration] in E, Hc; try discriminate Hc.
    + eapply Hk; [apply sensorSignalInternalEvt_keepsRegistry|exact E].
    + eapply Hk; [apply sensorRequest_keepsRegistry|exact E].
    + eapply Hk; [apply sensorRequestRateChange_keepsRegistry|exact E].
    + eapply Hk; [apply sensorRelease_keepsRegistry|exact E].
    + eapply Hk; [apply sensorTriggerOndemand_keepsRegistry|exact E].
    + eapply Hk; [apply sensorFlush_keepsRegistry|exact E].
  - intros cb evt o m m' tr E. exact (internalEventCallbacks_keepsRegistry _ _ _ _ _ _ _ E).
  - intros evt o m m' tr E. unfold sensorCallFuncSetRateEvtFreeF in E.
    injection E as <- _. apply registryOf_freeEvent.
Qed.

(** *** More on the aggregation *)

Lemma elem_of_liveRequests cli h q :
  q ∈ liveRequests cli h <->
  exists i, (i < MAX_CLI_SENS_MATRIX_SZ)%nat /\ slabAllocatorGetNth cli i = Some q /\ req_handle q = h.
Proof.
  unfold liveRequests. rewrite list_elem_of_omap. split.
  - intros (i & Hi%list_elem_of_In%in_seq & Hq). exists i. split; [lia|].
    unfold requestAt in Hq. destruct (slabAllocatorGetNth cli i) as [q'|]; [|done].
    destruct (N.eqb_spec (req_handle q') h); [|done]. by injection Hq as <-.
  - intros (i & Hi & Hq & Hh). exists i. split.
    + apply list_elem_of_In, in_seq. lia.
    + unfold requestAt. rewrite Hq, Hh. by rewrite N.eqb_refl.
Qed.

Lemma fold_min_le l a :
  fold_left N.min l a <= a /\ forall x, x ∈ l -> fold_left N.min l a <= x.
Proof.
  revert a. induction l as [|y l IH]; intros a; cbn [fold_left].
  - split; [lia|]. intros x Hx. by apply elem_of_nil in Hx.
  - destruct (IH (N.min a y)) as [H1 H2]. split; [lia|].
    intros x Hx. apply elem_of_cons in Hx as [->|Hx]; [lia|by apply H2].
Qed.

Lemma fold_min_in l a : fold_left N.min l a = a \/ fold_left N.min l a ∈ l.
Proof.
  revert a. induction l as [|y l IH]; intros a; cbn [fold_left]; [by left|].
  destruct (IH (N.min a y)) as [E|Hin].
  - rewrite E. destruct (N.min_spec a y) as [[_ ->]|[_ ->]]; [by left|right; left].
  - right. by right.
Qed.

(** [sensorCalcHwLatency] answers the least latency among the live requests
    of the sensor, and INVALID when it has none: the answer is at most
    INVALID and at most the latency of each of them, and it is INVALID or
    the latency of one of them. *)
Theorem sensorCalcHwLatency_least m s x :
  mSensors m !! s = Some x ->
  exists v,
    sensorCalcHwLatency m s = Some v
    /\ v <= SENSOR_LATENCY_INVALID
    /\ (forall i q, (i < MAX_CLI_SENS_MATRIX_SZ)%nat ->
          slabAllocatorGetNth (mCliSensMatrix m) i = Some q -> req_handle q = handle x ->
          v <= latency q)
    /\ (v = SENSOR_LATENCY_INVALID
        \/ exists i q, (i < MAX_CLI_SENS_MATRIX_SZ)%nat
             /\ slabAllocatorGetNth (mCliSensMatrix m) i = Some q
             /\ req_handle q = handle x /\ latency q = v).
Proof.
  intros Hx. rewrite (sensorCalcHwLatency_live m s x Hx). eexists. split; [reflexivity|].
  set (lats := latency <$> liveRequests (mCliSensMatrix m) (handle x)).
  destruct (fold_min_le lats SENSOR_LATENCY_INVALID) as [H1 H2]. split; [done|]. split.
  - intros i q Hi Hq Hh. apply H2. apply list_elem_of_fmap. exists q. split; [done|].
    apply elem_of_liveRequests. eauto.
  - destruct (fold_min_in lats SENSOR_LATENCY_INVALID) as [E|Hin]; [by left|right].
    apply list_elem_of_fmap in Hin as (q & Hv & Hq).
    apply elem_of_liveRequests in Hq as (i & Hi & Hq & Hh). exists i, q. done.
Qed.

Lemma largest_in l : l <> [] -> largest l ∈ l.
Proof.
  induction l as [|c l IH]; [done|]. intros _. rewrite largest_cons.
  destruct l as [|d l].
  - cbn. rewrite N.max_0_r. left.
  - destruct (N.max_spec c (largest (d :: l))) as [[_ ->]|[_ ->]]; [right; by apply IH|left].
Qed.

Lemma firstSupported_spec rates wanted :
  firstSupported rates wanted = SENSOR_RATE_IMPOSSIBLE
  \/ (firstSupported rates wanted ∈ beforeTerminator rates
      /\ wanted <= firstSupported rates wanted).
Proof.
  unfold firstSupported. destruct (List.find _ _) as [r|] eqn:Hf; [|by left].
  right. apply find_some in Hf as [Hin Hle]. split; [by apply list_elem_of_In|by apply N.leb_le].
Qed.

Lemma beforeTerminator_supported rates r :
  r ∈ beforeTerminator rates -> r ∈ rates /\ r <> 0.
Proof.
  induction rates as [|c rates IH]; cbn [beforeTerminator]; [by intros ?%elem_of_nil|].
  destruct (N.eqb_spec c 0); [by intros ?%elem_of_nil|].
  intros [->|Hin]%elem_of_cons; [split; [left|done]|].
  destruct (IH Hin). split; [by right|done].
Qed.

(** Whatever the request table holds, the answer of [sensorCalcHwRate] for
    a sensor with a terminated rate array is OFF, ON-DEMAND, ON-CHANGE, the
    reject signal IMPOSSIBLE or a non-zero entry of the rate array; and an
    answer other than IMPOSSIBLE is at least every concrete rate that takes
    part in the aggregation. *)
Theorem sensorCalcHwRate_answer m s x info extraRate removedRate :
  mSensors m !! s = Some x ->
  si x = Some info ->
  0 ∈ supportedRates info ->
  pseudoRatesDistinct ->
  exists v,
    sensorCalcHwRate m s extraRate removedRate = Some v
    /\ (v = SENSOR_RATE_OFF \/ v = SENSOR_RATE_ONDEMAND \/ v = SENSOR_RATE_ONCHANGE
        \/ v = SENSOR_RATE_IMPOSSIBLE \/ (v ∈ supportedRates info /\ v <> 0))
    /\ (v <> SENSOR_RATE_IMPOSSIBLE ->
        forall c, c ∈ contributions (mCliSensMatrix m) (handle x) extraRate removedRate ->
                  isConcrete c = true -> c <= v).
Proof.
  intros Hx Hsi Hterm (Hne & _ & H0 & _).
  unfold sensorCalcHwRate, sensorCalcHwRateResult. rewrite Hx, Hsi.
  rewrite (scan_contributions _ _ _ _ H0 Hne).
  set (cs := contributions _ _ _ _).
  rewrite countRequest_highestReq. cbn [noUsers highestReq]. rewrite N.max_0_l.
  set (concrete := filter (fun c => isConcrete c = true) cs).
  destruct (N.eqb_spec (largest concrete) 0) as [E|E].
  - apply largest_concrete_zero in E.
    assert (Hnone : forall c, c ∈ cs -> isConcrete c = true -> False).
    { intros c Hc Hcc. assert (c ∈ concrete) as Hin by (by apply list_elem_of_filter).
      fold cs in E. fold concrete in E. rewrite E in Hin. by apply elem_of_nil in Hin. }
    destruct (haveUsers _); cbn [negb]; [destruct (haveOnChange _)|];
      eexists; (split; [reflexivity|]); (split; [auto 6|]); intros _ c Hc Hcc;
      destruct (Hnone c Hc Hcc).
  - rewrite scanSupportedRates_first by done. eexists. split; [reflexivity|].
    destruct (firstSupported_spec (supportedRates info) (largest concrete)) as [Ei|[Hin Hle]].
    + split; [auto 6|]. intros Hv. by destruct Hv.
    + split; [do 4 right; by apply beforeTerminator_supported|].
      intros _ c Hc Hcc. etrans; [|exact Hle]. apply largest_ge. by apply list_elem_of_filter.
Qed.

(** *** Trigger, flush and the internal events *)

Lemma sensorCallFuncTrigger_eq s x o m :
  mSensors m !! s = Some x ->
  sensorCallFuncTrigger s o m =
  match triggerCall x with Some c => Some (o c, m, [c]) | None => None end.
Proof.
  intros Hx. unfold sensorCallFuncTrigger, triggerCall, bindingCall, callOps.
  rewrite bind_readSensor, Hx.
  destruct (callInfo x) as [ops|tid]; [destruct (ops =? 0)|]; reflexivity.
Qed.

Lemma sensorCallFuncFlush_eq s x o m :
  mSensors m !! s = Some x ->
  sensorCallFuncFlush s o m =
  match flushCall x with Some c => Some (o c, m, [c]) | None => None end.
Proof.
  intros Hx. unfold sensorCallFuncFlush, flushCall, bindingCall, callOps.
  rewrite bind_readSensor, Hx.
  destruct (callInfo x) as [ops|tid]; [destruct (ops =? 0)|]; reflexivity.
Qed.

Lemma sensorCallFuncFwUpld_eq s x o m :
  mSensors m !! s = Some x ->
  sensorCallFuncFwUpld s o m =
  match fwUpldCall x with Some c => Some (o c, m, [c]) | None => None end.
Proof.
  intros Hx. unfold sensorCallFuncFwUpld, fwUpldCall, bindingCall, callOps.
  rewrite bind_readSensor, Hx.
  destruct (callInfo x) as [ops|tid]; [destruct (ops =? 0)|]; reflexivity.
Qed.

(** [sensorTriggerOndemand] reaches the driver only for a client that
    holds a request for the sensor, [sensorFlush] for any handle that
    resolves, with or without requests; a handle that does not resolve, or a
    client without a request, gives false and no call.  The answer is the
    driver's and the machine is never changed. *)
Theorem trigger_flush_outcome client sensorHandle o m :
  (sensorFindByHandle m sensorHandle = None ->
   sensorTriggerOndemand client sensorHandle o m = Some (false, m, [])
   /\ sensorFlush sensorHandle o m = Some (false, m, []))
  /\ (forall s x, sensorFindByHandle m sensorHandle = Some s -> mSensors m !! s = Some x ->
      (findRequestor (mCliSensMatrix m) sensorHandle client = None ->
       sensorTriggerOndemand client sensorHandle o m = Some (false, m, []))
      /\ (forall c, findRequestor (mCliSensMatrix m) sensorHandle client <> None ->
           triggerCall x = Some c ->
           sensorTriggerOndemand client sensorHandle o m = Some (o c, m, [c]))
      /\ (forall c, flushCall x = Some c ->
           sensorFlush sensorHandle o m = Some (o c, m, [c]))).
Proof.
  split.
  - intros Hs. unfold sensorTriggerOndemand, sensorFlush. by rewrite !bind_getM, Hs.
  - intros s x Hs Hx. unfold sensorTriggerOndemand, sensorFlush. rewrite !bind_getM, Hs.
    split; [by intros ->|]. split.
    + intros c Hsome Hc.
      destruct (findRequestor (mCliSensMatrix m) sensorHandle client); [|done].
      by rewrite (sensorCallFuncTrigger_eq s x o m Hx), Hc.
    + intros c Hc. by rewrite (sensorCallFuncFlush_eq s x o m Hx), Hc.
Qed.

Lemma set_mInternalEvents_same m : set_mInternalEvents (mInternalEvents m) m = m.
Proof. by destruct m. Qed.

(** [sensorSignalInternalEvt] never leaks a cell of the event pool.  It
    returns false, with the machine exactly as it was, when the pool has no
    free cell (nothing is called) or when [osDefer] refuses the callback.
    When it returns true one cell that was free holds the payload
    [(handle, value1, value2)], [osDefer] was given the callback and that
    cell, and nothing else has changed. *)
Theorem sensorSignalInternalEvt_outcome h n v1 v2 o m :
  (firstFree (mInternalEvents m) = None ->
   sensorSignalInternalEvt h n v1 v2 o m = Some (false, m, []))
  /\ (forall evt, firstFree (mInternalEvents m) = Some evt ->
      mInternalEvents m !! evt = Some None
      /\ (o (OsDefer n evt) = false ->
          sensorSignalInternalEvt h n v1 v2 o m = Some (false, m, [OsDefer n evt]))
      /\ (o (OsDefer n evt) = true ->
          sensorSignalInternalEvt h n v1 v2 o m =
            Some (true,
                  set_mInternalEvents (<[evt := Some (InternalEvt h v1 v2)]> (mInternalEvents m)) m,
                  [OsDefer n evt])
          /\ payloadOf
               (set_mInternalEvents (<[evt := Some (InternalEvt h v1 v2)]> (mInternalEvents m)) m)
               evt = Some (h, v1, v2))).
Proof.
  unfold sensorSignalInternalEvt, freeInternalEvt, slabAllocatorAlloc. rewrite bind_getM. split.
  - by intros ->.
  - intros evt E. rewrite E. pose proof (firstFree_Some _ _ E) as Hfree.
    split; [done|]. rewrite bind_modifyM, bind_extcall. split.
    + intros ->. rewrite bind_modifyM. unfold ret, slabStore, slabAllocatorFree.
      cbn [mInternalEvents set_mInternalEvents mSensors mSensorsUsed mCliSensMatrix mNextSensorHandle].
      rewrite list_insert_insert_eq, (list_insert_id _ _ _ Hfree).
      by destruct m.
    + intros ->. split; [reflexivity|].
      unfold payloadOf, slabAllocatorGetNth. cbn [mInternalEvents set_mInternalEvents].
      rewrite list_lookup_insert_eq; [done|]. by eapply lookup_lt_Some.
Qed.

Lemma internalEventCallbacks_shape cb evt o m m' tr :
  internalEventCallbacks cb evt o m = Some (tt, m', tr) ->
  exists h v1 v2 body m1,
    payloadOf m evt = Some (h, v1, v2)
    /\ body o m = Some (tt, m1, tr)
    /\ m' = set_mInternalEvents (slabAllocatorFree (mInternalEvents m1) evt) m1
    /\ body = match cb with
              | SENSOR_INTERNAL_EVT_POWER_STATE_CHG => powerStateChanged h v1
              | SENSOR_INTERNAL_EVT_FW_STATE_CHG => fwStateChanged h v1 v2
              | SENSOR_INTERNAL_EVT_RATE_CHG => rateChanged h v1 v2
              end.
Proof.
  intros E.
  assert (Hgen : forall body : N -> N -> N -> M unit,
    bind (readInternalEvt evt)
         (fun e => bind (body (fst (fst e)) (snd (fst e)) (snd e)) (fun _ => freeInternalEvt evt)) o m
      = Some (tt, m', tr) ->
    exists h v1 v2 m1, payloadOf m evt = Some (h, v1, v2)
      /\ body h v1 v2 o m = Some (tt, m1, tr)
      /\ m' = set_mInternalEvents (slabAllocatorFree (mInternalEvents m1) evt) m1).
  { intros body Eb.
    apply bind_Some in Eb as ([[h v1] v2] & m0 & t0 & t1 & E1 & E2 & ->).
    apply readInternalEvt_payload in E1 as Hp. destruct Hp as [-> Hp].
    assert (t0 = []) as ->.
    { unfold readInternalEvt in E1. rewrite bind_getM in E1.
      destruct (slabAllocatorGetNth (mInternalEvents m) evt) as [[? ? ?|]|]; try done.
      by injection E1 as _ _ _ <-. }
    apply bind_Some in E2 as ([] & m1 & t2 & t3 & E2 & E3 & ->).
    unfold freeInternalEvt in E3. injection E3 as <- <-.
    exists h, v1, v2, m1. rewrite app_nil_r. cbn [fst snd] in E2. done. }
  destruct cb; cbn [internalEventCallbacks] in E.
  - destruct (Hgen (fun h v1 _ => powerStateChanged h v1) E) as (h & v1 & v2 & m1 & ? & ? & ?).
    by exists h, v1, v2, (powerStateChanged h v1), m1.
  - destruct (Hgen fwStateChanged E) as (h & v1 & v2 & m1 & ? & ? & ?).
    by exists h, v1, v2, (fwStateChanged h v1 v2), m1.
  - destruct (Hgen rateChanged E) as (h & v1 & v2 & m1 & ? & ? & ?).
    by exists h, v1, v2, (rateChanged h v1 v2), m1.
Qed.

(** The delivery of an internal event gives its cell back to the pool,
    whatever the handler did; and for a handle that no slot carries the
    handler does nothing else: no slot is touched and nothing is called. *)
Theorem internalEvent_delivery cb evt o m m' tr :
  internalEventCallbacks cb evt o m = Some (tt, m', tr) ->
  slabAllocatorGetNth (mInternalEvents m') evt = None
  /\ exists h v1 v2,
      payloadOf m evt = Some (h, v1, v2)
      /\ (sensorFindByHandle m h = None ->
          m' = set_mInternalEvents (slabAllocatorFree (mInternalEvents m) evt) m /\ tr = []).
Proof.
  intros E. apply internalEventCallbacks_shape in E as (h & v1 & v2 & body & m1 & Hp & Eb & -> & ->).
  split.
  - cbn [mInternalEvents set_mInternalEvents]. by rewrite slabAllocatorGetNth_free, decide_True.
  - exists h, v1, v2. split; [done|]. intros Hs.
    destruct cb; unfold powerStateChanged, fwStateChanged, rateChanged in Eb;
      rewrite bind_getM, Hs in Eb; by injection Eb as <- <-.
Qed.

(** A rate-change completion overrides whatever state the sensor is in:
    after its delivery for a handle that resolves, the two getters answer
    the reported rate and latency, and nothing was called. *)
Theorem rateChange_completion_overrides evt h v1 v2 o m s :
  payloadOf m evt = Some (h, v1, v2) ->
  sensorFindByHandle m h = Some s ->
  exists m',
    sensorInternalRateChanged evt o m = Some (tt, m', [])
    /\ sensorGetCurRate m' h = v1
    /\ sensorGetCurLatency m' h = v2.
Proof.
  intros Hp Hs. destruct (sensorFindByHandle_Some _ _ _ Hs) as (x & Hx & Hh).
  unfold sensorInternalRateChanged, readInternalEvt. rewrite bind_assoc, bind_getM.
  unfold payloadOf in Hp.
  destruct (slabAllocatorGetNth (mInternalEvents m) evt) as [[h' v1' v2'|]|]; try done.
  injection Hp as -> -> ->. rewrite bind_ret. cbn [fst snd].
  unfold rateChanged, freeInternalEvt. rewrite bind_assoc, bind_getM, Hs, bind_modifyM.
  eexists. split; [reflexivity|].
  set (m1 := storeRateLatency s v1 v2 m).
  assert (R : sameRegistry m m1) by apply storeRateLatency_sameRegistry.
  assert (Hs1 : sensorFindByHandle m1 h = Some s) by (by rewrite (sameRegistry_find _ _ _ R)).
  unfold sensorGetCurRate, sensorGetCurLatency, sensorFindByHandle in *.
  cbn [mSensors set_mInternalEvents]. rewrite Hs1.
  unfold m1. rewrite (storeRateLatency_sensors s v1 v2 m x Hx).
  rewrite list_lookup_insert_eq by (by eapply lookup_lt_Some). done.
Qed.

(** *** The client calls and the request table *)

Lemma sensorRequestRateChange_inv c h r l o m ok m' tr :
  sensorRequestRateChange c h r l o m = Some (ok, m', tr) ->
  (ok = false /\ m' = m /\ tr = [])
  \/ (ok = true /\ exists i q,
        findRequestor (mCliSensMatrix m) h c = Some i
        /\ slabAllocatorGetNth (mCliSensMatrix m) i = Some q
        /\ sameRegistry (set_mCliSensMatrix (slabStore (mCliSensMatrix m) i (mkReq h c l r)) m) m').
Proof.
  intros E.
  destruct (sensorFindByHandle m h) as [s|] eqn:Hs.
  2:{ unfold sensorRequestRateChange in E. rewrite bind_getM, Hs in E.
      injection E as <- <- <-. by left. }
  destruct (findRequestor (mCliSensMatrix m) h c) as [i|] eqn:Hi.
  2:{ unfold sensorRequestRateChange, sensorGetCurRequestorRate in E.
      rewrite bind_getM, Hs, Hi in E. injection E as <- <- <-. by left. }
  destruct (findRequestor_Some _ _ _ _ Hi) as (_ & q & Hq & _).
  destruct (sensorCalcHwRate m s r (rate q)) as [nr|] eqn:Hr.
  2:{ unfold sensorRequestRateChange, sensorGetCurRequestorRate in E.
      by rewrite bind_getM, Hs, Hi, Hq, bind_liftO, Hr in E. }
  rewrite (sensorRequestRateChange_run _ _ _ _ _ _ _ _ _ _ Hs Hi Hq Hr) in E.
  destruct (nr =? SENSOR_RATE_IMPOSSIBLE); [injection E as <- <- <-; by left|].
  cbn zeta in E. destruct (sensorCalcHwLatency _ s) as [lat|]; [|discriminate].
  destruct (sensorReconfig _ _ _ _ _) as [[[u m1] t1]|] eqn:Hrc; [|discriminate].
  injection E as <- <- <-. right. split; [done|]. exists i, q. split; [done|]. split; [done|].
  eapply reconfigStores_sameRegistry, sensorReconfig_stores, Hrc.
Qed.

Lemma sensorReconfigFresh_sameRegistry s o m u m' tr :
  sensorReconfigFresh s o m = Some (u, m', tr) -> sameRegistry m m'.
Proof.
  unfold sensorReconfigFresh. rewrite bind_getM, bind_liftO.
  destruct (sensorCalcHwRate m s 0 0); [|discriminate]. rewrite bind_liftO.
  destruct (sensorCalcHwLatency m s); [|discriminate].
  intros E. eapply reconfigStores_sameRegistry, sensorReconfig_stores, E.
Qed.

Lemma sensorRelease_inv c h o m ok m' tr :
  sensorRelease c h o m = Some (ok, m', tr) ->
  (ok = false /\ m' = m /\ tr = []
   /\ (sensorFindByHandle m h = None \/ findRequestor (mCliSensMatrix m) h c = None))
  \/ (ok = true /\ exists i q,
        findRequestor (mCliSensMatrix m) h c = Some i
        /\ slabAllocatorGetNth (mCliSensMatrix m) i = Some q
        /\ sameRegistry (set_mCliSensMatrix (slabAllocatorFree (mCliSensMatrix m) i) m) m').
Proof.
  intros E.
  destruct (sensorFindByHandle m h) as [s|] eqn:Hs.
  2:{ unfold sensorRelease in E. rewrite bind_getM, Hs in E.
      injection E as <- <- <-. left. auto. }
  destruct (findRequestor (mCliSensMatrix m) h c) as [i|] eqn:Hi.
  2:{ unfold sensorRelease, sensorDeleteRequestor in E.
      rewrite bind_getM, Hs, bind_assoc, bind_getM, Hi, bind_ret in E.
      injection E as <- <- <-. left. auto. }
  destruct (findRequestor_Some _ _ _ _ Hi) as (_ & q & Hq & _).
  rewrite (sensorRelease_run _ _ _ _ _ _ Hs Hi) in E.
  destruct (sensorReconfigFresh _ _ _) as [[[u m1] t1]|] eqn:Hrc; [|discriminate].
  injection E as <- <- <-. right. split; [done|]. exists i, q. split; [done|]. split; [done|].
  eapply sensorReconfigFresh_sameRegistry, Hrc.
Qed.

Lemma sensorRequest_inv c h r l o m ok m' tr :
  sensorRequest c h r l o m = Some (ok, m', tr) ->
  (ok = false /\ m' = m /\ tr = [])
  \/ (ok = true /\ exists i,
        firstFree (mCliSensMatrix m) = Some i
        /\ sameRegistry (set_mCliSensMatrix (slabStore (mCliSensMatrix m) i (mkReq h c l r)) m) m').
Proof.
  intros E.
  destruct (sensorFindByHandle m h) as [s|] eqn:Hs.
  2:{ unfold sensorRequest in E. rewrite bind_getM, Hs in E. injection E as <- <- <-. by left. }
  destruct ok.
  - right. split; [done|]. by eapply sensorRequest_true.
  - left. split; [done|].
    destruct (sensorCalcHwRate m s r 0) as [nr|] eqn:Hr.
    2:{ unfold sensorRequest in E. by rewrite bind_getM, Hs, bind_liftO, Hr in E. }
    rewrite (sensorRequest_run _ _ _ _ _ _ _ _ Hs Hr) in E.
    destruct (nr =? SENSOR_RATE_IMPOSSIBLE); [by injection E as <- <-|].
    destruct (firstFree (mCliSensMatrix m)); [|by injection E as <- <-].
    cbn zeta in E. destruct (sensorCalcHwLatency _ s); [|discriminate].
    by destruct (sensorReconfig _ _ _ _ _) as [[[u m1] t1]|].
Qed.

Lemma requestsEditedFor_refl h m : requestsEditedFor h m m.
Proof. split; [done|by left]. Qed.

Lemma requestsEditedFor_store h m m' i cell :
  (i < length (mCliSensMatrix m))%nat ->
  cellFor h (slabAllocatorGetNth (mCliSensMatrix m) i) ->
  cellFor h cell ->
  sameRegistry (set_mCliSensMatrix (<[i := cell]> (mCliSensMatrix m)) m) m' ->
  requestsEditedFor h m m'.
Proof.
  intros Hi Hold Hnew [Ecli Eid]. split; [exact Eid|].
  right. exists i, cell. by rewrite Ecli.
Qed.

Lemma requestAt_edited h hB m m' k :
  requestsEditedFor h m m' -> hB <> h ->
  requestAt (mCliSensMatrix m') hB k = requestAt (mCliSensMatrix m) hB k.
Proof.
  intros [_ [->|(i & new & Hi & -> & Hold & Hnew)]] Hne; [done|].
  unfold requestAt, slabAllocatorGetNth in *.
  destruct (decide (i = k)) as [<-|Hik].
  - rewrite list_lookup_insert_eq by done.
    destruct new as [q'|]; cbn in Hnew.
    + destruct (N.eqb_spec (req_handle q') hB); [congruence|].
      destruct (mCliSensMatrix m !! i) as [[q|]|]; try done. cbn in Hold.
      destruct (N.eqb_spec (req_handle q) hB); [congruence|done].
    + destruct (mCliSensMatrix m !! i) as [[q|]|]; try done. cbn in Hold.
      destruct (N.eqb_spec (req_handle q) hB); [congruence|done].
  - by rewrite list_lookup_insert_ne.
Qed.

Lemma clientCall_edits c h r l o m :
  (forall ok m' tr, sensorRequest c h r l o m = Some (ok, m', tr) -> requestsEditedFor h m m')
  /\ (forall ok m' tr, sensorRequestRateChange c h r l o m = Some (ok, m', tr) ->
       requestsEditedFor h m m')
  /\ (forall ok m' tr, sensorRelease c h o m = Some (ok, m', tr) -> requestsEditedFor h m m').
Proof.
  split; [|split]; intros ok m' tr E.
  - apply sensorRequest_inv in E as [(_ & -> & _)|(_ & i & Hi & R)];
      [apply requestsEditedFor_refl|].
    pose proof (firstFree_Some _ _ Hi) as Hfree.
    eapply (requestsEditedFor_store h m m' i (Some (mkReq h c l r)));
      [by eapply lookup_lt_Some| |done|exact R].
    unfold slabAllocatorGetNth. by rewrite Hfree.
  - apply sensorRequestRateChange_inv in E as [(_ & -> & _)|(_ & i & q & Hi & Hq & R)];
      [apply requestsEditedFor_refl|].
    destruct (findRequestor_Some _ _ _ _ Hi) as (_ & q' & Hq' & Hh & _).
    eapply (requestsEditedFor_store h m m' i (Some (mkReq h c l r))); [| |done|exact R].
    + unfold slabAllocatorGetNth in Hq. destruct (mCliSensMatrix m !! i) eqn:El; [|done].
      by eapply lookup_lt_Some.
    + rewrite Hq'. exact Hh.
  - apply sensorRelease_inv in E as [(_ & -> & _)|(_ & i & q & Hi & Hq & R)];
      [apply requestsEditedFor_refl|].
    destruct (findRequestor_Some _ _ _ _ Hi) as (_ & q' & Hq' & Hh & _).
    eapply (requestsEditedFor_store h m m' i None); [| |done|exact R].
    + unfold slabAllocatorGetNth in Hq. destruct (mCliSensMatrix m !! i) eqn:El; [|done].
      by eapply lookup_lt_Some.
    + rewrite Hq'. exact Hh.
Qed.

Lemma identity_lookup (l l' : list Sensor) s x :
  identity <$> l' = identity <$> l -> l !! s = Some x ->
  exists x', l' !! s = Some x' /\ identity x' = identity x.
Proof.
  intros E Hx.
  assert (Hi : (identity <$> l') !! s = Some (identity x))
    by (by rewrite E, list_lookup_fmap, Hx).
  rewrite list_lookup_fmap in Hi.
  destruct (l' !! s) as [x'|]; [|discriminate]. apply (inj Some) in Hi. eauto.
Qed.

Lemma aggregation_edited h m m' sB xB extra removed :
  requestsEditedFor h m m' ->
  mSensors m !! sB = Some xB -> handle xB <> h ->
  sensorCalcHwRate m' sB extra removed = sensorCalcHwRate m sB extra removed
  /\ sensorCalcHwLatency m' sB = sensorCalcHwLatency m sB.
Proof.
  intros Hed Hx Hne. pose proof Hed as [Eid _].
  destruct (identity_lookup _ _ _ _ Eid Hx) as (x' & Hx' & Hi).
  assert (si x' = si xB /\ handle x' = handle xB) as [Esi Eh]
    by (unfold identity in Hi; split; congruence).
  assert (Hlive : liveRequests (mCliSensMatrix m') (handle xB)
                  = liveRequests (mCliSensMatrix m) (handle xB)).
  { unfold liveRequests. apply omap_ext_in. intros k _. by apply (requestAt_edited h). }
  rewrite (sensorCalcHwRate_live m' sB x' _ _ Hx'), (sensorCalcHwRate_live m sB xB _ _ Hx).
  rewrite (sensorCalcHwLatency_live m' sB x' Hx'), (sensorCalcHwLatency_live m sB xB Hx).
  unfold liveRates. by rewrite Esi, Eh, Hlive.
Qed.

(** A call of [sensorRequest], [sensorRequestRateChange] or [sensorRelease]
    for the sensor with handle [h], whatever it returns, keeps the handle,
    the descriptor and the binding of every slot, and changes at most one
    cell of the request table, a cell that held nothing or a request for
    [h] and now holds nothing or a request for [h]. *)
Theorem client_calls_edit_one_cell c h r l o m :
  (forall ok m' tr, sensorRequest c h r l o m = Some (ok, m', tr) -> requestsEditedFor h m m')
  /\ (forall ok m' tr, sensorRequestRateChange c h r l o m = Some (ok, m', tr) ->
       requestsEditedFor h m m')
  /\ (forall ok m' tr, sensorRelease c h o m = Some (ok, m', tr) -> requestsEditedFor h m m').
Proof. apply clientCall_edits. Qed.

(** The aggregation of a sensor depends on the requests made for its own
    handle only: a request, a rate change or a release for another handle
    leaves the answers of [sensorCalcHwRate], for every extra and removed
    rate, and of [sensorCalcHwLatency] as they were. *)
Theorem other_sensors_unaffected c h r l o m sB xB extra removed ok m' tr :
  mSensors m !! sB = Some xB ->
  handle xB <> h ->
  sensorRequest c h r l o m = Some (ok, m', tr)
  \/ sensorRequestRateChange c h r l o m = Some (ok, m', tr)
  \/ sensorRelease c h o m = Some (ok, m', tr) ->
  sensorCalcHwRate m' sB extra removed = sensorCalcHwRate m sB extra removed
  /\ sensorCalcHwLatency m' sB = sensorCalcHwLatency m sB.
Proof.
  intros Hx Hne E. apply (aggregation_edited h m m' sB xB); [|done..].
  destruct (clientCall_edits c h r l o m) as (H1 & H2 & H3).
  destruct E as [E|[E|E]]; eauto.
Qed.

(** After a successful [sensorRequestRateChange] the client's request reads
    back with the new rate and latency. *)
Theorem rateChange_then_get c h r l o m m' tr :
  sensorRequestRateChange c h r l o m = Some (true, m', tr) ->
  sensorGetCurRequestorRate m' h c = Some (r, l).
Proof.
  intros E. apply sensorRequestRateChange_inv in E as [(? & _)|(_ & i & q & Hi & Hq & [Ecli _])];
    [done|].
  cbn [mCliSensMatrix set_mCliSensMatrix] in Ecli.
  assert (Hlt : (i < length (mCliSensMatrix m))%nat).
  { unfold slabAllocatorGetNth in Hq. destruct (mCliSensMatrix m !! i) eqn:El; [|done].
    by eapply lookup_lt_Some. }
  assert (Hfind : findRequestor (mCliSensMatrix m') h c = Some i).
  { rewrite Ecli. apply find_seq_Some in Hi as (Hi64 & Hp & Hbefore).
    apply find_seq_Some. repeat split; [lia..| |].
    - unfold isRequestor. rewrite slabAllocatorGetNth_store, decide_True by done.
      cbn. by rewrite !N.eqb_refl.
    - intros j Hj. unfold isRequestor. rewrite slabAllocatorGetNth_store, decide_False by lia.
      by apply Hbefore. }
  unfold sensorGetCurRequestorRate. rewrite Hfind, Ecli.
  by rewrite slabAllocatorGetNth_store, decide_True by done.
Qed.

(** [sensorRelease] returns false only when the handle does not resolve or
    the client holds no request for it, and then nothing has changed and
    nothing was called.  When it returns true the first cell, in scan order,
    that held a request of the client for the sensor is free and every
    other cell is as before. *)
Theorem sensorRelease_outcome c h o m ok m' tr :
  sensorRelease c h o m = Some (ok, m', tr) ->
  (ok = false ->
   m' = m /\ tr = []
   /\ (sensorFindByHandle m h = None \/ findRequestor (mCliSensMatrix m) h c = None))
  /\ (ok = true ->
      exists i, findRequestor (mCliSensMatrix m) h c = Some i
        /\ slabAllocatorGetNth (mCliSensMatrix m') i = None
        /\ forall j, j <> i ->
             slabAllocatorGetNth (mCliSensMatrix m') j = slabAllocatorGetNth (mCliSensMatrix m) j).
Proof.
  intros E. apply sensorRelease_inv in E as [(-> & -> & -> & Hwhy)|(-> & i & q & Hi & Hq & [Ecli _])].
  - split; [done|]. discriminate.
  - split; [discriminate|]. intros _. exists i. split; [done|].
    cbn [mCliSensMatrix set_mCliSensMatrix] in Ecli. rewrite Ecli. split.
    + by rewrite slabAllocatorGetNth_free, decide_True.
    + intros j Hj. by rewrite slabAllocatorGetNth_free, decide_False.
Qed.

Lemma firstFree_full {T} (slab : Slab T) :
  firstFree slab = None <-> forall i, slab !! i <> Some None.
Proof.
  split; [intros E i; by apply firstFree_None|].
  intros Hall. destruct (firstFree slab) as [i|] eqn:E; [|done].
  apply firstFree_Some in E. by destruct (Hall i).
Qed.

(** [sensorRequest] does not look for a request the client already holds:
    when it succeeds for a client that holds one, the new request sits in
    another cell, the old one is still there, and
    [sensorGetCurRequestorRate] keeps answering with the one of the two
    that comes first in scan order.  With no free cell in the table
    [sensorRequest] returns false for a request that is feasible. *)
Theorem sensorRequest_duplicates_and_capacity c h r l o m :
  (forall i q m' tr,
     tableSized m ->
     findRequestor (mCliSensMatrix m) h c = Some i ->
     slabAllocatorGetNth (mCliSensMatrix m) i = Some q ->
     sensorRequest c h r l o m = Some (true, m', tr) ->
     exists j, j <> i
       /\ slabAllocatorGetNth (mCliSensMatrix m') i = Some q
       /\ slabAllocatorGetNth (mCliSensMatrix m') j = Some (mkReq h c l r)
       /\ findRequestor (mCliSensMatrix m') h c = Some (Nat.min i j))
  /\ (forall s nr,
       sensorFindByHandle m h = Some s ->
       sensorCalcHwRate m s r 0 = Some nr ->
       (forall i, mCliSensMatrix m !! i <> Some None) ->
       sensorRequest c h r l o m = Some (false, m, [])).
Proof.
  split.
  - intros i q m' tr Hlen Hi Hq E. unfold tableSized in Hlen.
    apply sensorRequest_inv in E as [(? & _)|(_ & j & Hj & [Ecli _])]; [done|].
    cbn [mCliSensMatrix set_mCliSensMatrix] in Ecli.
    pose proof (firstFree_Some _ _ Hj) as Hfree.
    assert (Hjlt : (j < length (mCliSensMatrix m))%nat) by (by eapply lookup_lt_Some).
    assert (Hne : j <> i).
    { intros ->. unfold slabAllocatorGetNth in Hq. by rewrite Hfree in Hq. }
    exists j. split; [done|]. rewrite Ecli.
    split; [by rewrite slabAllocatorGetNth_store, decide_False|].
    split; [by rewrite slabAllocatorGetNth_store, decide_True|].
    apply find_seq_Some in Hi as (Hi64 & Hp & Hbefore).
    apply find_seq_Some. split; [lia|]. split.
    + unfold isRequestor. rewrite slabAllocatorGetNth_store by done.
      destruct (Nat.min_spec i j) as [[Hlt ->]|[Hle ->]].
      * by rewrite decide_False.
      * rewrite decide_True by done. cbn. by rewrite !N.eqb_refl.
    + intros k Hk. unfold isRequestor. rewrite slabAllocatorGetNth_store, decide_False by lia.
      apply Hbefore. lia.
  - intros s nr Hs Hr Hfull. rewrite (sensorRequest_run _ _ _ _ _ _ _ _ Hs Hr).
    apply firstFree_full in Hfull. rewrite Hfull.
    by destruct (nr =? SENSOR_RATE_IMPOSSIBLE).
Qed.

(** *** The power state machine, step by step *)

Lemma getCur_sensors m m' h :
  mSensors m' = mSensors m ->
  sensorGetCurRate m' h = sensorGetCurRate m h
  /\ sensorGetCurLatency m' h = sensorGetCurLatency m h.
Proof.
  intros E. unfold sensorGetCurRate, sensorGetCurLatency, sensorFindByHandle. by rewrite E.
Qed.

Lemma getCur_store m h s x r l :
  sensorFindByHandle m h = Some s -> mSensors m !! s = Some x ->
  sensorFindByHandle (storeRateLatency s r l m) h = Some s
  /\ mSensors (storeRateLatency s r l m) !! s = Some (set_currentLatency l (set_currentRate r x))
  /\ sensorGetCurRate (storeRateLatency s r l m) h = r
  /\ sensorGetCurLatency (storeRateLatency s r l m) h = l.
Proof.
  intros Hs Hx.
  pose proof (storeRateLatency_sameRegistry s r l m) as R.
  assert (Hs1 : sensorFindByHandle (storeRateLatency s r l m) h = Some s)
    by (by rewrite (sameRegistry_find _ _ _ R)).
  assert (Hx1 : mSensors (storeRateLatency s r l m) !! s
                = Some (set_currentLatency l (set_currentRate r x))).
  { rewrite (storeRateLatency_sensors s r l m x Hx).
    apply list_lookup_insert_eq. by eapply lookup_lt_Some. }
  split; [done|]. split; [done|].
  unfold sensorGetCurRate, sensorGetCurLatency. by rewrite Hs1, Hx1.
Qed.

Lemma storeRateLatency_cli s r l m :
  mCliSensMatrix (storeRateLatency s r l m) = mCliSensMatrix m.
Proof. apply (storeRateLatency_sameRegistry s r l m). Qed.

Lemma getCur_slot m h s x :
  sensorFindByHandle m h = Some s -> mSensors m !! s = Some x ->
  sensorGetCurRate m h = currentRate x /\ sensorGetCurLatency m h = currentLatency x.
Proof. intros Hs Hx. unfold sensorGetCurRate, sensorGetCurLatency. by rewrite Hs, Hx. Qed.

Lemma sensorReconfig_off s x r l o m :
  mSensors m !! s = Some x ->
  currentRate x = SENSOR_RATE_OFF ->
  r <> SENSOR_RATE_OFF ->
  sensorReconfig s r l o m =
  match powerCall x true with
  | Some c =>
      Some (tt, if o c then storeRateLatency s SENSOR_RATE_POWERING_ON SENSOR_LATENCY_INVALID m else m,
            [c])
  | None => None
  end.
Proof.
  intros Hx Hoff Hr. unfold sensorReconfig. rewrite bind_readSensor, Hx, Hoff.
  destruct (N.eqb_spec SENSOR_RATE_OFF r) as [E|_]; [congruence|]. cbn [andb].
  rewrite N.eqb_refl. unfold bind. rewrite (sensorCallFuncPower_eq s x true o m Hx).
  destruct (powerCall x true) as [c|]; [|done]. by destruct (o c).
Qed.

Lemma sensorReconfig_live_keeps s x r l o m u m' tr :
  mSensors m !! s = Some x ->
  currentRate x <> SENSOR_RATE_OFF -> currentRate x <> SENSOR_RATE_POWERING_OFF ->
  r <> SENSOR_RATE_OFF ->
  sensorReconfig s r l o m = Some (u, m', tr) ->
  mSensors m' = mSensors m.
Proof.
  intros Hx H1 H2 Hr. unfold sensorReconfig. rewrite bind_readSensor, Hx.
  destruct ((currentRate x =? r) && (currentLatency x =? l)); [by intros [= _ <- _]|].
  destruct (N.eqb_spec (currentRate x) SENSOR_RATE_OFF); [done|].
  destruct (N.eqb_spec (currentRate x) SENSOR_RATE_POWERING_OFF); [done|].
  destruct ((currentRate x =? SENSOR_RATE_POWERING_ON) || (currentRate x =? SENSOR_RATE_FW_UPLOADING));
    [by intros [= _ <- _]|].
  destruct (N.ltb_spec SENSOR_RATE_OFF r) as [_|Hle]; [|unfold SENSOR_RATE_OFF in *; lia].
  cbn [orb]. intros E. apply bind_Some in E as (ok & m1 & t1 & t2 & E1 & [= _ <- _] & _).
  by destruct (sensorCallFuncSetRate_run _ _ _ _ _ _ _ _ E1).
Qed.


Lemma bindingCall_defined x viaOps viaApp :
  callInfo x <> TaggedPtrPtr 0 -> exists c, bindingCall x viaOps viaApp = Some c.
Proof.
  intros Hc. unfold bindingCall. destruct (callInfo x) as [ops|tid]; [|eauto].
  destruct (N.eqb_spec ops 0) as [->|]; [done|eauto].
Qed.

(** With a request at a rate other than OFF among the live requests of the
    sensor, the aggregation with no extra and no removed rate does not
    answer OFF. *)
Lemma sensorCalcHwRate_users m s x q v :
  pseudoRatesDistinct ->
  mSensors m !! s = Some x ->
  q ∈ liveRequests (mCliSensMatrix m) (handle x) -> rate q <> 0 ->
  sensorCalcHwRate m s 0 0 = Some v -> v <> SENSOR_RATE_OFF.
Proof.
  intros (Hne & Hd0 & Hc0 & _) Hx Hq Hr.
  rewrite (sensorCalcHwRate_live m s x _ _ Hx). unfold sensorCalcHwRateResult.
  rewrite countRequest_haveUsers, countedRates_off.
  assert (Hin : rate q ∈ filter (fun c => c <> SENSOR_RATE_OFF) (liveRates (mCliSensMatrix m) (handle x))).
  { apply list_elem_of_filter. split; [done|]. unfold liveRates. apply list_elem_of_fmap. eauto. }
  rewrite (bool_decide_eq_false_2 (_ = [])).
  2:{ intros E. rewrite E in Hin. by apply elem_of_nil in Hin. }
  rewrite orb_true_r. cbn [negb].
  destruct (highestReq _ =? 0).
  - destruct (haveOnChange _); intros [= <-]; done.
  - destruct (si x) as [info|]; [|done].
    generalize (highestReq (fold_left countRequest
      (filter (fun c => c <> SENSOR_RATE_OFF) (liveRates (mCliSensMatrix m) (handle x)))
      (sensorCalcHwRateInit 0))).
    intros wanted. induction (supportedRates info) as [|c rates IH]; cbn [scanSupportedRates]; [done|].
    destruct (N.eqb_spec c 0); [by intros [= <-]|].
    destruct (wanted <=? c); [by intros [= <-]|apply IH].
Qed.

Lemma sensorCalcHwRate_extra m s x r v :
  pseudoRatesDistinct ->
  mSensors m !! s = Some x -> r <> 0 ->
  sensorCalcHwRate m s r 0 = Some v -> v <> SENSOR_RATE_OFF.
Proof.
  intros (Hne & Hd0 & Hc0 & _) Hx Hr.
  rewrite (sensorCalcHwRate_live m s x _ _ Hx). unfold sensorCalcHwRateResult.
  rewrite countRequest_haveUsers. unfold sensorCalcHwRateInit at 2. cbn [haveUsers].
  destruct (N.eqb_spec r 0); [done|]. cbn [negb orb].
  destruct (highestReq _ =? 0).
  - destruct (haveOnChange _); intros [= <-]; done.
  - destruct (si x) as [info|]; [|done].
    generalize (highestReq (fold_left countRequest
      (countedRates 0 (liveRates (mCliSensMatrix m) (handle x))) (sensorCalcHwRateInit r))).
    intros wanted. induction (supportedRates info) as [|c rates IH]; cbn [scanSupportedRates]; [done|].
    destruct (N.eqb_spec c 0); [by intros [= <-]|].
    destruct (wanted <=? c); [by intros [= <-]|apply IH].
Qed.

Lemma handler_run (body : N -> N -> N -> M unit) evt h v1 v2 o m :
  payloadOf m evt = Some (h, v1, v2) ->
  (do e <- readInternalEvt evt;
   body (fst (fst e)) (snd (fst e)) (snd e);; freeInternalEvt evt) o m =
  match body h v1 v2 o m with
  | Some (_, m', tr) =>
      Some (tt, set_mInternalEvents (slabAllocatorFree (mInternalEvents m') evt) m', tr)
  | None => None
  end.
Proof.
  intros Hp. unfold readInternalEvt. rewrite bind_assoc, bind_getM.
  unfold payloadOf in Hp.
  destruct (slabAllocatorGetNth (mInternalEvents m) evt) as [[h' v1' v2'|]|]; try done.
  injection Hp as -> -> ->. rewrite bind_ret. cbn [fst snd].
  unfold bind at 1. destruct (body h v1 v2 o m) as [[[u m'] tr]|]; [|done].
  unfold freeInternalEvt, modifyM. by rewrite app_nil_r.
Qed.

Lemma powerStateChanged_on h on o m s x callF :
  sensorFindByHandle m h = Some s -> mSensors m !! s = Some x ->
  currentRate x = SENSOR_RATE_POWERING_ON -> on <> 0 ->
  fwUpldCall x = Some callF ->
  powerStateChanged h on o m =
  Some (tt, storeRateLatency s SENSOR_RATE_FW_UPLOADING SENSOR_LATENCY_INVALID m, [callF]).
Proof.
  intros Hs Hx Hr Hon Hc. unfold powerStateChanged.
  rewrite bind_getM, Hs, bind_readSensor, Hx, Hr.
  destruct (N.eqb_spec on 0); [done|]. cbn [N.eqb Pos.eqb andb negb].
  rewrite N.eqb_refl. cbn [andb].
  rewrite bind_modifyM. unfold bind.
  destruct (getCur_store m h s x SENSOR_RATE_FW_UPLOADING SENSOR_LATENCY_INVALID Hs Hx)
    as (_ & Hx1 & _).
  rewrite (sensorCallFuncFwUpld_eq s _ o _ Hx1).
  change (fwUpldCall (set_currentLatency SENSOR_LATENCY_INVALID
                        (set_currentRate SENSOR_RATE_FW_UPLOADING x))) with (fwUpldCall x).
  by rewrite Hc.
Qed.


Lemma fwStateChanged_up h v1 v2 o m s x :
  sensorFindByHandle m h = Some s -> mSensors m !! s = Some x ->
  currentRate x = SENSOR_RATE_FW_UPLOADING -> v1 <> 0 ->
  fwStateChanged h v1 v2 o m = sensorReconfigFresh s o (storeRateLatency s v1 v2 m).
Proof.
  intros Hs Hx Hr Hv. unfold fwStateChanged.
  rewrite bind_getM, Hs, bind_readSensor, Hx, Hr.
  destruct (N.eqb_spec v1 0); [done|]. by rewrite N.eqb_refl, bind_modifyM.
Qed.

Lemma sensorReconfigFresh_live s x q o m :
  pseudoRatesDistinct ->
  mSensors m !! s = Some x -> registered x ->
  currentRate x <> SENSOR_RATE_OFF -> currentRate x <> SENSOR_RATE_POWERING_OFF ->
  q ∈ liveRequests (mCliSensMatrix m) (handle x) -> rate q <> 0 ->
  exists m' tr, sensorReconfigFresh s o m = Some (tt, m', tr) /\ mSensors m' = mSensors m.
Proof.
  intros Hd Hx Hreg H1 H2 Hq Hr.
  destruct (sensorReconfigFresh_total s x o m Hx Hreg) as (m' & tr & E & _).
  exists m', tr. split; [done|].
  unfold sensorReconfigFresh in E. rewrite bind_getM in E.
  destruct (sensorCalcHwRate m s 0 0) as [v|] eqn:Ev; [|done]. rewrite bind_liftO in E.
  destruct (sensorCalcHwLatency m s) as [lat|]; [|done]. rewrite bind_liftO in E.
  eapply sensorReconfig_live_keeps; [exact Hx|done|done| |exact E].
  by eapply sensorCalcHwRate_users.
Qed.

Lemma sensorSignalInternalEvt_true h n v1 v2 o m m' tr :
  sensorSignalInternalEvt h n v1 v2 o m = Some (true, m', tr) ->
  exists evt,
    firstFree (mInternalEvents m) = Some evt
    /\ tr = [OsDefer n evt]
    /\ m' = set_mInternalEvents (<[evt := Some (InternalEvt h v1 v2)]> (mInternalEvents m)) m
    /\ payloadOf m' evt = Some (h, v1, v2).
Proof.
  unfold sensorSignalInternalEvt. rewrite bind_getM. unfold slabAllocatorAlloc.
  destruct (firstFree (mInternalEvents m)) as [evt|] eqn:E; [|done].
  pose proof (firstFree_Some _ _ E) as Hfree.
  rewrite bind_modifyM, bind_extcall. destruct (o _).
  - intros [= <- <-]. exists evt. split; [done|]. split; [done|]. split; [done|].
    unfold payloadOf, slabAllocatorGetNth, slabStore. cbn [mInternalEvents set_mInternalEvents].
    rewrite list_lookup_insert_eq; [done|]. by eapply lookup_lt_Some.
  - unfold freeInternalEvt. rewrite bind_modifyM. done.
Qed.

Lemma power_completion_on evt h on w o m s x callF :
  payloadOf m evt = Some (h, on, w) -> on <> 0 ->
  sensorFindByHandle m h = Some s -> mSensors m !! s = Some x ->
  currentRate x = SENSOR_RATE_POWERING_ON -> fwUpldCall x = Some callF ->
  exists m',
    sensorInternalPowerStateChanged evt o m = Some (tt, m', [callF])
    /\ sensorFindByHandle m' h = Some s
    /\ mSensors m' !! s
       = Some (set_currentLatency SENSOR_LATENCY_INVALID (set_currentRate SENSOR_RATE_FW_UPLOADING x))
    /\ mCliSensMatrix m' = mCliSensMatrix m
    /\ sensorGetCurRate m' h = SENSOR_RATE_FW_UPLOADING.
Proof.
  intros Hp Hon Hs Hx Hr HcF. unfold sensorInternalPowerStateChanged.
  rewrite (handler_run (fun h v1 _ => powerStateChanged h v1) evt h on w o m Hp).
  rewrite (powerStateChanged_on h on o m s x callF Hs Hx Hr Hon HcF).
  eexists. split; [reflexivity|].
  destruct (getCur_store m h s x SENSOR_RATE_FW_UPLOADING SENSOR_LATENCY_INVALID Hs Hx)
    as (Hs2 & Hx2 & Hr2 & _).
  split; [exact Hs2|]. split; [exact Hx2|]. split; [|exact Hr2].
  cbn [mCliSensMatrix set_mInternalEvents]. apply storeRateLatency_cli.
Qed.

Lemma fw_completion_up evt h v1 v2 o m s x q :
  pseudoRatesDistinct ->
  payloadOf m evt = Some (h, v1, v2) -> runningRate v1 ->
  sensorFindByHandle m h = Some s -> mSensors m !! s = Some x -> handle x = h ->
  registered x -> currentRate x = SENSOR_RATE_FW_UPLOADING ->
  q ∈ liveRequests (mCliSensMatrix m) h -> rate q <> 0 ->
  exists m' tr,
    sensorInternalFwStateChanged evt o m = Some (tt, m', tr)
    /\ sensorGetCurRate m' h = v1 /\ sensorGetCurLatency m' h = v2.
Proof.
  intros Hd Hp Hrun Hs Hx Hh Hreg Hr Hq Hq0. unfold sensorInternalFwStateChanged.
  rewrite (handler_run fwStateChanged evt h v1 v2 o m Hp).
  rewrite (fwStateChanged_up h v1 v2 o m s x Hs Hx Hr (proj1 Hrun)).
  destruct (getCur_store m h s x v1 v2 Hs Hx) as (Hs3 & Hx3 & Hr3 & Hl3).
  set (m3 := storeRateLatency s v1 v2 m) in *.
  destruct (sensorReconfigFresh_live s _ q o m3 Hd Hx3) as (m4 & tr4 & E & Hsens).
  - by apply (registered_identity x).
  - apply Hrun.
  - apply Hrun.
  - unfold m3. rewrite storeRateLatency_cli.
    change (handle _) with (handle x). rewrite Hh. exact Hq.
  - done.
  - rewrite E. eexists _, _. split; [reflexivity|].
    assert (Hg : mSensors (set_mInternalEvents (slabAllocatorFree (mInternalEvents m4) evt) m4)
                 = mSensors m3) by done.
    destruct (getCur_sensors m3 _ h Hg) as [-> ->]. done.
Qed.

(** Cold start.  A request at a rate other than OFF that a registered
    sensor that is off accepts is recorded in the first free cell of the
    request table, asks the driver to power up and nothing else, and answers
    true whatever the driver says: refused, the sensor stays OFF; accepted,
    it is POWERING-ON.  When the driver then signals the power completion
    with a non-zero state and the deferred callback is delivered, the
    firmware upload is asked for, and nothing else, and the sensor is
    FW-UPLOADING.  When the driver then signals the firmware completion
    with a rate that is none of the four state values and that callback is
    delivered, the getters answer the reported rate and latency. *)
Theorem cold_start_sequence c h r l o1 m m1 tr1 s x :
  pseudoRatesDistinct -> tableSized m ->
  sensorFindByHandle m h = Some s -> mSensors m !! s = Some x -> registered x ->
  currentRate x = SENSOR_RATE_OFF -> r <> 0 ->
  sensorRequest c h r l o1 m = Some (true, m1, tr1) ->
  exists callP callF i,
    powerCall x true = Some callP /\ fwUpldCall x = Some callF /\ tr1 = [callP]
    /\ firstFree (mCliSensMatrix m) = Some i
    /\ mCliSensMatrix m1 = <[i := Some (mkReq h c l r)]> (mCliSensMatrix m)
    /\ slabAllocatorGetNth (mCliSensMatrix m1) i = Some (mkReq h c l r)
    /\ (o1 callP = false -> sensorGetCurRate m1 h = SENSOR_RATE_OFF)
    /\ (o1 callP = true ->
        sensorGetCurRate m1 h = SENSOR_RATE_POWERING_ON
        /\ forall on w o2 m2 tr2,
             on <> 0 ->
             sensorSignalInternalEvt h SENSOR_INTERNAL_EVT_POWER_STATE_CHG on w o2 m1
             = Some (true, m2, tr2) ->
             exists evt,
               tr2 = [OsDefer SENSOR_INTERNAL_EVT_POWER_STATE_CHG evt]
               /\ forall o3, exists m3,
                    internalEventCallbacks SENSOR_INTERNAL_EVT_POWER_STATE_CHG evt o3 m2
                    = Some (tt, m3, [callF])
                    /\ sensorGetCurRate m3 h = SENSOR_RATE_FW_UPLOADING
                    /\ forall v1 v2 o4 m4 tr4,
                         runningRate v1 ->
                         sensorSignalInternalEvt h SENSOR_INTERNAL_EVT_FW_STATE_CHG v1 v2 o4 m3
                         = Some (true, m4, tr4) ->
                         exists evt',
                           tr4 = [OsDefer SENSOR_INTERNAL_EVT_FW_STATE_CHG evt']
                           /\ forall o5, exists m5 tr5,
                                internalEventCallbacks SENSOR_INTERNAL_EVT_FW_STATE_CHG evt' o5 m4
                                = Some (tt, m5, tr5)
                                /\ sensorGetCurRate m5 h = v1
                                /\ sensorGetCurLatency m5 h = v2).
Proof.
  intros Hd Hts Hs Hx Hreg Hoff Hr Hreq.
  pose proof Hreg as (Hh0 & Hci & _).
  destruct (sensorFindByHandle_Some _ _ _ Hs) as (x0 & Hx0 & Hh).
  rewrite Hx in Hx0. injection Hx0 as <-.
  destruct (bindingCall_defined x (fun ops => OpsSensorPower ops true)
              (fun tid => OsEnqueuePrivateEvt EVT_APP_SENSOR_POWER (EvtDataBool true) false tid) Hci)
    as [callP HcP].
  destruct (bindingCall_defined x (fun ops => OpsSensorFirmwareUpload ops)
              (fun tid => OsEnqueuePrivateEvt EVT_APP_SENSOR_FW_UPLD EvtDataNull false tid) Hci)
    as [callF HcF].
  change (powerCall x true = Some callP) in HcP. change (fwUpldCall x = Some callF) in HcF.
  destruct (sensorCalcHwRate_total m s x r 0 Hx Hreg) as [nr Hnr].
  pose proof (sensorCalcHwRate_extra m s x r nr Hd Hx Hr Hnr) as Hnr0.
  rewrite (sensorRequest_run c h r l o1 m s nr Hs Hnr) in Hreq.
  destruct (nr =? SENSOR_RATE_IMPOSSIBLE); [done|].
  destruct (firstFree (mCliSensMatrix m)) as [i|] eqn:Hi; [|done].
  cbv zeta in Hreq.
  set (ma := set_mCliSensMatrix (slabStore (mCliSensMatrix m) i (mkReq h c l r)) m) in *.
  assert (Hxa : mSensors ma !! s = Some x) by done.
  assert (Hsa : sensorFindByHandle ma h = Some s) by done.
  destruct (sensorCalcHwLatency ma s) as [lat|]; [|done].
  rewrite (sensorReconfig_off s x nr lat o1 ma Hxa Hoff Hnr0), HcP in Hreq.
  injection Hreq as <- <-.
  pose proof (firstFree_Some _ _ Hi) as Hfree.
  pose proof (lookup_lt_Some _ _ _ Hfree) as Hlt.
  assert (Hcell : slabAllocatorGetNth (mCliSensMatrix ma) i = Some (mkReq h c l r)).
  { change (mCliSensMatrix ma) with (slabStore (mCliSensMatrix m) i (mkReq h c l r)).
    rewrite (slabAllocatorGetNth_store _ i i _ Hlt). by rewrite decide_True. }
  assert (Hq : mkReq h c l r ∈ liveRequests (mCliSensMatrix ma) h).
  { apply elem_of_liveRequests. exists i. unfold tableSized in Hts.
    split; [by rewrite <- Hts|]. by split. }
  assert (Hcli : forall m0, mCliSensMatrix m0 = mCliSensMatrix ma ->
            mCliSensMatrix m0 = <[i := Some (mkReq h c l r)]> (mCliSensMatrix m)
            /\ slabAllocatorGetNth (mCliSensMatrix m0) i = Some (mkReq h c l r)).
  { intros m0 ->. by split. }
  exists callP, callF, i. split; [done|]. split; [done|]. split; [done|]. split; [done|].
  destruct (o1 callP) eqn:Ho.
  - destruct (getCur_store ma h s x SENSOR_RATE_POWERING_ON SENSOR_LATENCY_INVALID Hsa Hxa)
      as (Hs1 & Hx1 & Hr1 & _).
    set (m1 := storeRateLatency s SENSOR_RATE_POWERING_ON SENSOR_LATENCY_INVALID ma) in *.
    assert (Hc1 : mCliSensMatrix m1 = mCliSensMatrix ma) by apply storeRateLatency_cli.
    destruct (Hcli m1 Hc1) as [? ?]. split; [done|]. split; [done|].
    split; [done|]. intros _. split; [done|].
    intros on w o2 m2 tr2 Hon Hsig.
    apply sensorSignalInternalEvt_true in Hsig as (evt & _ & -> & -> & Hp).
    exists evt. split; [done|]. intros o3. cbn [internalEventCallbacks].
    set (m2 := set_mInternalEvents _ m1) in *.
    destruct (power_completion_on evt h on w o3 m2 s _ callF Hp Hon Hs1 Hx1 eq_refl HcF)
      as (m3 & E3 & Hs3 & Hx3 & Hc3 & Hr3).
    exists m3. split; [done|]. split; [done|].
    intros v1 v2 o4 m4 tr4 Hrun Hsig.
    apply sensorSignalInternalEvt_true in Hsig as (evt' & _ & -> & -> & Hp').
    exists evt'. split; [done|]. intros o5.
    set (m4 := set_mInternalEvents _ m3) in *.
    apply (fw_completion_up evt' h v1 v2 o5 m4 s _ (mkReq h c l r) Hd Hp' Hrun Hs3 Hx3);
      [exact Hh|by apply (registered_identity x)|done| |done].
    change (mCliSensMatrix m4) with (mCliSensMatrix m3). rewrite Hc3.
    change (mCliSensMatrix m2) with (mCliSensMatrix m1). rewrite Hc1. exact Hq.
  - destruct (Hcli ma eq_refl) as [? ?]. split; [done|]. split; [done|]. split; [|done].
    intros _. rewrite (proj1 (getCur_slot ma h s x Hsa Hxa)). done.
Qed.


(** *** Enumeration by type *)

Lemma sensorFindFrom_nth sensors ty idx :
  described sensors ->
  sensorFindFrom sensors ty idx = Some (sensorsOfType sensors ty !! N.to_nat idx).
Proof.
  revert idx. induction sensors as [|x rest IH]; intros idx Hd; [done|].
  assert (Hd' : described rest).
  { intros y Hy. apply Hd. by apply list_elem_of_further. }
  cbn [sensorFindFrom]. unfold sensorsOfType. cbn [omap list_omap]. unfold ofType at 1.
  destruct (N.eqb_spec (handle x) 0) as [|Hh]; [by apply IH|].
  destruct (Hd x (list_elem_of_here _ _) Hh) as [info ->].
  destruct (sensorType info =? ty); [|by apply IH].
  destruct (N.eqb_spec idx 0) as [->|Hi]; [done|].
  rewrite (IH _ Hd'). replace (N.to_nat idx) with (S (N.to_nat (idx - 1))) by lia. done.
Qed.

(** Enumeration.  When every occupied slot has a descriptor and no two slots
    share a non-zero handle, [sensorFind] with index [idx] answers the
    [idx]-th registered sensor of the type in slot order, and nothing past
    the last one; the handle it hands out is not zero, and
    [sensorFindByHandle] leads from it to a slot with that very descriptor. *)
Theorem sensorFind_enumerates m ty idx :
  described (mSensors m) -> handlesUnique m ->
  sensorFind m ty idx = Some (sensorsOfType (mSensors m) ty !! N.to_nat idx)
  /\ forall info h, sensorFind m ty idx = Some (Some (info, h)) ->
       h <> 0 /\ sensorType info = ty
       /\ exists s x, sensorFindByHandle m h = Some s /\ mSensors m !! s = Some x
            /\ handle x = h /\ si x = Some info.
Proof.
  intros Hd Hu. unfold sensorFind. rewrite (sensorFindFrom_nth _ _ _ Hd).
  split; [done|]. intros info h [= E].
  apply list_elem_of_lookup_2 in E. unfold sensorsOfType in E.
  apply list_elem_of_omap in E as (x & Hx & Hf). unfold ofType in Hf.
  destruct (N.eqb_spec (handle x) 0) as [|Hh]; [done|].
  destruct (si x) as [info'|] eqn:Hsi; [|done].
  destruct (N.eqb_spec (sensorType info') ty) as [Hty|]; [|done].
  injection Hf as -> <-. split; [done|]. split; [done|].
  apply list_elem_of_lookup in Hx as [j Hj]. exists j, x.
  split; [|done]. apply (sensorFindByHandle_slot m (handle x) j x Hj eq_refl).
  intros k y Hk Hy. by apply (Hu k j y x Hk Hj); [|rewrite Hy].
Qed.

(** *** The set-rate message of an app-served sensor *)

(** The set-rate message for a sensor served by an app never leaks a cell of
    the event pool.  With no free cell nothing is sent and the answer is
    false; when the queue refuses the message the answer is false and the
    machine is exactly as before; when it accepts, the first free cell holds
    the latency and the rate, the message names that cell and its release
    callback, and the callback on that cell gives back the machine as it was
    before the call. *)
Theorem setRate_message_roundtrip s x tid r l o m :
  mSensors m !! s = Some x -> callInfo x = TaggedPtrUint tid ->
  (firstFree (mInternalEvents m) = None ->
   sensorCallFuncSetRate s r l o m = Some (false, m, []))
  /\ (forall evt, firstFree (mInternalEvents m) = Some evt ->
      (o (OsEnqueuePrivateEvt EVT_APP_SENSOR_SET_RATE (EvtDataExternalEvt evt) true tid) = false ->
       sensorCallFuncSetRate s r l o m =
         Some (false, m,
               [OsEnqueuePrivateEvt EVT_APP_SENSOR_SET_RATE (EvtDataExternalEvt evt) true tid]))
      /\ (o (OsEnqueuePrivateEvt EVT_APP_SENSOR_SET_RATE (EvtDataExternalEvt evt) true tid) = true ->
          exists m1,
            sensorCallFuncSetRate s r l o m =
              Some (true, m1,
                    [OsEnqueuePrivateEvt EVT_APP_SENSOR_SET_RATE (EvtDataExternalEvt evt) true tid])
            /\ slabAllocatorGetNth (mInternalEvents m1) evt = Some (ExternalEvt l r)
            /\ forall o', sensorCallFuncSetRateEvtFreeF evt o' m1 = Some (tt, m, []))).
Proof.
  intros Hx Hci. unfold sensorCallFuncSetRate.
  rewrite bind_readSensor, Hx, Hci, bind_getM. unfold slabAllocatorAlloc. split.
  - by intros ->.
  - intros evt E. rewrite E. pose proof (firstFree_Some _ _ E) as Hfree.
    rewrite bind_modifyM, bind_extcall. split.
    + intros ->. unfold sensorCallFuncSetRateEvtFreeF. rewrite bind_modifyM.
      unfold ret, slabStore, slabAllocatorFree.
      cbn [mInternalEvents set_mInternalEvents mSensors mSensorsUsed mCliSensMatrix mNextSensorHandle].
      rewrite list_insert_insert_eq, (list_insert_id _ _ _ Hfree).
      by destruct m.
    + intros ->. eexists. split; [reflexivity|]. split.
      * unfold slabAllocatorGetNth, slabStore. cbn [mInternalEvents set_mInternalEvents].
        rewrite list_lookup_insert_eq; [done|]. by eapply lookup_lt_Some.
      * intros o'. unfold sensorCallFuncSetRateEvtFreeF, modifyM, slabStore, slabAllocatorFree.
        cbn [mInternalEvents set_mInternalEvents mSensors mSensorsUsed mCliSensMatrix mNextSensorHandle].
        rewrite list_insert_insert_eq, (list_insert_id _ _ _ Hfree).
        by destruct m.
Qed.

(** *** The ladder of [sensorReconfig], on the slot and on the calls *)

Lemma sensorCallFuncSetRate_eq s x r l o m :
  mSensors m !! s = Some x ->
  sensorCallFuncSetRate s r l o m =
  match callInfo x with
  | TaggedPtrPtr ops =>
      if ops =? 0 then None
      else Some (o (OpsSensorSetRate ops r l), m, [OpsSensorSetRate ops r l])
  | TaggedPtrUint tid =>
      match firstFree (mInternalEvents m) with
      | None => Some (false, m, [])
      | Some evt =>
          Some (o (OsEnqueuePrivateEvt EVT_APP_SENSOR_SET_RATE (EvtDataExternalEvt evt) true tid),
                (if o (OsEnqueuePrivateEvt EVT_APP_SENSOR_SET_RATE (EvtDataExternalEvt evt) true tid)
                 then {| mSensors := mSensors m; mSensorsUsed := mSensorsUsed m;
                         mInternalEvents := <[evt := Some (ExternalEvt l r)]> (mInternalEvents m);
                         mCliSensMatrix := mCliSensMatrix m;
                         mNextSensorHandle := mNextSensorHandle m |}
                 else m),
                [OsEnqueuePrivateEvt EVT_APP_SENSOR_SET_RATE (EvtDataExternalEvt evt) true tid])
      end
  end.
Proof.
  intros Hx. unfold sensorCallFuncSetRate. rewrite bind_readSensor, Hx.
  destruct (callInfo x) as [ops|tid].
  - unfold callOps. by destruct (ops =? 0).
  - rewrite bind_getM. unfold slabAllocatorAlloc.
    destruct (firstFree (mInternalEvents m)) as [evt|] eqn:E; [|done].
    pose proof (firstFree_Some _ _ E) as Hfree.
    rewrite bind_modifyM, bind_extcall. destruct (o _); [done|].
    unfold sensorCallFuncSetRateEvtFreeF. rewrite bind_modifyM.
    unfold ret, slabStore, slabAllocatorFree.
    cbn [mInternalEvents set_mInternalEvents mSensors mSensorsUsed mCliSensMatrix mNextSensorHandle].
    rewrite list_insert_insert_eq, (list_insert_id _ _ _ Hfree). by destruct m.
Qed.

(** C2.  [sensorReconfig] applies the first matching case of its ladder; in
    each case the machine it leaves and the calls it makes are these.
    (1) The slot already has the target rate and latency: the machine is
        unchanged and nothing is called.
    (2) The sensor is OFF: the one call is power(true) through the binding,
        and exactly when it answers true the slot has [currentRate]
        POWERING-ON and [currentLatency] INVALID; otherwise the machine is
        unchanged.
    (3) The sensor is POWERING-OFF: the slot has [currentRate] POWERING-ON
        and [currentLatency] INVALID and nothing is called, for every
        target.
    (4) The sensor is POWERING-ON or FW-UPLOADING: the machine is unchanged
        and nothing is called.
    (5) Otherwise, for a target rate above OFF or a target latency below
        INVALID: the one call is setRate(target) through the binding (for an
        app the message carrying a cell of the event pool, and no call when
        the pool has none), its answer is dropped and the slot table is as
        it was.
    (6) Otherwise the one call is power(false), and exactly when it answers
        true the slot has [currentRate] POWERING-OFF and [currentLatency]
        INVALID.
    The stored machine differs from the old one in the two fields of the
    slot only.  A call through a NULL operations table is undefined. *)
Theorem sensorReconfig_ladder s x newHwRate newHwLatency o m :
  mSensors m !! s = Some x ->
  let same := currentRate x = newHwRate /\ currentLatency x = newHwLatency in
  let running :=
    currentRate x <> SENSOR_RATE_OFF /\ currentRate x <> SENSOR_RATE_POWERING_OFF
    /\ currentRate x <> SENSOR_RATE_POWERING_ON /\ currentRate x <> SENSOR_RATE_FW_UPLOADING in
  let live := SENSOR_RATE_OFF < newHwRate \/ newHwLatency < SENSOR_LATENCY_INVALID in
  let bound := callInfo x <> TaggedPtrPtr 0 in
  let power on :=
    match callInfo x with
    | TaggedPtrPtr ops => OpsSensorPower ops on
    | TaggedPtrUint tid => OsEnqueuePrivateEvt EVT_APP_SENSOR_POWER (EvtDataBool on) false tid
    end in
  let stored r :=
    {| mSensors :=
         <[s := {| si := si x; handle := handle x; currentLatency := SENSOR_LATENCY_INVALID;
                   currentRate := r; callInfo := callInfo x |}]> (mSensors m);
       mSensorsUsed := mSensorsUsed m; mInternalEvents := mInternalEvents m;
       mCliSensMatrix := mCliSensMatrix m; mNextSensorHandle := mNextSensorHandle m |} in
  (same -> sensorReconfig s newHwRate newHwLatency o m = Some (tt, m, []))
  /\ (~ same -> currentRate x = SENSOR_RATE_OFF -> bound ->
      sensorReconfig s newHwRate newHwLatency o m =
        Some (tt, (if o (power true) then stored SENSOR_RATE_POWERING_ON else m), [power true]))
  /\ (~ same -> currentRate x = SENSOR_RATE_POWERING_OFF ->
      sensorReconfig s newHwRate newHwLatency o m = Some (tt, stored SENSOR_RATE_POWERING_ON, []))
  /\ (~ same ->
      currentRate x = SENSOR_RATE_POWERING_ON \/ currentRate x = SENSOR_RATE_FW_UPLOADING ->
      sensorReconfig s newHwRate newHwLatency o m = Some (tt, m, []))
  /\ (~ same -> running -> live ->
      match callInfo x with
      | TaggedPtrPtr ops =>
          ops <> 0 ->
          sensorReconfig s newHwRate newHwLatency o m =
            Some (tt, m, [OpsSensorSetRate ops newHwRate newHwLatency])
      | TaggedPtrUint tid =>
          match firstFree (mInternalEvents m) with
          | None => sensorReconfig s newHwRate newHwLatency o m = Some (tt, m, [])
          | Some evt =>
              sensorReconfig s newHwRate newHwLatency o m =
                Some (tt,
                      (if o (OsEnqueuePrivateEvt EVT_APP_SENSOR_SET_RATE (EvtDataExternalEvt evt)
                               true tid)
                       then {| mSensors := mSensors m; mSensorsUsed := mSensorsUsed m;
                               mInternalEvents :=
                                 <[evt := Some (ExternalEvt newHwLatency newHwRate)]>
                                   (mInternalEvents m);
                               mCliSensMatrix := mCliSensMatrix m;
                               mNextSensorHandle := mNextSensorHandle m |}
                       else m),
                      [OsEnqueuePrivateEvt EVT_APP_SENSOR_SET_RATE (EvtDataExternalEvt evt)
                         true tid])
          end
      end)
  /\ (~ same -> running -> ~ live -> bound ->
      sensorReconfig s newHwRate newHwLatency o m =
        Some (tt, (if o (power false) then stored SENSOR_RATE_POWERING_OFF else m), [power false]))
  /\ (forall r,
        (exists x', mSensors (stored r) !! s = Some x'
           /\ currentRate x' = r /\ currentLatency x' = SENSOR_LATENCY_INVALID
           /\ si x' = si x /\ handle x' = handle x /\ callInfo x' = callInfo x)
        /\ forall j, j <> s -> mSensors (stored r) !! j = mSensors m !! j)
  /\ (~ same -> currentRate x = SENSOR_RATE_OFF \/ running -> ~ bound ->
      sensorReconfig s newHwRate newHwLatency o m = None).
Proof.
  intros Hx same running live bound power stored.
  assert (Hst : forall r, storeRateLatency s r SENSOR_LATENCY_INVALID m = stored r).
  { intros r. unfold storeRateLatency. by rewrite Hx. }
  assert (Hpow : forall on r, bound ->
    bind (sensorCallFuncPower s on)
         (fun ok => if ok then modifyM (storeRateLatency s r SENSOR_LATENCY_INVALID) else ret tt) o m
    = Some (tt, (if o (power on) then stored r else m), [power on])).
  { intros on r Hb. unfold bind. rewrite (sensorCallFuncPower_eq s x on o m Hx).
    unfold powerCall, bindingCall. subst power bound. cbv beta.
    destruct (callInfo x) as [ops|tid].
    - destruct (N.eqb_spec ops 0) as [->|_]; [by destruct Hb|].
      destruct (o _); unfold modifyM, ret; cbn [app]; by rewrite ?Hst.
    - destruct (o _); unfold modifyM, ret; cbn [app]; by rewrite ?Hst. }
  assert (Hsame : (currentRate x =? newHwRate) && (currentLatency x =? newHwLatency) = true <-> same).
  { subst same. rewrite andb_true_iff, !N.eqb_eq. tauto. }
  assert (Hdiff : ~ same -> (currentRate x =? newHwRate) && (currentLatency x =? newHwLatency) = false).
  { intros Hn. apply not_true_is_false. by rewrite Hsame. }
  assert (Hlive : (SENSOR_RATE_OFF <? newHwRate) || (newHwLatency <? SENSOR_LATENCY_INVALID) = true <-> live).
  { subst live. rewrite orb_true_iff, !N.ltb_lt. tauto. }
  unfold sensorReconfig. rewrite bind_readSensor, Hx.
  split; [|split; [|split; [|split; [|split; [|split; [|split]]]]]].
  - intros Hs. by rewrite (proj2 Hsame Hs).
  - intros Hn Hoff Hb. rewrite (Hdiff Hn), Hoff, N.eqb_refl. by apply Hpow.
  - intros Hn Hoff. rewrite (Hdiff Hn), Hoff.
    change (SENSOR_RATE_POWERING_OFF =? SENSOR_RATE_OFF) with false. rewrite N.eqb_refl.
    unfold modifyM. by rewrite Hst.
  - intros Hn [E|E]; rewrite (Hdiff Hn), E; reflexivity.
  - intros Hn (R1 & R2 & R3 & R4) Hl. rewrite (Hdiff Hn).
    destruct (N.eqb_spec (currentRate x) SENSOR_RATE_OFF); [done|].
    destruct (N.eqb_spec (currentRate x) SENSOR_RATE_POWERING_OFF); [done|].
    destruct (N.eqb_spec (currentRate x) SENSOR_RATE_POWERING_ON); [done|].
    destruct (N.eqb_spec (currentRate x) SENSOR_RATE_FW_UPLOADING); [done|].
    cbn [orb]. rewrite (proj2 Hlive Hl). unfold bind.
    rewrite (sensorCallFuncSetRate_eq s x newHwRate newHwLatency o m Hx).
    destruct (callInfo x) as [ops|tid].
    + intros Hops. destruct (N.eqb_spec ops 0); [done|]. reflexivity.
    + destruct (firstFree (mInternalEvents m)) as [evt|]; reflexivity.
  - intros Hn (R1 & R2 & R3 & R4) Hl Hb. rewrite (Hdiff Hn).
    destruct (N.eqb_spec (currentRate x) SENSOR_RATE_OFF); [done|].
    destruct (N.eqb_spec (currentRate x) SENSOR_RATE_POWERING_OFF); [done|].
    destruct (N.eqb_spec (currentRate x) SENSOR_RATE_POWERING_ON); [done|].
    destruct (N.eqb_spec (currentRate x) SENSOR_RATE_FW_UPLOADING); [done|].
    cbn [orb].
    destruct ((SENSOR_RATE_OFF <? newHwRate) || (newHwLatency <? SENSOR_LATENCY_INVALID)) eqn:El.
    { destruct Hl. by apply Hlive. }
    by apply Hpow.
  - intros r. subst stored. cbn [mSensors]. split.
    + eexists. split; [apply list_lookup_insert_eq; by eapply lookup_lt_Some|]. done.
    + intros j Hj. by rewrite list_lookup_insert_ne.
  - intros Hn Hst' Hnb. rewrite (Hdiff Hn).
    assert (Hnull : callInfo x = TaggedPtrPtr 0).
    { subst bound. destruct (callInfo x) as [ops|tid].
      - destruct (N.eq_dec ops 0) as [->|Hops]; [done|].
        destruct Hnb. intros [= E]. by destruct Hops.
      - by destruct Hnb. }
    assert (Hp : forall on, sensorCallFuncPower s on o m = None).
    { intros on. rewrite (sensorCallFuncPower_eq s x on o m Hx).
      unfold powerCall, bindingCall. by rewrite Hnull. }
    destruct Hst' as [Hoff|(R1 & R2 & R3 & R4)].
    + rewrite Hoff, N.eqb_refl. unfold bind. by rewrite Hp.
    + destruct (N.eqb_spec (currentRate x) SENSOR_RATE_OFF); [done|].
      destruct (N.eqb_spec (currentRate x) SENSOR_RATE_POWERING_OFF); [done|].
      destruct (N.eqb_spec (currentRate x) SENSOR_RATE_POWERING_ON); [done|].
      destruct (N.eqb_spec (currentRate x) SENSOR_RATE_FW_UPLOADING); [done|].
      cbn [orb].
      destruct ((SENSOR_RATE_OFF <? newHwRate) || (newHwLatency <? SENSOR_LATENCY_INVALID)).
      * unfold bind. rewrite (sensorCallFuncSetRate_eq s x newHwRate newHwLatency o m Hx), Hnull.
        done.
      * unfold bind. by rewrite Hp.
Qed.

(** *** Where the rate of a slot is written *)

Section Follows.

Variable R : Machine -> Machine -> Prop.
Hypothesis R_sensors : forall m m', mSensors m' = mSensors m -> R m m'.
Hypothesis R_trans : forall m1 m2 m3, R m1 m2 -> R m2 m3 -> R m1 m3.

Lemma follows_ret {A} (a : A) : follows R (ret a).
Proof. intros o m a' m' tr [= _ <- _]. by apply R_sensors. Qed.

Lemma follows_getM : follows R getM.
Proof. intros o m a' m' tr [= _ <- _]. by apply R_sensors. Qed.

Lemma follows_undefined {A} : follows R (@undefined A).
Proof. by intros o m a' m' tr. Qed.

Lemma follows_liftO {A} (x : option A) : follows R (liftO x).
Proof. destruct x; [apply follows_ret | apply follows_undefined]. Qed.

Lemma follows_extcall c : follows R (extcall c).
Proof. intros o m a' m' tr [= _ <- _]. by apply R_sensors. Qed.

Lemma follows_callOps ops c : follows R (callOps ops c).
Proof.
  unfold callOps. destruct (ops =? 0); [apply follows_undefined | apply follows_extcall].
Qed.

Lemma follows_bind {A B} (c : M A) (k : A -> M B) :
  follows R c -> (forall a, follows R (k a)) -> follows R (bind c k).
Proof.
  intros Hc Hk o m b m' tr E.
  apply bind_Some in E as (a & m1 & t1 & t2 & E1 & E2 & _).
  exact (R_trans _ _ _ (Hc _ _ _ _ _ E1) (Hk a _ _ _ _ _ E2)).
Qed.

Lemma follows_modifyM f : (forall m, R m (f m)) -> follows R (modifyM f).
Proof. intros Hf o m a' m' tr [= _ <- _]. apply Hf. Qed.

Ltac flw :=
  repeat first
    [ assumption
    | match goal with Hk : context [follows] |- _ => apply Hk end
    | apply follows_callOps
    | apply follows_ret | apply follows_getM | apply follows_liftO
    | apply follows_undefined | apply follows_extcall
    | apply follows_bind; [|intros ?]
    | apply follows_modifyM; intros ?; apply R_sensors; reflexivity
    | match goal with |- follows _ (match ?x with _ => _ end) => destruct x end ].

Lemma sensorCallFuncPower_follows s on : follows R (sensorCallFuncPower s on).
Proof. unfold sensorCallFuncPower, readSensor. flw. Qed.

Lemma sensorCallFuncFlush_follows s : follows R (sensorCallFuncFlush s).
Proof. unfold sensorCallFuncFlush, readSensor. flw. Qed.

Lemma sensorCallFuncTrigger_follows s : follows R (sensorCallFuncTrigger s).
Proof. unfold sensorCallFuncTrigger, readSensor. flw. Qed.

Lemma sensorCallFuncSetRate_follows s r l : follows R (sensorCallFuncSetRate s r l).
Proof.
  intros o m ok m' tr E. apply R_sensors.
  by destruct (sensorCallFuncSetRate_run _ _ _ _ _ _ _ _ E).
Qed.

Lemma sensorAddRequestor_follows h c r l : follows R (sensorAddRequestor h c r l).
Proof. unfold sensorAddRequestor. flw. Qed.

Lemma sensorAmendRequestor_follows h c r l : follows R (sensorAmendRequestor h c r l).
Proof. unfold sensorAmendRequestor. flw. Qed.

Lemma sensorDeleteRequestor_follows h c : follows R (sensorDeleteRequestor h c).
Proof. unfold sensorDeleteRequestor. flw. Qed.

Lemma sensorSignalInternalEvt_follows h n v1 v2 : follows R (sensorSignalInternalEvt h n v1 v2).
Proof. unfold sensorSignalInternalEvt, freeInternalEvt. flw. Qed.

Lemma sensorTriggerOndemand_follows c h : follows R (sensorTriggerOndemand c h).
Proof. pose proof sensorCallFuncTrigger_follows. unfold sensorTriggerOndemand. flw. Qed.

Lemma sensorFlush_follows h : follows R (sensorFlush h).
Proof. pose proof sensorCallFuncFlush_follows. unfold sensorFlush. flw. Qed.

Lemma sensorRegisterEx_follows info ci :
  (forall idx h m,
     R m (set_mSensors
            (<[idx := mkSensor (Some info) h SENSOR_LATENCY_INVALID SENSOR_RATE_OFF ci]> (mSensors m))
            m)) ->
  follows R (sensorRegisterEx info ci).
Proof.
  intros Hreg. unfold sensorRegisterEx, readSensor. flw.
  apply follows_modifyM. intros m. apply Hreg.
Qed.

Section Stores.

Hypothesis R_store : forall s r m,
  r = SENSOR_RATE_POWERING_ON \/ r = SENSOR_RATE_POWERING_OFF ->
  R m (storeRateLatency s r SENSOR_LATENCY_INVALID m).

Lemma sensorReconfig_follows s r l : follows R (sensorReconfig s r l).
Proof.
  pose proof (sensorCallFuncPower_follows s true).
  pose proof (sensorCallFuncPower_follows s false).
  pose proof (sensorCallFuncSetRate_follows s r l).
  assert (follows R (modifyM (storeRateLatency s SENSOR_RATE_POWERING_ON SENSOR_LATENCY_INVALID)))
    by (apply follows_modifyM; intros ?; apply R_store; by left).
  assert (follows R (modifyM (storeRateLatency s SENSOR_RATE_POWERING_OFF SENSOR_LATENCY_INVALID)))
    by (apply follows_modifyM; intros ?; apply R_store; by right).
  unfold sensorReconfig, readSensor. flw.
Qed.

Lemma sensorReconfigFresh_follows s : follows R (sensorReconfigFresh s).
Proof. pose proof sensorReconfig_follows. unfold sensorReconfigFresh. flw. Qed.

Lemma sensorRequest_follows c h r l : follows R (sensorRequest c h r l).
Proof.
  pose proof (sensorAddRequestor_follows h c r l).
  pose proof sensorReconfig_follows. unfold sensorRequest. flw.
Qed.

Lemma sensorRequestRateChange_follows c h r l : follows R (sensorRequestRateChange c h r l).
Proof.
  pose proof (sensorAmendRequestor_follows h c r l).
  pose proof sensorReconfig_follows. unfold sensorRequestRateChange. flw.
Qed.

Lemma sensorRelease_follows c h : follows R (sensorRelease c h).
Proof.
  pose proof (sensorDeleteRequestor_follows h c).
  pose proof sensorReconfigFresh_follows. unfold sensorRelease. flw.
Qed.

Lemma runApi_follows c : isRegistration c = false -> follows R (runApi c).
Proof.
  pose proof sensorSignalInternalEvt_follows. pose proof sensorRequest_follows.
  pose proof sensorRequestRateChange_follows. pose proof sensorRelease_follows.
  pose proof sensorTriggerOndemand_follows. pose proof sensorFlush_follows.
  destruct c; try discriminate; intros _; cbn [runApi]; flw.
Qed.

End Stores.

End Follows.

Lemma keptOrStored_refl allowed x : keptOrStored allowed x x.
Proof. by left. Qed.

Lemma keptOrStored_trans allowed x y z :
  keptOrStored allowed x y -> keptOrStored allowed y z -> keptOrStored allowed x z.
Proof.
  intros Hxy [[E1 E2]|Hz]; [|by right].
  destruct Hxy as [[E3 E4]|[E3 E4]]; [left|right]; split; congruence.
Qed.

Lemma slotsKeptOrStored_sensors allowed m m' :
  mSensors m' = mSensors m -> slotsKeptOrStored allowed m m'.
Proof.
  intros E. unfold slotsKeptOrStored. rewrite E. apply Forall_Forall2_diag.
  apply Forall_forall. intros x _. apply keptOrStored_refl.
Qed.

Lemma slotsKeptOrStored_trans allowed m1 m2 m3 :
  slotsKeptOrStored allowed m1 m2 -> slotsKeptOrStored allowed m2 m3 ->
  slotsKeptOrStored allowed m1 m3.
Proof.
  unfold slotsKeptOrStored. apply Forall2_trans. apply keptOrStored_trans.
Qed.

Lemma slotsKeptOrStored_insert allowed m s (y : Sensor) sensors' :
  sensors' = <[s := y]> (mSensors m) ->
  (forall x, mSensors m !! s = Some x -> keptOrStored allowed x y) ->
  Forall2 (keptOrStored allowed) (mSensors m) sensors'.
Proof.
  intros -> Hy. destruct (mSensors m !! s) as [x|] eqn:Hx.
  - rewrite <- (list_insert_id (mSensors m) s x Hx) at 1.
    apply Forall2_insert; [|by apply Hy].
    apply Forall_Forall2_diag, Forall_forall. intros ? _. apply keptOrStored_refl.
  - rewrite list_insert_ge by (by apply lookup_ge_None).
    apply Forall_Forall2_diag, Forall_forall. intros ? _. apply keptOrStored_refl.
Qed.

Lemma slotsKeptOrStored_store allowed s r m :
  r ∈ allowed ->
  slotsKeptOrStored allowed m (storeRateLatency s r SENSOR_LATENCY_INVALID m).
Proof.
  intros Hr. unfold storeRateLatency.
  destruct (mSensors m !! s) as [x|] eqn:Hx; [|by apply slotsKeptOrStored_sensors].
  apply (slotsKeptOrStored_insert allowed m s _ _ eq_refl). intros ? _. by right.
Qed.

(** C9.  [sensorReconfig] stores into [currentRate] nothing but POWERING-ON
    and POWERING-OFF, each together with INVALID into [currentLatency], into
    the one slot, and leaves the rest of the slot table alone.  Nor does any
    other path outside the completion handlers store a running rate: after
    a call of the API that is no registration each slot has the rate and
    latency it had, or POWERING-ON or POWERING-OFF with INVALID; after a
    registration or an unregistration each slot has the rate and latency it
    had, or OFF with INVALID; and the release of a set-rate payload leaves
    the slot table as it was.  So a value other than these three reaches
    [currentRate] through the completion handlers only. *)
Theorem sensorReconfig_sentinel_stores :
  (forall s x newHwRate newHwLatency o m u m' tr,
     mSensors m !! s = Some x ->
     sensorReconfig s newHwRate newHwLatency o m = Some (u, m', tr) ->
     mSensors m' = mSensors m
     \/ mSensors m' =
          <[s := {| si := si x; handle := handle x; currentLatency := SENSOR_LATENCY_INVALID;
                    currentRate := SENSOR_RATE_POWERING_ON; callInfo := callInfo x |}]>
            (mSensors m)
     \/ mSensors m' =
          <[s := {| si := si x; handle := handle x; currentLatency := SENSOR_LATENCY_INVALID;
                    currentRate := SENSOR_RATE_POWERING_OFF; callInfo := callInfo x |}]>
            (mSensors m))
  /\ (forall c o m m' tr,
        isRegistration c = false -> runApi c o m = Some (tt, m', tr) ->
        slotsKeptOrStored [SENSOR_RATE_POWERING_ON; SENSOR_RATE_POWERING_OFF] m m')
  /\ (forall c o m m' tr,
        isRegistration c = true -> runApi c o m = Some (tt, m', tr) ->
        slotsKeptOrStored [SENSOR_RATE_OFF] m m')
  /\ (forall evt o m m' tr,
        sensorCallFuncSetRateEvtFreeF evt o m = Some (tt, m', tr) -> mSensors m' = mSensors m).
Proof.
  split; [|split; [|split]].
  - intros s x newHwRate newHwLatency o m u m' tr Hx E.
    apply sensorReconfig_stores in E as [->|[->|[->|(E & _)]]]; auto.
    + right; left. by apply storeRateLatency_sensors.
    + right; right. by apply storeRateLatency_sensors.
  - intros c o m m' tr Hc E.
    refine (runApi_follows _ _ _ _ c Hc o m tt m' tr E).
    + apply slotsKeptOrStored_sensors.
    + apply slotsKeptOrStored_trans.
    + intros s r m0 [-> | ->]; apply slotsKeptOrStored_store; repeat constructor.
  - intros c o m m' tr Hc E.
    assert (Hreg : forall info ci, follows (slotsKeptOrStored [SENSOR_RATE_OFF])
                                     (sensorRegisterEx info ci)).
    { intros info ci. apply sensorRegisterEx_follows.
      - apply slotsKeptOrStored_sensors.
      - apply slotsKeptOrStored_trans.
      - intros idx h m0. apply (slotsKeptOrStored_insert _ m0 idx _ _ eq_refl).
        intros ? _. right. split; [repeat constructor|done]. }
    destruct c; try discriminate; cbn [runApi] in E;
      apply bind_Some in E as (a & m1 & t1 & t2 & E1 & E2 & _);
      injection E2 as <-.
    + exact (Hreg _ _ _ _ _ _ _ E1).
    + exact (Hreg _ _ _ _ _ _ _ E1).
    + destruct (sensorFindByHandle m h) as [s|] eqn:Hs.
      2:{ rewrite (sensorUnregister_unknown _ _ _ Hs) in E1. injection E1 as _ <- _.
          by apply slotsKeptOrStored_sensors. }
      destruct (sensorFindByHandle_Some _ _ _ Hs) as (x & Hx & Hh).
      rewrite (sensorUnregister_run _ _ _ _ _ Hs Hx) in E1. injection E1 as _ <- _.
      apply (slotsKeptOrStored_insert _ m s _ _ eq_refl).
      intros x0 Hx0. rewrite Hx in Hx0. injection Hx0 as <-. by left.
  - intros evt o m m' tr [= <- _]. reflexivity.
Qed.

End Properties.

(** ** The properties on the sample data *)

Lemma demoRegistered_run :
  sensorRegister demoInfo 0x1000 yes demoInit = Some (1, demoRegistered, []).
Proof. vm_compute. reflexivity. Qed.

Lemma demoRequested_run :
  sensorRequest (hdr := demoH) 7 1 25 SENSOR_LATENCY_INVALID yes demoRegistered
  = Some (true, demoRequested, [OpsSensorPower 0x1000 true]).
Proof. vm_compute. reflexivity. Qed.

Lemma demoShared_run :
  sensorRequest (hdr := demoH) 8 1 25 SENSOR_LATENCY_INVALID yes demoRequested
  = Some (true, demoShared, []).
Proof. vm_compute. reflexivity. Qed.

Lemma demoResidue_run :
  sensorUnregister 1 yes demoRequested = Some (true, demoResidue, []).
Proof. vm_compute. reflexivity. Qed.

Lemma demo_pseudoRatesDistinct : pseudoRatesDistinct (hdr := demoH).
Proof. vm_compute. repeat split; discriminate. Qed.

Lemma demoSensor_registered : registered demoSensor.
Proof.
  split; [discriminate|]. split; [discriminate|].
  exists demoInfo. split; [reflexivity|]. apply list_elem_of_In. vm_compute. tauto.
Qed.

(** C5.  The handle 0 is reserved as invalid, and yet the getters answer
    for it with what is left in the first slot whose handle is 0: after a
    sensor was unregistered while powering on, [sensorGetCurRate 0] is
    POWERING-ON and not OFF; and before any registration
    [sensorGetCurLatency 0] is 0 and not INVALID. *)
Theorem sensorGetCur_handle_zero :
  sensorGetCurRate demoResidue 0 = SENSOR_RATE_POWERING_ON
  /\ SENSOR_RATE_POWERING_ON <> SENSOR_RATE_OFF
  /\ (forall x, x ∈ mSensors demoResidue -> handle x = 0)
  /\ sensorGetCurLatency demoInit 0 = 0
  /\ 0 <> SENSOR_LATENCY_INVALID.
Proof.
  split; [reflexivity|]. split; [discriminate|]. split; [|split; [reflexivity|discriminate]].
  intros x Hx. apply list_elem_of_In in Hx. vm_compute in Hx.
  repeat destruct Hx as [<-|Hx]; try reflexivity. destruct Hx.
Qed.

Lemma sensorCalcHwRate_cases_witness :
  sensorCalcHwRate (hdr := demoH) demoRequested 0 40 0 = Some 50.
Proof.
  assert (Hasc : ascending (supportedRates demoInfo)).
  { unfold ascending. cbn. repeat constructor; vm_compute; discriminate. }
  assert (Hterm : 0 ∈ supportedRates demoInfo).
  { apply list_elem_of_In. vm_compute. tauto. }
  destruct (sensorCalcHwRate_cases (hdr := demoH) demoRequested 0
              (set_currentLatency SENSOR_LATENCY_INVALID
                 (set_currentRate SENSOR_RATE_POWERING_ON demoSensor))
              demoInfo 40 0 eq_refl eq_refl demo_pseudoRatesDistinct Hasc Hterm)
    as (_ & _ & _ & Hconcrete).
  destruct Hconcrete as (E & _); [vm_compute; discriminate|].
  rewrite E. vm_compute. reflexivity.
Defined.

Lemma sensorReconfig_ladder_witness :
  sensorReconfig 0 SENSOR_RATE_OFF SENSOR_LATENCY_INVALID yes demoRegistered
  = Some (tt, demoRegistered, [])
  /\ sensorReconfig 0 25 SENSOR_LATENCY_INVALID yes demoRegistered
     = Some (tt,
             {| mSensors :=
                  [ {| si := Some demoInfo; handle := 1; currentLatency := SENSOR_LATENCY_INVALID;
                       currentRate := SENSOR_RATE_POWERING_ON; callInfo := TaggedPtrPtr 0x1000 |};
                    zeroSensor; zeroSensor; zeroSensor ];
                mSensorsUsed := mSensorsUsed demoRegistered;
                mInternalEvents := mInternalEvents demoRegistered;
                mCliSensMatrix := mCliSensMatrix demoRegistered;
                mNextSensorHandle := mNextSensorHandle demoRegistered |},
             [OpsSensorPower 0x1000 true])
  /\ sensorReconfig 0 25 SENSOR_LATENCY_INVALID no demoRegistered
     = Some (tt, demoRegistered, [OpsSensorPower 0x1000 true])
  /\ sensorReconfig 0 50 SENSOR_LATENCY_INVALID yes demoRequested = Some (tt, demoRequested, [])
  /\ sensorReconfig 0 50 SENSOR_LATENCY_INVALID yes demoRunning
     = Some (tt, demoRunning, [OpsSensorSetRate 0x1000 50 SENSOR_LATENCY_INVALID])
  /\ sensorReconfig 0 SENSOR_RATE_OFF SENSOR_LATENCY_INVALID yes demoRunning
     = Some (tt,
             {| mSensors :=
                  [ {| si := Some demoInfo; handle := 1; currentLatency := SENSOR_LATENCY_INVALID;
                       currentRate := SENSOR_RATE_POWERING_OFF; callInfo := TaggedPtrPtr 0x1000 |};
                    zeroSensor; zeroSensor; zeroSensor ];
                mSensorsUsed := mSensorsUsed demoRunning;
                mInternalEvents := mInternalEvents demoRunning;
                mCliSensMatrix := mCliSensMatrix demoRunning;
                mNextSensorHandle := mNextSensorHandle demoRunning |},
             [OpsSensorPower 0x1000 false])
  /\ sensorReconfig 0 25 SENSOR_LATENCY_INVALID yes demoRunLastChanged
     = Some (tt,
             {| mSensors :=
                  [ {| si := Some demoInfo; handle := 1; currentLatency := SENSOR_LATENCY_INVALID;
                       currentRate := SENSOR_RATE_POWERING_ON; callInfo := TaggedPtrPtr 0x1000 |};
                    zeroSensor; zeroSensor; zeroSensor ];
                mSensorsUsed := mSensorsUsed demoRunLastChanged;
                mInternalEvents := mInternalEvents demoRunLastChanged;
                mCliSensMatrix := mCliSensMatrix demoRunLastChanged;
                mNextSensorHandle := mNextSensorHandle demoRunLastChanged |},
             []).
Proof.
  assert (Hrun : forall r : N, r = 25 ->
            r <> SENSOR_RATE_OFF /\ r <> SENSOR_RATE_POWERING_OFF
            /\ r <> SENSOR_RATE_POWERING_ON /\ r <> SENSOR_RATE_FW_UPLOADING).
  { intros r ->. repeat split; discriminate. }
  split; [|split; [|split; [|split; [|split; [|split]]]]].
  - destruct (sensorReconfig_ladder 0 demoSensor SENSOR_RATE_OFF SENSOR_LATENCY_INVALID yes
                demoRegistered eq_refl) as (Hsame & _).
    apply Hsame. split; reflexivity.
  - destruct (sensorReconfig_ladder 0 demoSensor 25 SENSOR_LATENCY_INVALID yes demoRegistered
                eq_refl) as (_ & Hoff & _).
    rewrite Hoff; [reflexivity| |reflexivity|discriminate].
    intros [E _]. discriminate E.
  - destruct (sensorReconfig_ladder 0 demoSensor 25 SENSOR_LATENCY_INVALID no demoRegistered
                eq_refl) as (_ & Hoff & _).
    rewrite Hoff; [reflexivity| |reflexivity|discriminate].
    intros [E _]. discriminate E.
  - destruct (sensorReconfig_ladder 0
                (mkSensor (Some demoInfo) 1 SENSOR_LATENCY_INVALID SENSOR_RATE_POWERING_ON
                   (TaggedPtrPtr 0x1000))
                50 SENSOR_LATENCY_INVALID yes demoRequested eq_refl) as (_ & _ & _ & Hwait & _).
    apply Hwait; [|by left]. intros [E _]. discriminate E.
  - destruct (sensorReconfig_ladder 0 demoRunningSensor 50 SENSOR_LATENCY_INVALID yes demoRunning
                eq_refl) as (_ & _ & _ & _ & Hlive & _).
    apply Hlive; [| |by left|discriminate].
    + intros [E _]. discriminate E.
    + by apply Hrun.
  - destruct (sensorReconfig_ladder 0 demoRunningSensor SENSOR_RATE_OFF SENSOR_LATENCY_INVALID yes
                demoRunning eq_refl) as (_ & _ & _ & _ & _ & Hdown & _).
    rewrite Hdown; [reflexivity| | | |discriminate].
    + intros [E _]. discriminate E.
    + by apply Hrun.
    + intros [E|E]; [by apply N.lt_irrefl in E|by apply N.lt_irrefl in E].
  - destruct (sensorReconfig_ladder 0
                (mkSensor (Some demoInfo) 1 SENSOR_LATENCY_INVALID SENSOR_RATE_POWERING_OFF
                   (TaggedPtrPtr 0x1000))
                25 SENSOR_LATENCY_INVALID yes demoRunLastChanged eq_refl) as (_ & _ & Hup & _).
    rewrite Hup; [reflexivity| |reflexivity].
    intros [E _]. discriminate E.
Defined.

Lemma sensorReconfig_sentinel_stores_witness :
  slotsKeptOrStored [SENSOR_RATE_POWERING_ON; SENSOR_RATE_POWERING_OFF] demoRegistered demoRequested
  /\ sensorGetCurRate demoRegistered 1 = SENSOR_RATE_OFF
  /\ sensorGetCurRate demoRequested 1 = SENSOR_RATE_POWERING_ON.
Proof.
  split; [|split; reflexivity].
  apply (proj1 (proj2 (sensorReconfig_sentinel_stores (hdr := demoH)))
           (CallRequest 7 1 25 SENSOR_LATENCY_INVALID) yes demoRegistered demoRequested
           [OpsSensorPower 0x1000 true]).
  - reflexivity.
  - vm_compute. reflexivity.
Defined.

Lemma infeasible_request_rejected_witness :
  sensorRequest (hdr := demoH) 8 1 1000 0 yes demoRequested = Some (false, demoRequested, [])
  /\ sensorRequestRateChange (hdr := demoH) 7 1 1000 0 yes demoRequested
     = Some (false, demoRequested, []).
Proof.
  split.
  - apply (proj1 (infeasible_request_rejected (hdr := demoH) 8 1 1000 0 yes demoRequested 0 eq_refl)).
    vm_compute. reflexivity.
  - apply (proj2 (infeasible_request_rejected (hdr := demoH) 7 1 1000 0 yes demoRequested 0 eq_refl)
             25 SENSOR_LATENCY_INVALID).
    + vm_compute. reflexivity.
    + vm_compute. reflexivity.
Defined.

Lemma sensorRequest_false_unchanged_witness :
  exists m' tr,
    sensorRequest (hdr := demoH) 8 1 1000 0 yes demoRequested = Some (false, m', tr)
    /\ m' = demoRequested /\ tr = [].
Proof.
  exists demoRequested, []. split; [vm_compute; reflexivity|].
  apply (sensorRequest_false_unchanged (hdr := demoH) 8 1 1000 0 yes demoRequested demoRequested []).
  vm_compute. reflexivity.
Defined.


Lemma request_release_restores_witness :
  sensorGetCurRequestorRate demoRequested 1 7 = Some (25, SENSOR_LATENCY_INVALID)
  /\ exists m2 tr2,
      sensorRelease (hdr := demoH) 7 1 no demoRequested = Some (true, m2, tr2)
      /\ mCliSensMatrix m2 = mCliSensMatrix demoRegistered
      /\ findRequestor (mCliSensMatrix m2) 1 7 = None
      /\ forall i, slabAllocatorGetNth (mCliSensMatrix m2) i
                   = slabAllocatorGetNth (mCliSensMatrix demoRegistered) i.
Proof.
  apply (request_release_restores (hdr := demoH) 7 1 25 SENSOR_LATENCY_INVALID yes no
           demoRegistered 0 demoSensor demoRequested [OpsSensorPower 0x1000 true]).
  - vm_compute. reflexivity.
  - vm_compute. reflexivity.
  - reflexivity.
  - exact demoSensor_registered.
  - vm_compute. reflexivity.
  - vm_compute. reflexivity.
Defined.

Lemma rateChange_vs_release_request_witness :
  exists ok mc trc mr trr ms trs,
    sensorRequestRateChange (hdr := demoH) 7 1 40 0 yes demoShared = Some (ok, mc, trc)
    /\ sensorRelease (hdr := demoH) 7 1 yes demoShared = Some (true, mr, trr)
    /\ sensorRequest (hdr := demoH) 7 1 40 0 yes mr = Some (ok, ms, trs)
    /\ (ok = true ->
        sensorCalcHwRate (hdr := demoH) mc 0 0 0 = sensorCalcHwRate (hdr := demoH) ms 0 0 0
        /\ sensorCalcHwLatency mc 0 = sensorCalcHwLatency ms 0)
    /\ (ok = false -> mc = demoShared /\ ms = mr).
Proof.
  apply (proj2 (rateChange_vs_release_request (hdr := demoH) 7 1 40 0 yes yes yes demoShared 0
                  (set_currentLatency SENSOR_LATENCY_INVALID
                     (set_currentRate SENSOR_RATE_POWERING_ON demoSensor))
                  demo_pseudoRatesDistinct eq_refl eq_refl eq_refl
                  (registered_identity _ _ eq_refl demoSensor_registered))).
  vm_compute. discriminate.
Defined.

Lemma reachable_ratesAllowed_witness : ratesAllowed (hdr := demoH) demoRegistered.
Proof.
  apply (reachable_ratesAllowed (hdr := demoH) (mkWorld demoRegistered [] [])).
  apply (reachable_step _ (mkWorld demoInit [] [])); [apply reachable_init|].
  apply (step_api _ (mkWorld demoInit [] []) (CallRegister demoInfo 0x1000) yes demoRegistered []).
  vm_compute. reflexivity.
Defined.

(** C3 as stated fails: a rate-change completion stores the rate it
    carries, whatever it is.  After [sensorRegister], then
    [sensorSignalInternalEvt (1, RATE_CHG, 7, 0)] and the delivery of the
    callback, the live sensor 1 has the current rate 7, which is no sentinel,
    no pseudo-rate and none of its supported rates. *)
Lemma reachable_rate_not_allowed :
  reachable (hdr := demoH) anyPayload (mkWorld demoStomped [] [])
  /\ sensorGetCurRate demoStomped 1 = 7
  /\ ~ ratesAllowed (hdr := demoH) demoStomped.
Proof.
  split; [|split].
  - apply (reachable_step _ (mkWorld demoSignalled [(SENSOR_INTERNAL_EVT_RATE_CHG, 0%nat)] [])).
    + apply (reachable_step _ (mkWorld demoRegistered [] [])).
      * apply (reachable_step _ (mkWorld demoInit [] [])); [apply reachable_init|].
        apply (step_api _ (mkWorld demoInit [] []) (CallRegister demoInfo 0x1000) yes
                 demoRegistered []).
        vm_compute. reflexivity.
      * apply (step_api _ (mkWorld demoRegistered [] [])
                 (CallSignalInternalEvt 1 SENSOR_INTERNAL_EVT_RATE_CHG 7 0) yes demoSignalled
                 [OsDefer SENSOR_INTERNAL_EVT_RATE_CHG 0]).
        vm_compute. reflexivity.
    + apply (step_deferred _ (mkWorld demoSignalled [(SENSOR_INTERNAL_EVT_RATE_CHG, 0%nat)] [])
               [] SENSOR_INTERNAL_EVT_RATE_CHG 0%nat [] yes demoStomped []).
      * reflexivity.
      * exact I.
      * vm_compute. reflexivity.
  - reflexivity.
  - intros Hall.
    destruct (Hall 0%nat
                (set_currentLatency 0 (set_currentRate 7 demoSensor)) eq_refl)
      as [E|[E|[E|[E|[E|[E|(i & Hi & Hin)]]]]]]; try discriminate.
    injection Hi as <-. apply list_elem_of_In in Hin. vm_compute in Hin.
    repeat destruct Hin as [Hin|Hin]; try discriminate. destruct Hin.
Qed.

(** C8 as stated fails when the new rate is infeasible: the rate change is
    refused before the table is touched, so client 7 keeps its request and
    the aggregation still answers 25, while in the sequence the release has
    already taken the request away when the new request is refused, and the
    aggregation answers OFF. *)
Lemma rateChange_release_request_differ :
  exists mc mr ms trc trr trs,
    sensorRequestRateChange (hdr := demoH) 7 1 1000 0 yes demoRequested = Some (false, mc, trc)
    /\ sensorRelease (hdr := demoH) 7 1 yes demoRequested = Some (true, mr, trr)
    /\ sensorRequest (hdr := demoH) 7 1 1000 0 yes mr = Some (false, ms, trs)
    /\ sensorCalcHwRate (hdr := demoH) mc 0 0 0 = Some 25
    /\ sensorCalcHwRate (hdr := demoH) ms 0 0 0 = Some SENSOR_RATE_OFF.
Proof.
  eexists _, _, _, _, _, _. split; [vm_compute; reflexivity|].
  split; [vm_compute; reflexivity|].
  split; [vm_compute; reflexivity|].
  split; vm_compute; reflexivity.
Qed.

(** ** Further properties on the sample data *)

Lemma demoRegistered_wellFormed : wellFormed (hdr := demoH) demoRegistered.
Proof.
  apply (wellFormed_register (hdr := demoH) demoInfo (TaggedPtrPtr 0x1000) yes demoInit 1
           demoRegistered []).
  - apply wellFormed_init.
  - vm_compute. reflexivity.
Qed.

Lemma demoRequested_wellFormed : wellFormed (hdr := demoH) demoRequested.
Proof.
  apply (runApi_wellFormed (hdr := demoH) (CallRequest 7 1 25 SENSOR_LATENCY_INVALID) yes
           demoRegistered demoRequested [OpsSensorPower 0x1000 true]).
  - apply demoRegistered_wellFormed.
  - vm_compute. reflexivity.
Qed.

Lemma demoTwo_wellFormed : wellFormed (hdr := demoH) demoTwo.
Proof.
  apply (wellFormed_register (hdr := demoH) demoInfoB (TaggedPtrUint 9) yes demoRequested 2
           demoTwo []).
  - apply demoRequested_wellFormed.
  - vm_compute. reflexivity.
Qed.

Lemma demoTwo_described : described (mSensors demoTwo).
Proof.
  intros x Hx Hh. apply list_elem_of_In in Hx. vm_compute in Hx.
  destruct Hx as [<-|[<-|[<-|[<-|[]]]]].
  - by exists demoInfo.
  - by exists demoInfoB.
  - by destruct Hh.
  - by destruct Hh.
Qed.

Lemma demoRunning_run :
  sensorInternalFwStateChanged (hdr := demoH) 0 yes demoFwSignalled
  = Some (tt, demoRunning, [OpsSensorSetRate 0x1000 25 SENSOR_LATENCY_INVALID]).
Proof. vm_compute. reflexivity. Qed.

Lemma reachable_wellFormed_witness : wellFormed (hdr := demoH) demoRegistered.
Proof.
  apply (reachable_wellFormed (hdr := demoH) anyPayload (mkWorld demoRegistered [] [])).
  apply (reachable_step _ (mkWorld demoInit [] [])); [apply reachable_init|].
  apply (step_api _ (mkWorld demoInit [] []) (CallRegister demoInfo 0x1000) yes demoRegistered []).
  vm_compute. reflexivity.
Defined.

Lemma sensorRegisterEx_outcome_witness :
  exists h m',
    sensorRegisterEx demoInfoB (TaggedPtrUint 9) yes demoRequested = Some (h, m', [])
    /\ ((h = 0 /\ m' = demoRequested /\ forall x, x ∈ mSensors demoRequested -> handle x <> 0)
        \/ (h <> 0
            /\ (forall x, x ∈ mSensors demoRequested -> handle x <> h)
            /\ exists idx x0,
                mSensors demoRequested !! idx = Some x0 /\ handle x0 = 0
                /\ mSensors m' =
                     <[idx := mkSensor (Some demoInfoB) h SENSOR_LATENCY_INVALID SENSOR_RATE_OFF
                                (TaggedPtrUint 9)]>
                       (mSensors demoRequested)
                /\ mCliSensMatrix m' = mCliSensMatrix demoRequested
                /\ mInternalEvents m' = mInternalEvents demoRequested
                /\ sensorFindByHandle m' h = Some idx
                /\ sensorGetCurRate m' h = SENSOR_RATE_OFF
                /\ sensorGetCurLatency m' h = SENSOR_LATENCY_INVALID)).
Proof.
  apply (sensorRegisterEx_outcome (hdr := demoH) demoInfoB (TaggedPtrUint 9) yes demoRequested
           demoRequested_wellFormed).
  vm_compute. discriminate.
Defined.

Lemma sensorUnregister_outcome_witness :
  (sensorFindByHandle demoRequested 1 = None ->
   sensorUnregister 1 yes demoRequested = Some (false, demoRequested, []))
  /\ (forall s, sensorFindByHandle demoRequested 1 = Some s ->
      exists m',
        sensorUnregister 1 yes demoRequested = Some (true, m', [])
        /\ sensorFindByHandle m' 1 = None
        /\ sensorGetCurRate m' 1 = SENSOR_RATE_OFF
        /\ sensorGetCurLatency m' 1 = SENSOR_LATENCY_INVALID
        /\ mSensorsUsed m' !! s = Some false
        /\ mCliSensMatrix m' = mCliSensMatrix demoRequested
        /\ forall j, j <> s -> mSensors m' !! j = mSensors demoRequested !! j).
Proof.
  apply (sensorUnregister_outcome (hdr := demoH) 1 yes demoRequested demoRequested_wellFormed).
  discriminate.
Defined.

Lemma sensorCalcHwLatency_least_witness :
  exists v,
    sensorCalcHwLatency demoChanged 0 = Some v
    /\ v <= SENSOR_LATENCY_INVALID
    /\ (forall i q, (i < MAX_CLI_SENS_MATRIX_SZ)%nat ->
          slabAllocatorGetNth (mCliSensMatrix demoChanged) i = Some q -> req_handle q = 1 ->
          v <= latency q)
    /\ (v = SENSOR_LATENCY_INVALID
        \/ exists i q, (i < MAX_CLI_SENS_MATRIX_SZ)%nat
             /\ slabAllocatorGetNth (mCliSensMatrix demoChanged) i = Some q
             /\ req_handle q = 1 /\ latency q = v).
Proof.
  apply (sensorCalcHwLatency_least demoChanged 0
           (set_currentLatency SENSOR_LATENCY_INVALID
              (set_currentRate SENSOR_RATE_POWERING_ON demoSensor))).
  vm_compute. reflexivity.
Defined.

Lemma sensorCalcHwRate_answer_witness :
  exists v,
    sensorCalcHwRate (hdr := demoH) demoShared 0 50 25 = Some v
    /\ (v = SENSOR_RATE_OFF \/ v = SENSOR_RATE_ONDEMAND (SensorsH := demoH)
        \/ v = SENSOR_RATE_ONCHANGE (SensorsH := demoH)
        \/ v = SENSOR_RATE_IMPOSSIBLE \/ (v ∈ supportedRates demoInfo /\ v <> 0))
    /\ (v <> SENSOR_RATE_IMPOSSIBLE ->
        forall c, c ∈ contributions (mCliSensMatrix demoShared) 1 50 25 ->
                  isConcrete (hdr := demoH) c = true -> c <= v).
Proof.
  apply (sensorCalcHwRate_answer (hdr := demoH) demoShared 0
           (set_currentLatency SENSOR_LATENCY_INVALID
              (set_currentRate SENSOR_RATE_POWERING_ON demoSensor))
           demoInfo 50 25 eq_refl eq_refl).
  - apply list_elem_of_In. vm_compute. tauto.
  - exact demo_pseudoRatesDistinct.
Defined.

Lemma internalEvent_delivery_witness :
  slabAllocatorGetNth (mInternalEvents demoStomped) 0 = None
  /\ exists h v1 v2,
      payloadOf demoSignalled 0 = Some (h, v1, v2)
      /\ (sensorFindByHandle demoSignalled h = None ->
          demoStomped
          = set_mInternalEvents (slabAllocatorFree (mInternalEvents demoSignalled) 0) demoSignalled
          /\ @nil ExtCall = []).
Proof.
  apply (internalEvent_delivery (hdr := demoH) SENSOR_INTERNAL_EVT_RATE_CHG 0 yes demoSignalled
           demoStomped []).
  vm_compute. reflexivity.
Defined.

Lemma rateChange_completion_overrides_witness :
  exists m',
    sensorInternalRateChanged 0 yes demoSignalled = Some (tt, m', [])
    /\ sensorGetCurRate m' 1 = 7
    /\ sensorGetCurLatency m' 1 = 0.
Proof.
  apply (rateChange_completion_overrides 0 1 7 0 yes demoSignalled 0).
  - vm_compute. reflexivity.
  - vm_compute. reflexivity.
Defined.

Lemma other_sensors_unaffected_witness :
  sensorCalcHwRate (hdr := demoH) demoTwoShared 1 0 0 = sensorCalcHwRate (hdr := demoH) demoTwo 1 0 0
  /\ sensorCalcHwLatency demoTwoShared 1 = sensorCalcHwLatency demoTwo 1.
Proof.
  apply (other_sensors_unaffected (hdr := demoH) 8 1 25 SENSOR_LATENCY_INVALID yes demoTwo 1
           demoSensorB 0 0 true demoTwoShared []).
  - vm_compute. reflexivity.
  - discriminate.
  - left. vm_compute. reflexivity.
Defined.

Lemma rateChange_then_get_witness :
  sensorGetCurRequestorRate demoChanged 1 7 = Some (50, 100).
Proof.
  apply (rateChange_then_get (hdr := demoH) 7 1 50 100 yes demoShared demoChanged []).
  vm_compute. reflexivity.
Defined.

Lemma sensorRelease_outcome_witness :
  (true = false ->
   demoReleased = demoShared /\ @nil ExtCall = []
   /\ (sensorFindByHandle demoShared 1 = None
       \/ findRequestor (mCliSensMatrix demoShared) 1 7 = None))
  /\ (true = true ->
      exists i, findRequestor (mCliSensMatrix demoShared) 1 7 = Some i
        /\ slabAllocatorGetNth (mCliSensMatrix demoReleased) i = None
        /\ forall j, j <> i ->
             slabAllocatorGetNth (mCliSensMatrix demoReleased) j
             = slabAllocatorGetNth (mCliSensMatrix demoShared) j).
Proof.
  apply (sensorRelease_outcome (hdr := demoH) 7 1 yes demoShared true demoReleased []).
  vm_compute. reflexivity.
Defined.

Lemma cold_start_sequence_witness :
  slabAllocatorGetNth (mCliSensMatrix demoRequested) 0
  = Some (mkReq 1 7 SENSOR_LATENCY_INVALID 25)
  /\ sensorGetCurRate demoRequested 1 = SENSOR_RATE_POWERING_ON
  /\ sensorSignalInternalEvt 1 SENSOR_INTERNAL_EVT_POWER_STATE_CHG 1 0 yes demoRequested
     = Some (true, demoPowerSignalled, [OsDefer SENSOR_INTERNAL_EVT_POWER_STATE_CHG 0])
  /\ internalEventCallbacks (hdr := demoH) SENSOR_INTERNAL_EVT_POWER_STATE_CHG 0 yes
       demoPowerSignalled
     = Some (tt, demoUploading, [OpsSensorFirmwareUpload 0x1000])
  /\ sensorGetCurRate demoUploading 1 = SENSOR_RATE_FW_UPLOADING
  /\ sensorSignalInternalEvt 1 SENSOR_INTERNAL_EVT_FW_STATE_CHG 25 1000 yes demoUploading
     = Some (true, demoFwSignalled, [OsDefer SENSOR_INTERNAL_EVT_FW_STATE_CHG 0])
  /\ exists tr5,
      internalEventCallbacks (hdr := demoH) SENSOR_INTERNAL_EVT_FW_STATE_CHG 0 yes demoFwSignalled
      = Some (tt, demoRunning, tr5)
      /\ sensorGetCurRate demoRunning 1 = 25
      /\ sensorGetCurLatency demoRunning 1 = 1000.
Proof.
  assert (Hsig : sensorSignalInternalEvt 1 SENSOR_INTERNAL_EVT_POWER_STATE_CHG 1 0 yes demoRequested
                 = Some (true, demoPowerSignalled, [OsDefer SENSOR_INTERNAL_EVT_POWER_STATE_CHG 0]))
    by (vm_compute; reflexivity).
  assert (Hsig' : sensorSignalInternalEvt 1 SENSOR_INTERNAL_EVT_FW_STATE_CHG 25 1000 yes demoUploading
                  = Some (true, demoFwSignalled, [OsDefer SENSOR_INTERNAL_EVT_FW_STATE_CHG 0]))
    by (vm_compute; reflexivity).
  assert (Hdel : internalEventCallbacks (hdr := demoH) SENSOR_INTERNAL_EVT_POWER_STATE_CHG 0 yes
                   demoPowerSignalled
                 = Some (tt, demoUploading, [OpsSensorFirmwareUpload 0x1000]))
    by (vm_compute; reflexivity).
  assert (Hrunning : runningRate 25) by (vm_compute; repeat split; discriminate).
  destruct (cold_start_sequence (hdr := demoH) 7 1 25 SENSOR_LATENCY_INVALID yes demoRegistered
              demoRequested [OpsSensorPower 0x1000 true] 0 demoSensor
              demo_pseudoRatesDistinct eq_refl eq_refl eq_refl demoSensor_registered eq_refl)
    as (callP & callF & i & _ & _ & _ & Hi & _ & Hcell & _ & Hyes);
    [discriminate|vm_compute; reflexivity|].
  injection Hi as <-. split; [exact Hcell|].
  destruct (Hyes eq_refl) as (Hpon & Hchain). split; [exact Hpon|]. split; [exact Hsig|].
  split; [exact Hdel|].
  destruct (Hchain 1 0 yes demoPowerSignalled _ ltac:(discriminate) Hsig) as (evt & Hevt & Hstage).
  injection Hevt as <-.
  destruct (Hstage yes) as (m3 & E3 & Hfwu & Hchain').
  rewrite Hdel in E3. injection E3 as <- _. split; [exact Hfwu|]. split; [exact Hsig'|].
  destruct (Hchain' 25 1000 yes demoFwSignalled _ Hrunning Hsig') as (evt' & Hevt' & Hstage').
  injection Hevt' as <-.
  destruct (Hstage' yes) as (m5 & tr5 & E5 & Hr5 & Hl5).
  assert (Hm5 : m5 = demoRunning).
  { pose proof E5 as E. cbn [internalEventCallbacks] in E.
    rewrite demoRunning_run in E. by injection E as <- _. }
  subst m5. exists tr5. split; [exact E5|]. split; [exact Hr5|exact Hl5].
Defined.


Lemma sensorFind_enumerates_witness :
  sensorFind demoTwo 2 0 = Some (sensorsOfType (mSensors demoTwo) 2 !! N.to_nat 0)
  /\ forall info h, sensorFind demoTwo 2 0 = Some (Some (info, h)) ->
       h <> 0 /\ sensorType info = 2
       /\ exists s x, sensorFindByHandle demoTwo h = Some s /\ mSensors demoTwo !! s = Some x
            /\ handle x = h /\ si x = Some info.
Proof.
  apply (sensorFind_enumerates demoTwo 2 0 demoTwo_described).
  apply demoTwo_wellFormed.
Defined.

Lemma setRate_message_roundtrip_witness :
  (firstFree (mInternalEvents demoTwo) = None ->
   sensorCallFuncSetRate 1 10 500 yes demoTwo = Some (false, demoTwo, []))
  /\ (forall evt, firstFree (mInternalEvents demoTwo) = Some evt ->
      (yes (OsEnqueuePrivateEvt EVT_APP_SENSOR_SET_RATE (EvtDataExternalEvt evt) true 9) = false ->
       sensorCallFuncSetRate 1 10 500 yes demoTwo =
         Some (false, demoTwo,
               [OsEnqueuePrivateEvt EVT_APP_SENSOR_SET_RATE (EvtDataExternalEvt evt) true 9]))
      /\ (yes (OsEnqueuePrivateEvt EVT_APP_SENSOR_SET_RATE (EvtDataExternalEvt evt) true 9) = true ->
          exists m1,
            sensorCallFuncSetRate 1 10 500 yes demoTwo =
              Some (true, m1,
                    [OsEnqueuePrivateEvt EVT_APP_SENSOR_SET_RATE (EvtDataExternalEvt evt) true 9])
            /\ slabAllocatorGetNth (mInternalEvents m1) evt = Some (ExternalEvt 500 10)
            /\ forall o', sensorCallFuncSetRateEvtFreeF evt o' m1 = Some (tt, demoTwo, []))).
Proof.
  apply (setRate_message_roundtrip 1 demoSensorB 9 10 500 yes demoTwo).
  - vm_compute. reflexivity.
  - reflexivity.
Defined.

(** ** Requests at the rate OFF and the removed rate *)

Lemma demoRunning_reachable : reachable (hdr := demoH) anyPayload (mkWorld demoRunning [] []).
Proof.
  apply (reachable_step _ (mkWorld demoFwSignalled [(SENSOR_INTERNAL_EVT_FW_STATE_CHG, 0%nat)] [])).
  - apply (reachable_step _ (mkWorld demoUploading [] [])).
    + apply (reachable_step _
               (mkWorld demoPowerSignalled [(SENSOR_INTERNAL_EVT_POWER_STATE_CHG, 0%nat)] [])).
      * apply (reachable_step _ (mkWorld demoRequested [] [])).
        -- apply (reachable_step _ (mkWorld demoRegistered [] [])).
           ++ apply (reachable_step _ (mkWorld demoInit [] [])); [apply reachable_init|].
              apply (step_api _ (mkWorld demoInit [] []) (CallRegister demoInfo 0x1000) yes
                       demoRegistered []).
              vm_compute. reflexivity.
           ++ apply (step_api _ (mkWorld demoRegistered [] [])
                       (CallRequest 7 1 25 SENSOR_LATENCY_INVALID) yes demoRequested
                       [OpsSensorPower 0x1000 true]).
              vm_compute. reflexivity.
        -- apply (step_api _ (mkWorld demoRequested [] [])
                    (CallSignalInternalEvt 1 SENSOR_INTERNAL_EVT_POWER_STATE_CHG 1 0) yes
                    demoPowerSignalled [OsDefer SENSOR_INTERNAL_EVT_POWER_STATE_CHG 0]).
           vm_compute. reflexivity.
      * apply (step_deferred _
                 (mkWorld demoPowerSignalled [(SENSOR_INTERNAL_EVT_POWER_STATE_CHG, 0%nat)] [])
                 [] SENSOR_INTERNAL_EVT_POWER_STATE_CHG 0%nat [] yes demoUploading
                 [OpsSensorFirmwareUpload 0x1000]); [reflexivity|exact I|].
        vm_compute. reflexivity.
    + apply (step_api _ (mkWorld demoUploading [] [])
               (CallSignalInternalEvt 1 SENSOR_INTERNAL_EVT_FW_STATE_CHG 25 1000) yes
               demoFwSignalled [OsDefer SENSOR_INTERNAL_EVT_FW_STATE_CHG 0]).
      vm_compute. reflexivity.
  - apply (step_deferred _
             (mkWorld demoFwSignalled [(SENSOR_INTERNAL_EVT_FW_STATE_CHG, 0%nat)] [])
             [] SENSOR_INTERNAL_EVT_FW_STATE_CHG 0%nat [] yes demoRunning
             [OpsSensorSetRate 0x1000 25 SENSOR_LATENCY_INVALID]); [reflexivity|exact I|].
    vm_compute. reflexivity.
Qed.

Lemma demoRunLast_reachable : reachable (hdr := demoH) anyPayload (mkWorld demoRunLast [] []).
Proof.
  apply (reachable_step _ (mkWorld demoRunning [] [])); [apply demoRunning_reachable|].
  apply (step_api _ (mkWorld demoRunning [] []) (CallRequest 8 1 0 SENSOR_LATENCY_INVALID) yes
           demoRunLast [OpsSensorSetRate 0x1000 25 SENSOR_LATENCY_INVALID]).
  vm_compute. reflexivity.
Qed.

Lemma demoRunFirst_reachable : reachable (hdr := demoH) anyPayload (mkWorld demoRunFirst [] []).
Proof.
  apply (reachable_step _ (mkWorld demoZeroFirstF [(SENSOR_INTERNAL_EVT_FW_STATE_CHG, 0%nat)] [])).
  - apply (reachable_step _ (mkWorld demoZeroFirstU [] [])).
    + apply (reachable_step _
               (mkWorld demoZeroFirstP [(SENSOR_INTERNAL_EVT_POWER_STATE_CHG, 0%nat)] [])).
      * apply (reachable_step _ (mkWorld demoZeroFirst [] [])).
        -- apply (reachable_step _ (mkWorld demoZeroOnly [] [])).
           ++ apply (reachable_step _ (mkWorld demoRegistered [] [])).
              ** apply (reachable_step _ (mkWorld demoInit [] [])); [apply reachable_init|].
                 apply (step_api _ (mkWorld demoInit [] []) (CallRegister demoInfo 0x1000) yes
                          demoRegistered []).
                 vm_compute. reflexivity.
              ** apply (step_api _ (mkWorld demoRegistered [] [])
                          (CallRequest 8 1 0 SENSOR_LATENCY_INVALID) yes demoZeroOnly []).
                 vm_compute. reflexivity.
           ++ apply (step_api _ (mkWorld demoZeroOnly [] [])
                       (CallRequest 7 1 25 SENSOR_LATENCY_INVALID) yes demoZeroFirst
                       [OpsSensorPower 0x1000 true]).
              vm_compute. reflexivity.
        -- apply (step_api _ (mkWorld demoZeroFirst [] [])
                    (CallSignalInternalEvt 1 SENSOR_INTERNAL_EVT_POWER_STATE_CHG 1 0) yes
                    demoZeroFirstP [OsDefer SENSOR_INTERNAL_EVT_POWER_STATE_CHG 0]).
           vm_compute. reflexivity.
      * apply (step_deferred _
                 (mkWorld demoZeroFirstP [(SENSOR_INTERNAL_EVT_POWER_STATE_CHG, 0%nat)] [])
                 [] SENSOR_INTERNAL_EVT_POWER_STATE_CHG 0%nat [] yes demoZeroFirstU
                 [OpsSensorFirmwareUpload 0x1000]); [reflexivity|exact I|].
        vm_compute. reflexivity.
    + apply (step_api _ (mkWorld demoZeroFirstU [] [])
               (CallSignalInternalEvt 1 SENSOR_INTERNAL_EVT_FW_STATE_CHG 25 1000) yes
               demoZeroFirstF [OsDefer SENSOR_INTERNAL_EVT_FW_STATE_CHG 0]).
      vm_compute. reflexivity.
  - apply (step_deferred _
             (mkWorld demoZeroFirstF [(SENSOR_INTERNAL_EVT_FW_STATE_CHG, 0%nat)] [])
             [] SENSOR_INTERNAL_EVT_FW_STATE_CHG 0%nat [] yes demoRunFirst
             [OpsSensorSetRate 0x1000 25 SENSOR_LATENCY_INVALID]); [reflexivity|exact I|].
    vm_compute. reflexivity.
Qed.

(** C1.  The answer of [sensorCalcHwRate] depends on the order of the cells
    when a request at the rate OFF is in the table and a rate is removed.
    Client 8 holds a request at the rate OFF and client 7 one at the rate
    25 for the same running sensor; with no extra rate and the rate 25
    removed, no counted request contributes a user, and the answer is OFF
    when the request at 25 comes first in the table but ON-DEMAND when the
    request at OFF comes first.  Both tables are reached by calls of the
    API.  When client 7 then changes its rate from 25 to OFF, the sensor
    with the request at 25 first is powered down, and the sensor with the
    request at OFF first is sent setRate(ON-DEMAND) and stays at the rate
    25, although the aggregation of what is left answers OFF for both. *)
Theorem sensorCalcHwRate_zero_rate_order :
  reachable (hdr := demoH) anyPayload (mkWorld demoRunFirst [] [])
  /\ reachable (hdr := demoH) anyPayload (mkWorld demoRunLast [] [])
  /\ liveRequests (mCliSensMatrix demoRunFirst) 1
     = [mkReq 1 8 SENSOR_LATENCY_INVALID 0; mkReq 1 7 SENSOR_LATENCY_INVALID 25]
  /\ liveRequests (mCliSensMatrix demoRunLast) 1
     = [mkReq 1 7 SENSOR_LATENCY_INVALID 25; mkReq 1 8 SENSOR_LATENCY_INVALID 0]
  /\ mSensors demoRunFirst = mSensors demoRunLast
  /\ sensorGetCurRate demoRunFirst 1 = 25
  /\ sensorCalcHwRate (hdr := demoH) demoRunFirst 0 0 25 = Some (SENSOR_RATE_ONDEMAND (SensorsH := demoH))
  /\ sensorCalcHwRate (hdr := demoH) demoRunLast 0 0 25 = Some SENSOR_RATE_OFF
  /\ SENSOR_RATE_ONDEMAND (SensorsH := demoH) <> SENSOR_RATE_OFF
  /\ sensorCalcHwRate (hdr := demoH) demoRunFirst 0 0 0 = Some 25
  /\ sensorCalcHwRate (hdr := demoH) demoRunLast 0 0 0 = Some 25
  /\ sensorRequestRateChange (hdr := demoH) 7 1 0 SENSOR_LATENCY_INVALID yes demoRunFirst
     = Some (true, demoRunFirstChanged,
             [OpsSensorSetRate 0x1000 (SENSOR_RATE_ONDEMAND (SensorsH := demoH)) SENSOR_LATENCY_INVALID])
  /\ sensorRequestRateChange (hdr := demoH) 7 1 0 SENSOR_LATENCY_INVALID yes demoRunLast
     = Some (true, demoRunLastChanged, [OpsSensorPower 0x1000 false])
  /\ sensorGetCurRate demoRunFirstChanged 1 = 25
  /\ sensorGetCurRate demoRunLastChanged 1 = SENSOR_RATE_POWERING_OFF
  /\ sensorCalcHwRate (hdr := demoH) demoRunFirstChanged 0 0 0 = Some SENSOR_RATE_OFF
  /\ sensorCalcHwRate (hdr := demoH) demoRunLastChanged 0 0 0 = Some SENSOR_RATE_OFF.
Proof.
  split; [exact demoRunFirst_reachable|]. split; [exact demoRunLast_reachable|].
  repeat split; try (vm_compute; reflexivity). discriminate.
Qed.
